(** * FuzzerLoop: a shallow embedding of the differential fuzzing loop

    The development follows [Fuzzer/FuzzerLoop.cpp].  Machine integers are
    integers of [Z] with the wrap-around written where the source relies on
    [size_t] arithmetic, byte buffers are lists of integers in [0, 256), the
    two hash tables are finite maps, and the members of [Fuzzer] live in one
    record that every member function threads through a small monad with
    three outcomes: return, process exit, fault. *)

From Stdlib Require Import ZArith Lia Bool.
From stdpp Require Import gmap strings list fin_maps pretty.

Local Open Scope Z_scope.

(** ** Machine arithmetic *)

Definition wrap64 (z : Z) : Z := z mod 2 ^ 64.
Definition INT_MAX : Z := 2 ^ 31 - 1.

(** [(uint8_t) x] *)
Definition to_uint8 (z : Z) : Z := Z.land z 255.

(** [(int) x] for a [size_t] value: the low 32 bits, read as two's complement. *)
Definition to_int (z : Z) : Z :=
  let r := z mod 2 ^ 32 in if decide (r < 2 ^ 31) then r else r - 2 ^ 32.

(** ** [uint_to_uint8] *)

(** The eight stores of one loop iteration, in source order. *)
Definition store_word (w : Z) (i : nat) (dest : list Z) : list Z :=
  let d0 := <[(i * 8)%nat := to_uint8 w]> dest in
  let d1 := <[(i * 8 + 1)%nat := to_uint8 (Z.shiftr w 8)]> d0 in
  let d2 := <[(i * 8 + 2)%nat := to_uint8 (Z.shiftr w 16)]> d1 in
  let d3 := <[(i * 8 + 3)%nat := to_uint8 (Z.shiftr w 24)]> d2 in
  let d4 := <[(i * 8 + 4)%nat := to_uint8 (Z.shiftr w 32)]> d3 in
  let d5 := <[(i * 8 + 5)%nat := to_uint8 (Z.shiftr w 40)]> d4 in
  let d6 := <[(i * 8 + 6)%nat := to_uint8 (Z.shiftr w 48)]> d5 in
  <[(i * 8 + 7)%nat := to_uint8 (Z.shiftr w 56)]> d6.

(** [for (int i = 0; i < size; i++)], started at [i] with [n] iterations
    left.  A read past [source], a store past [dest] and an index
    [i * 8 + 7] that leaves the [int] range are undefined behaviour and
    yield [None]. *)
Fixpoint uint_to_uint8_from (source dest : list Z) (i n : nat)
  : option (list Z) :=
  match n with
  | O => Some dest
  | S n' =>
      w ← source !! i;
      if decide ((i * 8 + 7 < length dest)%nat
                 ∧ Z.of_nat (i * 8 + 7) ≤ INT_MAX)
      then uint_to_uint8_from source (store_word w i dest) (S i) n'
      else None
  end.

Definition uint_to_uint8 (source dest : list Z) (size : nat)
  : option (list Z) :=
  uint_to_uint8_from source dest 0 size.

(** ** [memcpy] on list buffers *)

(** [memcpy(dst + pt, src + idx, n)]; out-of-bounds ranges are undefined. *)
Definition memcpy (dst : list Z) (pt : nat) (src : list Z) (idx n : nat)
  : option (list Z) :=
  if decide (pt + n ≤ length dst ∧ idx + n ≤ length src)%nat
  then Some (take pt dst ++ take n (drop idx src) ++ drop (pt + n) dst)
  else None.

(** ** The divergence-coverage blob of [DumpUnitIfDiff] *)

(** The loop [for (j = 0; j < size; j++)] over the callbacks, started at [j]
    with [n] iterations left.  [index] and [pt] are [int] in the source:
    leaving the [int] range is undefined. *)
Fixpoint coverage_loop (ModuleNum : list nat) (OutputDiffVec : list Z)
    (Mid : list Z) (j n : nat) (index : nat) (Coverage : list Z)
    (CovSize : nat) : option (list Z * nat) :=
  match n with
  | O => Some (Coverage, CovSize)
  | S n' =>
      m ← ModuleNum !! j;
      let index := (index + 8 * m)%nat in
      if decide (Z.of_nat index ≤ INT_MAX ∧ Z.of_nat CovSize ≤ INT_MAX) then
        let pt := CovSize in
        r ← OutputDiffVec !! j;
        if decide (r ≠ 0) then
          m1 ← ModuleNum !! S j;
          Coverage' ← memcpy Coverage pt Mid index (8 * m1);
          coverage_loop ModuleNum OutputDiffVec Mid (S j) n' index
            Coverage' (CovSize + 8 * m1)
        else
          coverage_loop ModuleNum OutputDiffVec Mid (S j) n' index
            Coverage CovSize
      else None
  end.

(** Lines 223-241: the bytes [Coverage[0 .. CovSize)] handed to
    [ComputeSHA1].  [Mid] is an uninitialised array in the source; every
    byte of it is stored by [uint_to_uint8] before it is read, so the model
    starts it from zeroes. *)
Definition DivergenceCoverage (UC_size NumPCs : nat) (PCs : list Z)
    (ModuleNum : list nat) (OutputDiffVec : list Z) : option (list Z) :=
  Mid ← uint_to_uint8 PCs (replicate (NumPCs * 8) 0) NumPCs;
  let Coverage := replicate (NumPCs * 8) 0 in
  '(Coverage, CovSize) ← coverage_loop ModuleNum OutputDiffVec Mid 0
                            UC_size 0 Coverage 0;
  Some (take CovSize Coverage).

(** *** The blob as the specification words it *)

(** A native word packed little-endian into 8 bytes. *)
Definition le_bytes (w : Z) : list Z :=
  (fun k => (w / 2 ^ (8 * Z.of_nat k)) mod 256) <$> seq 0 8.

(** Start of callback [i]'s region: [ModuleNum[0] + ... + ModuleNum[i]]. *)
Definition prefix (ModuleNum : list nat) (i : nat) : nat :=
  sum_list (take (S i) ModuleNum).

(** The words [pcs[prefix[i] .. prefix[i+1])]. *)
Definition pc_region (PCs : list Z) (ModuleNum : list nat) (i : nat)
  : list Z :=
  take (prefix ModuleNum (S i) - prefix ModuleNum i)
       (drop (prefix ModuleNum i) PCs).

Definition DivergenceCoverage_spec (UC_size : nat) (PCs : list Z)
    (ModuleNum : list nat) (OutputDiffVec : list Z) : list Z :=
  i ← seq 0 UC_size;
  match OutputDiffVec !! i with
  | Some r => if decide (r ≠ 0)
              then pc_region PCs ModuleNum i ≫= le_bytes
              else []
  | None => []
  end.

(** ** [ComputeMutationLen] *)

(** [Rand] is the generator passed by reference and [draw] its [Rand()].
    The failing [assert] is the result [None]. *)
Definition ComputeMutationLen {Random : Type} (draw : Random -> Z * Random)
    (MaxInputSize MaxMutationLen : Z) (Rand : Random)
  : option (Z * Random) :=
  if decide (MaxInputSize ≤ MaxMutationLen) then
    if decide (MaxInputSize = MaxMutationLen) then Some (MaxMutationLen, Rand)
    else
      let Result := MaxInputSize in
      let '(R, Rand) := draw Rand in
      let Result :=
        if decide (R mod 2 ^ 7 = 0) then wrap64 (Result + 1) else Result in
      let Result :=
        if decide (R mod 2 ^ 15 = 0)
        then wrap64 (Result + (10 + Result / 2)) else Result in
      Some (Z.min Result MaxMutationLen, Rand)
  else None.

(** ** [memcmp] and [LooseMemeq] *)

(** [memcmp(A, B, n)]: the difference of the first pair of bytes that differ
    among the first [n], or 0.  Reading past a buffer is undefined. *)
Fixpoint memcmp (A B : list Z) (n : nat) {struct n} : option Z :=
  match n with
  | O => Some 0
  | S n' =>
      match A, B with
      | a :: A', b :: B' =>
          if decide (a = b) then memcmp A' B' n' else Some (a - b)
      | _, _ => None
      end
  end.

(** [A + k] for a pointer into a buffer. *)
Definition advance (A : list Z) (k : Z) : list Z := drop (Z.to_nat k) A.

Definition LooseMemeq (A B : list Z) (Size : Z) : option bool :=
  let Limit := 64 in
  if decide (Size ≤ 64) then
    r ← memcmp A B (Z.to_nat Size); Some (bool_decide (r = 0))
  else
    r1 ← memcmp A B (Z.to_nat (Limit / 2));
    if decide (r1 = 0) then
      r2 ← memcmp (advance A (Size - Limit / 2))
                  (advance B (Size - Limit / 2)) (Z.to_nat (Limit / 2));
      Some (bool_decide (r2 = 0))
    else Some false.

(** [{Data, Data + Size}]: the unit made of the first [Size] bytes.  A range
    that runs past the buffer is undefined in the source; the model reads
    what the buffer holds. *)
Definition range (Data : list Z) (Size : Z) : list Z :=
  take (Z.to_nat Size) Data.

(** ** Options, observable events, outcomes *)

(** The members of [FuzzingOptions] that the loop reads. *)
Module FuzzingOptions.
Record t : Type := mk {
  Verbosity : Z;
  ErrorExitCode : Z;
  MaxNumberOfRuns : Z;
  RssLimitMb : Z;
  MutateDepth : Z;
  ReportSlowUnits : Z;
  TraceMalloc : Z;
  DifferentialMode : bool;
  DetectLeaks : bool;
  Shrink : bool;
  ReduceInputs : bool;
  ExperimentalLenControl : bool;
  OnlyASCII : bool;
  SaveArtifacts : bool;
  PrintNEW : bool;
  PrintFinalStats : bool;
  PrintCorpusStats : bool;
  PrintCoverage : bool;
  DumpCoverage : bool;
  OutputCorpus : string;
  ArtifactPrefix : string;
  ExactArtifactPath : string;
  ExitOnSrcPos : string;
  ExitOnItem : string
}.

(** [Options.DetectLeaks = false] *)
Definition clear_DetectLeaks (o : t) : t :=
  mk (Verbosity o) (ErrorExitCode o) (MaxNumberOfRuns o) (RssLimitMb o)
     (MutateDepth o) (ReportSlowUnits o) (TraceMalloc o)
     (DifferentialMode o) false (Shrink o) (ReduceInputs o)
     (ExperimentalLenControl o) (OnlyASCII o) (SaveArtifacts o)
     (PrintNEW o) (PrintFinalStats o) (PrintCorpusStats o)
     (PrintCoverage o) (DumpCoverage o) (OutputCorpus o)
     (ArtifactPrefix o) (ExactArtifactPath o) (ExitOnSrcPos o)
     (ExitOnItem o).
End FuzzingOptions.

(** What the process lets the outside see, oldest first.  [Printf] is
    recorded by its format string. *)
Inductive Event : Type :=
| EvPrintf (fmt : string)
| EvPrintStackTrace
| EvPrintMutationSequence
| EvPrintHexArray (bytes : list Z)
| EvPrintASCII (bytes : list Z)
| EvWriteToFile (U : list Z) (Path : string)
| EvPrintStats (Where : string)
| EvTPCPrintCoverage
| EvTPCDumpCoverage
| EvTPCPrintNewPCs
| EvCorpusPrintStats
| EvLogSave (file : string) (fields : list Z)
| EvSMRWriteByteArray (bytes : list Z).

Inductive FaultKind : Type :=
| AssertionFailed     (* a failing [assert] *)
| Undefined           (* out-of-bounds access, null dereference *)
| TargetDied          (* the callback did not return *)
| OutOfFuel.          (* the bound given to an unbounded loop was reached *)

Inductive Outcome (S A : Type) : Type :=
| Ret (a : A) (s : S)
| Exit (code : Z) (s : S)
| Fault (why : FaultKind).
Arguments Ret {S A} a s.
Arguments Exit {S A} code s.
Arguments Fault {S A} why.

(** [MallocFreeTracer] *)
Record MallocFreeTracer : Type := mkTracer {
  Mallocs : Z;
  Frees : Z;
  TraceLevel : Z
}.

(** A [const uint8_t *Data] argument: the driver's own [CurrentUnitData]
    buffer, or some other buffer with the given content. *)
Inductive DataPtr : Type :=
| CurrentUnitDataPtr
| BufferPtr (bytes : list Z).


(** ** The collaborators of the loop

    [TracePC], [InputCorpus], [MutationDispatcher], the sanitizer runtime and
    the targets are declared in other files.  Their states are opaque types
    and their operations are the fields of [Externals]; the members of
    [TracePC] that the loop reads and writes itself are fields of records. *)

Section Model.

Context {TPC_t Corpus_t MD_t RT_t UserCallback : Type}.

(** The members of [TracePC] that change while targets run. *)
Record TracePC : Type := mkTracePC {
  OutputDiffVec : list Z;   (* return codes of the callbacks *)
  PCs : list Z;             (* the table behind [PCs()] *)
  Internal : TPC_t          (* maps, counters, histories *)
}.

Definition set_OutputDiffVec (f : list Z -> list Z) (t : TracePC)
  : TracePC :=
  mkTracePC (f (OutputDiffVec t)) (PCs t) (Internal t).

(** What one completed run of a target leaves behind. *)
Record CBRun : Type := mkCBRun {
  cb_Res : Z;                 (* the value returned *)
  cb_DataCopy : list Z;       (* the heap copy after the run *)
  cb_TPC : TracePC;           (* coverage written by the instrumentation *)
  cb_RT : RT_t;
  cb_Mallocs : Z;             (* calls of [MallocHook] during the run *)
  cb_Frees : Z                (* calls of [FreeHook] during the run *)
}.

Record Externals : Type := mkExternals {
  (* FuzzerSHA1, FuzzerUtil, FuzzerIO *)
  ComputeSHA1 : list Z -> list Z;
  Sha1ToString : list Z -> string;
  Hash : list Z -> string;
  DirPlusFile : string -> string -> string;
  IsASCII : list Z -> bool;
  (* ExternalFunctions *)
  EF_print_stack_trace : bool;  (* the hook is present *)
  EF_lsan : bool;  (* the lsan test of [TryDetectingAMemoryLeak] passes *)
  lsan_disable : RT_t -> RT_t;
  lsan_enable : RT_t -> RT_t;
  lsan_do_recoverable_leak_check : RT_t -> Z * RT_t;
  (* the clock *)
  system_clock_now : RT_t -> Z * RT_t;
  ticks_per_second : Z;
  secondsSinceProcessStartUp : RT_t -> Z;
  (* the targets; [None] when the process dies inside the target *)
  RunCallback :
    UserCallback -> list Z -> Z -> TracePC -> RT_t -> option CBRun;
  (* TracePC *)
  TPC_ResetMaps : TracePC -> TracePC;
  TPC_ResetCoverage : TracePC -> TracePC;
  TPC_GetTotalPCCoverage : TracePC -> Z;
  TPC_CollectFeatures : TracePC -> list Z * TracePC;
  TPC_NewOutputDiff_change : TracePC -> bool * TracePC;
  TPC_NewTraceDiff : list Z -> TracePC -> bool * TracePC;
  TPC_GetPC : Z -> TracePC -> Z;
  DescribePC_finds : string -> Z -> bool;
  (* InputCorpus; an [InputInfo] is named by its index *)
  Corpus_NumFeatureUpdates : Corpus_t -> Z;
  Corpus_AddFeature : Z -> Z -> bool -> Corpus_t -> Corpus_t;
  Corpus_AddToCorpus : list Z -> Z -> bool -> list Z -> Corpus_t -> Corpus_t;
  Corpus_TryToReplace :
    nat -> list Z -> Z -> list Z -> Corpus_t -> bool * Corpus_t;
  Corpus_HasUnit : string -> Corpus_t -> bool;
  Corpus_ChooseUnitToMutate : Corpus_t -> MD_t -> nat * Corpus_t * MD_t;
  Corpus_MaxInputSize : Corpus_t -> Z;
  II_U : nat -> Corpus_t -> list Z;
  II_Sha1 : nat -> Corpus_t -> list Z;
  II_NumExecutedMutations_incr : nat -> Corpus_t -> Corpus_t;
  II_NumSuccessfullMutations_incr : nat -> Corpus_t -> Corpus_t;
  (* MutationDispatcher; [MD_Mutate] returns the buffer and [NewSize] *)
  MD_StartMutationSequence : MD_t -> MD_t;
  MD_Mutate : list Z -> Z -> Z -> MD_t -> list Z * Z * MD_t;
  MD_Rand : MD_t -> Z * MD_t;
  MD_RecordSuccessfulMutationSequence : MD_t -> MD_t
}.

Variable E : Externals.

(** ** The members of [Fuzzer] *)

Record Fuzzer : Type := mkFuzzer {
  Options : FuzzingOptions.t;
  CB : UserCallback;  (* the callback under execution *)
  TPC : TracePC;
  UC_size : Z;  (* [TPC.UC->size], an [int] *)
  UC_callbacks : list UserCallback;  (* [TPC.UC->callbacks] *)
  ModuleNum : list nat;  (* [TPC.ModuleNum] *)
  NumPCs : nat;  (* [TPC.GetNumPCs()] *)
  Corpus : Corpus_t;
  MD : MD_t;
  RT : RT_t;
  SMR_IsClient : bool;  (* [SMR.IsClient()] of the global shared-memory region *)
  CurrentUnitData : option (list Z);  (* [None] is the null pointer *)
  CurrentUnitSize : Z;
  BaseSha1 : list Z;
  MaxInputLen : Z;
  MaxMutationLen : Z;
  TotalNumberOfRuns : Z;
  NumberOfNewUnitsAdded : Z;
  NumberOfDiffUnitsAdded : Z;
  NumberOfDuplicate : Z;
  Duplicate : Z;
  NumberofValidCases : Z;
  NumberOfLeakDetectionAttempts : Z;
  TimeOfLongestUnitInSeconds : Z;
  UnitHadOutputDiff : bool;
  RunningCB : bool;
  HasMoreMallocsThanFrees : bool;
  UnitStartTime : Z;
  UnitStopTime : Z;
  FeatureSetTmp : list Z;
  hashMap : gmap (list Z) bool;  (* keyed by the 20 raw digest bytes *)
  CoverageHash : gmap string bool;  (* keyed by the hexadecimal digest *)
  AllocTracer : MallocFreeTracer;
  PCsSet : gset Z;  (* the static set of [CheckExitOnSrcPosOrItem] *)
  LiveDataCopies : nat;  (* [DataCopy] buffers allocated and not yet deleted *)
  Out : list Event  (* events, oldest first *)
}.

(** Member updates, one per member that the loop assigns: [set_X f s] is
    [s] with [X := f (X s)].  The callback set, [ModuleNum] and the
    number of PCs are fixed at start-up. *)
Definition set_Options (f : FuzzingOptions.t -> FuzzingOptions.t) (s : Fuzzer)
  : Fuzzer :=
  mkFuzzer (f (Options s)) (CB s) (TPC s) (UC_size s) (UC_callbacks s)
    (ModuleNum s) (NumPCs s) (Corpus s) (MD s) (RT s) (SMR_IsClient s)
    (CurrentUnitData s) (CurrentUnitSize s) (BaseSha1 s) (MaxInputLen s)
    (MaxMutationLen s) (TotalNumberOfRuns s) (NumberOfNewUnitsAdded s)
    (NumberOfDiffUnitsAdded s) (NumberOfDuplicate s) (Duplicate s)
    (NumberofValidCases s) (NumberOfLeakDetectionAttempts s)
    (TimeOfLongestUnitInSeconds s) (UnitHadOutputDiff s) (RunningCB s)
    (HasMoreMallocsThanFrees s) (UnitStartTime s) (UnitStopTime s)
    (FeatureSetTmp s) (hashMap s) (CoverageHash s) (AllocTracer s)
    (PCsSet s) (LiveDataCopies s) (Out s).
Definition set_CB (f : UserCallback -> UserCallback) (s : Fuzzer)
  : Fuzzer :=
  mkFuzzer (Options s) (f (CB s)) (TPC s) (UC_size s) (UC_callbacks s)
    (ModuleNum s) (NumPCs s) (Corpus s) (MD s) (RT s) (SMR_IsClient s)
    (CurrentUnitData s) (CurrentUnitSize s) (BaseSha1 s) (MaxInputLen s)
    (MaxMutationLen s) (TotalNumberOfRuns s) (NumberOfNewUnitsAdded s)
    (NumberOfDiffUnitsAdded s) (NumberOfDuplicate s) (Duplicate s)
    (NumberofValidCases s) (NumberOfLeakDetectionAttempts s)
    (TimeOfLongestUnitInSeconds s) (UnitHadOutputDiff s) (RunningCB s)
    (HasMoreMallocsThanFrees s) (UnitStartTime s) (UnitStopTime s)
    (FeatureSetTmp s) (hashMap s) (CoverageHash s) (AllocTracer s)
    (PCsSet s) (LiveDataCopies s) (Out s).
Definition set_TPC (f : TracePC -> TracePC) (s : Fuzzer)
  : Fuzzer :=
  mkFuzzer (Options s) (CB s) (f (TPC s)) (UC_size s) (UC_callbacks s)
    (ModuleNum s) (NumPCs s) (Corpus s) (MD s) (RT s) (SMR_IsClient s)
    (CurrentUnitData s) (CurrentUnitSize s) (BaseSha1 s) (MaxInputLen s)
    (MaxMutationLen s) (TotalNumberOfRuns s) (NumberOfNewUnitsAdded s)
    (NumberOfDiffUnitsAdded s) (NumberOfDuplicate s) (Duplicate s)
    (NumberofValidCases s) (NumberOfLeakDetectionAttempts s)
    (TimeOfLongestUnitInSeconds s) (UnitHadOutputDiff s) (RunningCB s)
    (HasMoreMallocsThanFrees s) (UnitStartTime s) (UnitStopTime s)
    (FeatureSetTmp s) (hashMap s) (CoverageHash s) (AllocTracer s)
    (PCsSet s) (LiveDataCopies s) (Out s).
Definition set_Corpus (f : Corpus_t -> Corpus_t) (s : Fuzzer)
  : Fuzzer :=
  mkFuzzer (Options s) (CB s) (TPC s) (UC_size s) (UC_callbacks s)
    (ModuleNum s) (NumPCs s) (f (Corpus s)) (MD s) (RT s) (SMR_IsClient s)
    (CurrentUnitData s) (CurrentUnitSize s) (BaseSha1 s) (MaxInputLen s)
    (MaxMutationLen s) (TotalNumberOfRuns s) (NumberOfNewUnitsAdded s)
    (NumberOfDiffUnitsAdded s) (NumberOfDuplicate s) (Duplicate s)
    (NumberofValidCases s) (NumberOfLeakDetectionAttempts s)
    (TimeOfLongestUnitInSeconds s) (UnitHadOutputDiff s) (RunningCB s)
    (HasMoreMallocsThanFrees s) (UnitStartTime s) (UnitStopTime s)
    (FeatureSetTmp s) (hashMap s) (CoverageHash s) (AllocTracer s)
    (PCsSet s) (LiveDataCopies s) (Out s).
Definition set_MD (f : MD_t -> MD_t) (s : Fuzzer)
  : Fuzzer :=
  mkFuzzer (Options s) (CB s) (TPC s) (UC_size s) (UC_callbacks s)
    (ModuleNum s) (NumPCs s) (Corpus s) (f (MD s)) (RT s) (SMR_IsClient s)
    (CurrentUnitData s) (CurrentUnitSize s) (BaseSha1 s) (MaxInputLen s)
    (MaxMutationLen s) (TotalNumberOfRuns s) (NumberOfNewUnitsAdded s)
    (NumberOfDiffUnitsAdded s) (NumberOfDuplicate s) (Duplicate s)
    (NumberofValidCases s) (NumberOfLeakDetectionAttempts s)
    (TimeOfLongestUnitInSeconds s) (UnitHadOutputDiff s) (RunningCB s)
    (HasMoreMallocsThanFrees s) (UnitStartTime s) (UnitStopTime s)
    (FeatureSetTmp s) (hashMap s) (CoverageHash s) (AllocTracer s)
    (PCsSet s) (LiveDataCopies s) (Out s).
Definition set_RT (f : RT_t -> RT_t) (s : Fuzzer)
  : Fuzzer :=
  mkFuzzer (Options s) (CB s) (TPC s) (UC_size s) (UC_callbacks s)
    (ModuleNum s) (NumPCs s) (Corpus s) (MD s) (f (RT s)) (SMR_IsClient s)
    (CurrentUnitData s) (CurrentUnitSize s) (BaseSha1 s) (MaxInputLen s)
    (MaxMutationLen s) (TotalNumberOfRuns s) (NumberOfNewUnitsAdded s)
    (NumberOfDiffUnitsAdded s) (NumberOfDuplicate s) (Duplicate s)
    (NumberofValidCases s) (NumberOfLeakDetectionAttempts s)
    (TimeOfLongestUnitInSeconds s) (UnitHadOutputDiff s) (RunningCB s)
    (HasMoreMallocsThanFrees s) (UnitStartTime s) (UnitStopTime s)
    (FeatureSetTmp s) (hashMap s) (CoverageHash s) (AllocTracer s)
    (PCsSet s) (LiveDataCopies s) (Out s).
Definition set_SMR_IsClient (f : bool -> bool) (s : Fuzzer)
  : Fuzzer :=
  mkFuzzer (Options s) (CB s) (TPC s) (UC_size s) (UC_callbacks s)
    (ModuleNum s) (NumPCs s) (Corpus s) (MD s) (RT s) (f (SMR_IsClient s))
    (CurrentUnitData s) (CurrentUnitSize s) (BaseSha1 s) (MaxInputLen s)
    (MaxMutationLen s) (TotalNumberOfRuns s) (NumberOfNewUnitsAdded s)
    (NumberOfDiffUnitsAdded s) (NumberOfDuplicate s) (Duplicate s)
    (NumberofValidCases s) (NumberOfLeakDetectionAttempts s)
    (TimeOfLongestUnitInSeconds s) (UnitHadOutputDiff s) (RunningCB s)
    (HasMoreMallocsThanFrees s) (UnitStartTime s) (UnitStopTime s)
    (FeatureSetTmp s) (hashMap s) (CoverageHash s) (AllocTracer s)
    (PCsSet s) (LiveDataCopies s) (Out s).
Definition set_CurrentUnitData (f : option (list Z) -> option (list Z)) (s : Fuzzer)
  : Fuzzer :=
  mkFuzzer (Options s) (CB s) (TPC s) (UC_size s) (UC_callbacks s)
    (ModuleNum s) (NumPCs s) (Corpus s) (MD s) (RT s) (SMR_IsClient s)
    (f (CurrentUnitData s)) (CurrentUnitSize s) (BaseSha1 s) (MaxInputLen s)
    (MaxMutationLen s) (TotalNumberOfRuns s) (NumberOfNewUnitsAdded s)
    (NumberOfDiffUnitsAdded s) (NumberOfDuplicate s) (Duplicate s)
    (NumberofValidCases s) (NumberOfLeakDetectionAttempts s)
    (TimeOfLongestUnitInSeconds s) (UnitHadOutputDiff s) (RunningCB s)
    (HasMoreMallocsThanFrees s) (UnitStartTime s) (UnitStopTime s)
    (FeatureSetTmp s) (hashMap s) (CoverageHash s) (AllocTracer s)
    (PCsSet s) (LiveDataCopies s) (Out s).
Definition set_CurrentUnitSize (f : Z -> Z) (s : Fuzzer)
  : Fuzzer :=
  mkFuzzer (Options s) (CB s) (TPC s) (UC_size s) (UC_callbacks s)
    (ModuleNum s) (NumPCs s) (Corpus s) (MD s) (RT s) (SMR_IsClient s)
    (CurrentUnitData s) (f (CurrentUnitSize s)) (BaseSha1 s) (MaxInputLen s)
    (MaxMutationLen s) (TotalNumberOfRuns s) (NumberOfNewUnitsAdded s)
    (NumberOfDiffUnitsAdded s) (NumberOfDuplicate s) (Duplicate s)
    (NumberofValidCases s) (NumberOfLeakDetectionAttempts s)
    (TimeOfLongestUnitInSeconds s) (UnitHadOutputDiff s) (RunningCB s)
    (HasMoreMallocsThanFrees s) (UnitStartTime s) (UnitStopTime s)
    (FeatureSetTmp s) (hashMap s) (CoverageHash s) (AllocTracer s)
    (PCsSet s) (LiveDataCopies s) (Out s).
Definition set_BaseSha1 (f : list Z -> list Z) (s : Fuzzer)
  : Fuzzer :=
  mkFuzzer (Options s) (CB s) (TPC s) (UC_size s) (UC_callbacks s)
    (ModuleNum s) (NumPCs s) (Corpus s) (MD s) (RT s) (SMR_IsClient s)
    (CurrentUnitData s) (CurrentUnitSize s) (f (BaseSha1 s)) (MaxInputLen s)
    (MaxMutationLen s) (TotalNumberOfRuns s) (NumberOfNewUnitsAdded s)
    (NumberOfDiffUnitsAdded s) (NumberOfDuplicate s) (Duplicate s)
    (NumberofValidCases s) (NumberOfLeakDetectionAttempts s)
    (TimeOfLongestUnitInSeconds s) (UnitHadOutputDiff s) (RunningCB s)
    (HasMoreMallocsThanFrees s) (UnitStartTime s) (UnitStopTime s)
    (FeatureSetTmp s) (hashMap s) (CoverageHash s) (AllocTracer s)
    (PCsSet s) (LiveDataCopies s) (Out s).
Definition set_MaxInputLen (f : Z -> Z) (s : Fuzzer)
  : Fuzzer :=
  mkFuzzer (Options s) (CB s) (TPC s) (UC_size s) (UC_callbacks s)
    (ModuleNum s) (NumPCs s) (Corpus s) (MD s) (RT s) (SMR_IsClient s)
    (CurrentUnitData s) (CurrentUnitSize s) (BaseSha1 s) (f (MaxInputLen s))
    (MaxMutationLen s) (TotalNumberOfRuns s) (NumberOfNewUnitsAdded s)
    (NumberOfDiffUnitsAdded s) (NumberOfDuplicate s) (Duplicate s)
    (NumberofValidCases s) (NumberOfLeakDetectionAttempts s)
    (TimeOfLongestUnitInSeconds s) (UnitHadOutputDiff s) (RunningCB s)
    (HasMoreMallocsThanFrees s) (UnitStartTime s) (UnitStopTime s)
    (FeatureSetTmp s) (hashMap s) (CoverageHash s) (AllocTracer s)
    (PCsSet s) (LiveDataCopies s) (Out s).
Definition set_MaxMutationLen (f : Z -> Z) (s : Fuzzer)
  : Fuzzer :=
  mkFuzzer (Options s) (CB s) (TPC s) (UC_size s) (UC_callbacks s)
    (ModuleNum s) (NumPCs s) (Corpus s) (MD s) (RT s) (SMR_IsClient s)
    (CurrentUnitData s) (CurrentUnitSize s) (BaseSha1 s) (MaxInputLen s)
    (f (MaxMutationLen s)) (TotalNumberOfRuns s) (NumberOfNewUnitsAdded s)
    (NumberOfDiffUnitsAdded s) (NumberOfDuplicate s) (Duplicate s)
    (NumberofValidCases s) (NumberOfLeakDetectionAttempts s)
    (TimeOfLongestUnitInSeconds s) (UnitHadOutputDiff s) (RunningCB s)
    (HasMoreMallocsThanFrees s) (UnitStartTime s) (UnitStopTime s)
    (FeatureSetTmp s) (hashMap s) (CoverageHash s) (AllocTracer s)
    (PCsSet s) (LiveDataCopies s) (Out s).
Definition set_TotalNumberOfRuns (f : Z -> Z) (s : Fuzzer)
  : Fuzzer :=
  mkFuzzer (Options s) (CB s) (TPC s) (UC_size s) (UC_callbacks s)
    (ModuleNum s) (NumPCs s) (Corpus s) (MD s) (RT s) (SMR_IsClient s)
    (CurrentUnitData s) (CurrentUnitSize s) (BaseSha1 s) (MaxInputLen s)
    (MaxMutationLen s) (f (TotalNumberOfRuns s)) (NumberOfNewUnitsAdded s)
    (NumberOfDiffUnitsAdded s) (NumberOfDuplicate s) (Duplicate s)
    (NumberofValidCases s) (NumberOfLeakDetectionAttempts s)
    (TimeOfLongestUnitInSeconds s) (UnitHadOutputDiff s) (RunningCB s)
    (HasMoreMallocsThanFrees s) (UnitStartTime s) (UnitStopTime s)
    (FeatureSetTmp s) (hashMap s) (CoverageHash s) (AllocTracer s)
    (PCsSet s) (LiveDataCopies s) (Out s).
Definition set_NumberOfNewUnitsAdded (f : Z -> Z) (s : Fuzzer)
  : Fuzzer :=
  mkFuzzer (Options s) (CB s) (TPC s) (UC_size s) (UC_callbacks s)
    (ModuleNum s) (NumPCs s) (Corpus s) (MD s) (RT s) (SMR_IsClient s)
    (CurrentUnitData s) (CurrentUnitSize s) (BaseSha1 s) (MaxInputLen s)
    (MaxMutationLen s) (TotalNumberOfRuns s) (f (NumberOfNewUnitsAdded s))
    (NumberOfDiffUnitsAdded s) (NumberOfDuplicate s) (Duplicate s)
    (NumberofValidCases s) (NumberOfLeakDetectionAttempts s)
    (TimeOfLongestUnitInSeconds s) (UnitHadOutputDiff s) (RunningCB s)
    (HasMoreMallocsThanFrees s) (UnitStartTime s) (UnitStopTime s)
    (FeatureSetTmp s) (hashMap s) (CoverageHash s) (AllocTracer s)
    (PCsSet s) (LiveDataCopies s) (Out s).
Definition set_NumberOfDiffUnitsAdded (f : Z -> Z) (s : Fuzzer)
  : Fuzzer :=
  mkFuzzer (Options s) (CB s) (TPC s) (UC_size s) (UC_callbacks s)
    (ModuleNum s) (NumPCs s) (Corpus s) (MD s) (RT s) (SMR_IsClient s)
    (CurrentUnitData s) (CurrentUnitSize s) (BaseSha1 s) (MaxInputLen s)
    (MaxMutationLen s) (TotalNumberOfRuns s) (NumberOfNewUnitsAdded s)
    (f (NumberOfDiffUnitsAdded s)) (NumberOfDuplicate s) (Duplicate s)
    (NumberofValidCases s) (NumberOfLeakDetectionAttempts s)
    (TimeOfLongestUnitInSeconds s) (UnitHadOutputDiff s) (RunningCB s)
    (HasMoreMallocsThanFrees s) (UnitStartTime s) (UnitStopTime s)
    (FeatureSetTmp s) (hashMap s) (CoverageHash s) (AllocTracer s)
    (PCsSet s) (LiveDataCopies s) (Out s).
Definition set_NumberOfDuplicate (f : Z -> Z) (s : Fuzzer)
  : Fuzzer :=
  mkFuzzer (Options s) (CB s) (TPC s) (UC_size s) (UC_callbacks s)
    (ModuleNum s) (NumPCs s) (Corpus s) (MD s) (RT s) (SMR_IsClient s)
    (CurrentUnitData s) (CurrentUnitSize s) (BaseSha1 s) (MaxInputLen s)
    (MaxMutationLen s) (TotalNumberOfRuns s) (NumberOfNewUnitsAdded s)
    (NumberOfDiffUnitsAdded s) (f (NumberOfDuplicate s)) (Duplicate s)
    (NumberofValidCases s) (NumberOfLeakDetectionAttempts s)
    (TimeOfLongestUnitInSeconds s) (UnitHadOutputDiff s) (RunningCB s)
    (HasMoreMallocsThanFrees s) (UnitStartTime s) (UnitStopTime s)
    (FeatureSetTmp s) (hashMap s) (CoverageHash s) (AllocTracer s)
    (PCsSet s) (LiveDataCopies s) (Out s).
Definition set_Duplicate (f : Z -> Z) (s : Fuzzer)
  : Fuzzer :=
  mkFuzzer (Options s) (CB s) (TPC s) (UC_size s) (UC_callbacks s)
    (ModuleNum s) (NumPCs s) (Corpus s) (MD s) (RT s) (SMR_IsClient s)
    (CurrentUnitData s) (CurrentUnitSize s) (BaseSha1 s) (MaxInputLen s)
    (MaxMutationLen s) (TotalNumberOfRuns s) (NumberOfNewUnitsAdded s)
    (NumberOfDiffUnitsAdded s) (NumberOfDuplicate s) (f (Duplicate s))
    (NumberofValidCases s) (NumberOfLeakDetectionAttempts s)
    (TimeOfLongestUnitInSeconds s) (UnitHadOutputDiff s) (RunningCB s)
    (HasMoreMallocsThanFrees s) (UnitStartTime s) (UnitStopTime s)
    (FeatureSetTmp s) (hashMap s) (CoverageHash s) (AllocTracer s)
    (PCsSet s) (LiveDataCopies s) (Out s).
Definition set_NumberofValidCases (f : Z -> Z) (s : Fuzzer)
  : Fuzzer :=
  mkFuzzer (Options s) (CB s) (TPC s) (UC_size s) (UC_callbacks s)
    (ModuleNum s) (NumPCs s) (Corpus s) (MD s) (RT s) (SMR_IsClient s)
    (CurrentUnitData s) (CurrentUnitSize s) (BaseSha1 s) (MaxInputLen s)
    (MaxMutationLen s) (TotalNumberOfRuns s) (NumberOfNewUnitsAdded s)
    (NumberOfDiffUnitsAdded s) (NumberOfDuplicate s) (Duplicate s)
    (f (NumberofValidCases s)) (NumberOfLeakDetectionAttempts s)
    (TimeOfLongestUnitInSeconds s) (UnitHadOutputDiff s) (RunningCB s)
    (HasMoreMallocsThanFrees s) (UnitStartTime s) (UnitStopTime s)
    (FeatureSetTmp s) (hashMap s) (CoverageHash s) (AllocTracer s)
    (PCsSet s) (LiveDataCopies s) (Out s).
Definition set_NumberOfLeakDetectionAttempts (f : Z -> Z) (s : Fuzzer)
  : Fuzzer :=
  mkFuzzer (Options s) (CB s) (TPC s) (UC_size s) (UC_callbacks s)
    (ModuleNum s) (NumPCs s) (Corpus s) (MD s) (RT s) (SMR_IsClient s)
    (CurrentUnitData s) (CurrentUnitSize s) (BaseSha1 s) (MaxInputLen s)
    (MaxMutationLen s) (TotalNumberOfRuns s) (NumberOfNewUnitsAdded s)
    (NumberOfDiffUnitsAdded s) (NumberOfDuplicate s) (Duplicate s)
    (NumberofValidCases s) (f (NumberOfLeakDetectionAttempts s))
    (TimeOfLongestUnitInSeconds s) (UnitHadOutputDiff s) (RunningCB s)
    (HasMoreMallocsThanFrees s) (UnitStartTime s) (UnitStopTime s)
    (FeatureSetTmp s) (hashMap s) (CoverageHash s) (AllocTracer s)
    (PCsSet s) (LiveDataCopies s) (Out s).
Definition set_TimeOfLongestUnitInSeconds (f : Z -> Z) (s : Fuzzer)
  : Fuzzer :=
  mkFuzzer (Options s) (CB s) (TPC s) (UC_size s) (UC_callbacks s)
    (ModuleNum s) (NumPCs s) (Corpus s) (MD s) (RT s) (SMR_IsClient s)
    (CurrentUnitData s) (CurrentUnitSize s) (BaseSha1 s) (MaxInputLen s)
    (MaxMutationLen s) (TotalNumberOfRuns s) (NumberOfNewUnitsAdded s)
    (NumberOfDiffUnitsAdded s) (NumberOfDuplicate s) (Duplicate s)
    (NumberofValidCases s) (NumberOfLeakDetectionAttempts s)
    (f (TimeOfLongestUnitInSeconds s)) (UnitHadOutputDiff s) (RunningCB s)
    (HasMoreMallocsThanFrees s) (UnitStartTime s) (UnitStopTime s)
    (FeatureSetTmp s) (hashMap s) (CoverageHash s) (AllocTracer s)
    (PCsSet s) (LiveDataCopies s) (Out s).
Definition set_UnitHadOutputDiff (f : bool -> bool) (s : Fuzzer)
  : Fuzzer :=
  mkFuzzer (Options s) (CB s) (TPC s) (UC_size s) (UC_callbacks s)
    (ModuleNum s) (NumPCs s) (Corpus s) (MD s) (RT s) (SMR_IsClient s)
    (CurrentUnitData s) (CurrentUnitSize s) (BaseSha1 s) (MaxInputLen s)
    (MaxMutationLen s) (TotalNumberOfRuns s) (NumberOfNewUnitsAdded s)
    (NumberOfDiffUnitsAdded s) (NumberOfDuplicate s) (Duplicate s)
    (NumberofValidCases s) (NumberOfLeakDetectionAttempts s)
    (TimeOfLongestUnitInSeconds s) (f (UnitHadOutputDiff s)) (RunningCB s)
    (HasMoreMallocsThanFrees s) (UnitStartTime s) (UnitStopTime s)
    (FeatureSetTmp s) (hashMap s) (CoverageHash s) (AllocTracer s)
    (PCsSet s) (LiveDataCopies s) (Out s).
Definition set_RunningCB (f : bool -> bool) (s : Fuzzer)
  : Fuzzer :=
  mkFuzzer (Options s) (CB s) (TPC s) (UC_size s) (UC_callbacks s)
    (ModuleNum s) (NumPCs s) (Corpus s) (MD s) (RT s) (SMR_IsClient s)
    (CurrentUnitData s) (CurrentUnitSize s) (BaseSha1 s) (MaxInputLen s)
    (MaxMutationLen s) (TotalNumberOfRuns s) (NumberOfNewUnitsAdded s)
    (NumberOfDiffUnitsAdded s) (NumberOfDuplicate s) (Duplicate s)
    (NumberofValidCases s) (NumberOfLeakDetectionAttempts s)
    (TimeOfLongestUnitInSeconds s) (UnitHadOutputDiff s) (f (RunningCB s))
    (HasMoreMallocsThanFrees s) (UnitStartTime s) (UnitStopTime s)
    (FeatureSetTmp s) (hashMap s) (CoverageHash s) (AllocTracer s)
    (PCsSet s) (LiveDataCopies s) (Out s).
Definition set_HasMoreMallocsThanFrees (f : bool -> bool) (s : Fuzzer)
  : Fuzzer :=
  mkFuzzer (Options s) (CB s) (TPC s) (UC_size s) (UC_callbacks s)
    (ModuleNum s) (NumPCs s) (Corpus s) (MD s) (RT s) (SMR_IsClient s)
    (CurrentUnitData s) (CurrentUnitSize s) (BaseSha1 s) (MaxInputLen s)
    (MaxMutationLen s) (TotalNumberOfRuns s) (NumberOfNewUnitsAdded s)
    (NumberOfDiffUnitsAdded s) (NumberOfDuplicate s) (Duplicate s)
    (NumberofValidCases s) (NumberOfLeakDetectionAttempts s)
    (TimeOfLongestUnitInSeconds s) (UnitHadOutputDiff s) (RunningCB s)
    (f (HasMoreMallocsThanFrees s)) (UnitStartTime s) (UnitStopTime s)
    (FeatureSetTmp s) (hashMap s) (CoverageHash s) (AllocTracer s)
    (PCsSet s) (LiveDataCopies s) (Out s).
Definition set_UnitStartTime (f : Z -> Z) (s : Fuzzer)
  : Fuzzer :=
  mkFuzzer (Options s) (CB s) (TPC s) (UC_size s) (UC_callbacks s)
    (ModuleNum s) (NumPCs s) (Corpus s) (MD s) (RT s) (SMR_IsClient s)
    (CurrentUnitData s) (CurrentUnitSize s) (BaseSha1 s) (MaxInputLen s)
    (MaxMutationLen s) (TotalNumberOfRuns s) (NumberOfNewUnitsAdded s)
    (NumberOfDiffUnitsAdded s) (NumberOfDuplicate s) (Duplicate s)
    (NumberofValidCases s) (NumberOfLeakDetectionAttempts s)
    (TimeOfLongestUnitInSeconds s) (UnitHadOutputDiff s) (RunningCB s)
    (HasMoreMallocsThanFrees s) (f (UnitStartTime s)) (UnitStopTime s)
    (FeatureSetTmp s) (hashMap s) (CoverageHash s) (AllocTracer s)
    (PCsSet s) (LiveDataCopies s) (Out s).
Definition set_UnitStopTime (f : Z -> Z) (s : Fuzzer)
  : Fuzzer :=
  mkFuzzer (Options s) (CB s) (TPC s) (UC_size s) (UC_callbacks s)
    (ModuleNum s) (NumPCs s) (Corpus s) (MD s) (RT s) (SMR_IsClient s)
    (CurrentUnitData s) (CurrentUnitSize s) (BaseSha1 s) (MaxInputLen s)
    (MaxMutationLen s) (TotalNumberOfRuns s) (NumberOfNewUnitsAdded s)
    (NumberOfDiffUnitsAdded s) (NumberOfDuplicate s) (Duplicate s)
    (NumberofValidCases s) (NumberOfLeakDetectionAttempts s)
    (TimeOfLongestUnitInSeconds s) (UnitHadOutputDiff s) (RunningCB s)
    (HasMoreMallocsThanFrees s) (UnitStartTime s) (f (UnitStopTime s))
    (FeatureSetTmp s) (hashMap s) (CoverageHash s) (AllocTracer s)
    (PCsSet s) (LiveDataCopies s) (Out s).
Definition set_FeatureSetTmp (f : list Z -> list Z) (s : Fuzzer)
  : Fuzzer :=
  mkFuzzer (Options s) (CB s) (TPC s) (UC_size s) (UC_callbacks s)
    (ModuleNum s) (NumPCs s) (Corpus s) (MD s) (RT s) (SMR_IsClient s)
    (CurrentUnitData s) (CurrentUnitSize s) (BaseSha1 s) (MaxInputLen s)
    (MaxMutationLen s) (TotalNumberOfRuns s) (NumberOfNewUnitsAdded s)
    (NumberOfDiffUnitsAdded s) (NumberOfDuplicate s) (Duplicate s)
    (NumberofValidCases s) (NumberOfLeakDetectionAttempts s)
    (TimeOfLongestUnitInSeconds s) (UnitHadOutputDiff s) (RunningCB s)
    (HasMoreMallocsThanFrees s) (UnitStartTime s) (UnitStopTime s)
    (f (FeatureSetTmp s)) (hashMap s) (CoverageHash s) (AllocTracer s)
    (PCsSet s) (LiveDataCopies s) (Out s).
Definition set_hashMap (f : gmap (list Z) bool -> gmap (list Z) bool) (s : Fuzzer)
  : Fuzzer :=
  mkFuzzer (Options s) (CB s) (TPC s) (UC_size s) (UC_callbacks s)
    (ModuleNum s) (NumPCs s) (Corpus s) (MD s) (RT s) (SMR_IsClient s)
    (CurrentUnitData s) (CurrentUnitSize s) (BaseSha1 s) (MaxInputLen s)
    (MaxMutationLen s) (TotalNumberOfRuns s) (NumberOfNewUnitsAdded s)
    (NumberOfDiffUnitsAdded s) (NumberOfDuplicate s) (Duplicate s)
    (NumberofValidCases s) (NumberOfLeakDetectionAttempts s)
    (TimeOfLongestUnitInSeconds s) (UnitHadOutputDiff s) (RunningCB s)
    (HasMoreMallocsThanFrees s) (UnitStartTime s) (UnitStopTime s)
    (FeatureSetTmp s) (f (hashMap s)) (CoverageHash s) (AllocTracer s)
    (PCsSet s) (LiveDataCopies s) (Out s).
Definition set_CoverageHash (f : gmap string bool -> gmap string bool) (s : Fuzzer)
  : Fuzzer :=
  mkFuzzer (Options s) (CB s) (TPC s) (UC_size s) (UC_callbacks s)
    (ModuleNum s) (NumPCs s) (Corpus s) (MD s) (RT s) (SMR_IsClient s)
    (CurrentUnitData s) (CurrentUnitSize s) (BaseSha1 s) (MaxInputLen s)
    (MaxMutationLen s) (TotalNumberOfRuns s) (NumberOfNewUnitsAdded s)
    (NumberOfDiffUnitsAdded s) (NumberOfDuplicate s) (Duplicate s)
    (NumberofValidCases s) (NumberOfLeakDetectionAttempts s)
    (TimeOfLongestUnitInSeconds s) (UnitHadOutputDiff s) (RunningCB s)
    (HasMoreMallocsThanFrees s) (UnitStartTime s) (UnitStopTime s)
    (FeatureSetTmp s) (hashMap s) (f (CoverageHash s)) (AllocTracer s)
    (PCsSet s) (LiveDataCopies s) (Out s).
Definition set_AllocTracer (f : MallocFreeTracer -> MallocFreeTracer) (s : Fuzzer)
  : Fuzzer :=
  mkFuzzer (Options s) (CB s) (TPC s) (UC_size s) (UC_callbacks s)
    (ModuleNum s) (NumPCs s) (Corpus s) (MD s) (RT s) (SMR_IsClient s)
    (CurrentUnitData s) (CurrentUnitSize s) (BaseSha1 s) (MaxInputLen s)
    (MaxMutationLen s) (TotalNumberOfRuns s) (NumberOfNewUnitsAdded s)
    (NumberOfDiffUnitsAdded s) (NumberOfDuplicate s) (Duplicate s)
    (NumberofValidCases s) (NumberOfLeakDetectionAttempts s)
    (TimeOfLongestUnitInSeconds s) (UnitHadOutputDiff s) (RunningCB s)
    (HasMoreMallocsThanFrees s) (UnitStartTime s) (UnitStopTime s)
    (FeatureSetTmp s) (hashMap s) (CoverageHash s) (f (AllocTracer s))
    (PCsSet s) (LiveDataCopies s) (Out s).
Definition set_PCsSet (f : gset Z -> gset Z) (s : Fuzzer)
  : Fuzzer :=
  mkFuzzer (Options s) (CB s) (TPC s) (UC_size s) (UC_callbacks s)
    (ModuleNum s) (NumPCs s) (Corpus s) (MD s) (RT s) (SMR_IsClient s)
    (CurrentUnitData s) (CurrentUnitSize s) (BaseSha1 s) (MaxInputLen s)
    (MaxMutationLen s) (TotalNumberOfRuns s) (NumberOfNewUnitsAdded s)
    (NumberOfDiffUnitsAdded s) (NumberOfDuplicate s) (Duplicate s)
    (NumberofValidCases s) (NumberOfLeakDetectionAttempts s)
    (TimeOfLongestUnitInSeconds s) (UnitHadOutputDiff s) (RunningCB s)
    (HasMoreMallocsThanFrees s) (UnitStartTime s) (UnitStopTime s)
    (FeatureSetTmp s) (hashMap s) (CoverageHash s) (AllocTracer s)
    (f (PCsSet s)) (LiveDataCopies s) (Out s).
Definition set_LiveDataCopies (f : nat -> nat) (s : Fuzzer)
  : Fuzzer :=
  mkFuzzer (Options s) (CB s) (TPC s) (UC_size s) (UC_callbacks s)
    (ModuleNum s) (NumPCs s) (Corpus s) (MD s) (RT s) (SMR_IsClient s)
    (CurrentUnitData s) (CurrentUnitSize s) (BaseSha1 s) (MaxInputLen s)
    (MaxMutationLen s) (TotalNumberOfRuns s) (NumberOfNewUnitsAdded s)
    (NumberOfDiffUnitsAdded s) (NumberOfDuplicate s) (Duplicate s)
    (NumberofValidCases s) (NumberOfLeakDetectionAttempts s)
    (TimeOfLongestUnitInSeconds s) (UnitHadOutputDiff s) (RunningCB s)
    (HasMoreMallocsThanFrees s) (UnitStartTime s) (UnitStopTime s)
    (FeatureSetTmp s) (hashMap s) (CoverageHash s) (AllocTracer s)
    (PCsSet s) (f (LiveDataCopies s)) (Out s).
Definition set_Out (f : list Event -> list Event) (s : Fuzzer)
  : Fuzzer :=
  mkFuzzer (Options s) (CB s) (TPC s) (UC_size s) (UC_callbacks s)
    (ModuleNum s) (NumPCs s) (Corpus s) (MD s) (RT s) (SMR_IsClient s)
    (CurrentUnitData s) (CurrentUnitSize s) (BaseSha1 s) (MaxInputLen s)
    (MaxMutationLen s) (TotalNumberOfRuns s) (NumberOfNewUnitsAdded s)
    (NumberOfDiffUnitsAdded s) (NumberOfDuplicate s) (Duplicate s)
    (NumberofValidCases s) (NumberOfLeakDetectionAttempts s)
    (TimeOfLongestUnitInSeconds s) (UnitHadOutputDiff s) (RunningCB s)
    (HasMoreMallocsThanFrees s) (UnitStartTime s) (UnitStopTime s)
    (FeatureSetTmp s) (hashMap s) (CoverageHash s) (AllocTracer s)
    (PCsSet s) (LiveDataCopies s) (f (Out s)).

(** ** The monad of member functions *)

Definition M (A : Type) : Type := Fuzzer -> Outcome Fuzzer A.

#[global] Instance M_ret : MRet M := fun A a s => Ret a s.
#[global] Instance M_bind : MBind M := fun A B k m s =>
  match m s with
  | Ret a s' => k a s'
  | Exit code s' => Exit code s'
  | Fault why => Fault why
  end.

Definition gets {A : Type} (f : Fuzzer -> A) : M A := fun s => Ret (f s) s.
Definition modify (f : Fuzzer -> Fuzzer) : M unit := fun s => Ret tt (f s).
Definition fault {A : Type} (why : FaultKind) : M A := fun _ => Fault why.
Definition _Exit {A : Type} (code : Z) : M A := fun s => Exit code s.
Definition assert (b : bool) : M unit :=
  if b then mret tt else fault AssertionFailed.
Definition liftO {A : Type} (o : option A) : M A :=
  match o with Some a => mret a | None => fault Undefined end.
Definition when (b : bool) (m : M unit) : M unit :=
  if b then m else mret tt.
Definition emit (e : Event) : M unit :=
  modify (set_Out (fun o => o ++ [e])).
Definition Printf (fmt : string) : M unit := emit (EvPrintf fmt).

(** The bytes behind a [Data] pointer. *)
Definition deref (Data : DataPtr) : M (list Z) :=
  match Data with
  | BufferPtr bytes => mret bytes
  | CurrentUnitDataPtr => d ← gets CurrentUnitData; liftO d
  end.

Definition kMaxUnitSizeToPrint : Z := 256.

(** ** Member functions, in the order of the source *)

(** [MallocFreeTracer::Start] and [MallocFreeTracer::Stop] *)
Definition AllocTracer_Start (Level : Z) : M unit :=
  modify (set_AllocTracer (fun a => mkTracer (Mallocs a) (Frees a) Level));;
  when (bool_decide (Level ≠ 0)) (Printf "MallocFreeTracer: START\n");;
  modify (set_AllocTracer (fun a => mkTracer 0 0 (TraceLevel a))).

Definition AllocTracer_Stop : M bool :=
  a ← gets AllocTracer;
  when (bool_decide (TraceLevel a ≠ 0))
       (Printf "MallocFreeTracer: STOP %zd %zd (%s)\n");;
  let Result := bool_decide (Mallocs a > Frees a) in
  modify (set_AllocTracer (fun _ => mkTracer 0 0 0));;
  mret Result.

Definition PrintStats (Where : string) : M unit :=
  o ← gets Options;
  if decide (FuzzingOptions.Verbosity o = 0) then mret tt
  else emit (EvPrintStats Where).

Definition PrintFinalStats : M unit :=
  o ← gets Options;
  when (FuzzingOptions.PrintCoverage o) (emit EvTPCPrintCoverage);;
  when (FuzzingOptions.DumpCoverage o) (emit EvTPCDumpCoverage);;
  when (FuzzingOptions.PrintCorpusStats o) (emit EvCorpusPrintStats);;
  if negb (FuzzingOptions.PrintFinalStats o) then mret tt
  else
    Printf "stat::number_of_executed_units: %zd\n";;
    Printf "stat::average_exec_per_sec:     %zd\n";;
    Printf "stat::new_units_added:          %zd\n";;
    when (FuzzingOptions.DifferentialMode o)
         (Printf "stat::number_of_diffs:          %zd\n");;
    Printf "stat::slowest_unit_time_sec:    %zd\n";;
    Printf "stat::peak_rss_mb:              %zd\n";;
    Printf "stat::number_of_duplicates:	%zd\n";;
    Printf "stat::coverage:	%zd\n";;
    Printf "stat::Duplicate:	%zd\n".

Definition WriteUnitToFileWithPrefix (U : list Z) (Prefix : string)
  : M unit :=
  o ← gets Options;
  if negb (FuzzingOptions.SaveArtifacts o) then mret tt
  else
    let Path := FuzzingOptions.ArtifactPrefix o +:+ Prefix +:+ Hash E U in
    let Path :=
      if decide (FuzzingOptions.ExactArtifactPath o = "") then Path
      else FuzzingOptions.ExactArtifactPath o in
    emit (EvWriteToFile U Path);;
    Printf "artifact_prefix='%s'; Test unit written to %s\n";;
    when (bool_decide (Z.of_nat (length U) ≤ kMaxUnitSizeToPrint))
         (Printf "Base64: %s\n").

Definition DumpCurrentUnit (Prefix : string) : M unit :=
  d ← gets CurrentUnitData;
  match d with
  | None => mret tt   (* happens when running individual inputs *)
  | Some buf =>
      emit EvPrintMutationSequence;;
      Printf "; base unit: %s\n";;
      UnitSize ← gets CurrentUnitSize;
      when (bool_decide (UnitSize ≤ kMaxUnitSizeToPrint))
           (emit (EvPrintHexArray (range buf UnitSize));;
            emit (EvPrintASCII (range buf UnitSize)));;
      WriteUnitToFileWithPrefix (range buf UnitSize) Prefix
  end.

(** Crash on a single malloc that exceeds the rss limit. *)
Definition HandleMalloc (Size : Z) : M unit :=
  o ← gets Options;
  if decide (FuzzingOptions.RssLimitMb o = 0
             ∨ Z.shiftr Size 20 < wrap64 (FuzzingOptions.RssLimitMb o))
  then mret tt
  else
    Printf "==%d== ERROR: libFuzzer: out-of-memory (malloc(%zd))\n";;
    Printf "   To change the out-of-memory limit use -rss_limit_mb=<N>\n\n";;
    when (EF_print_stack_trace E) (emit EvPrintStackTrace);;
    DumpCurrentUnit "oom-";;
    Printf "SUMMARY: libFuzzer: out-of-memory\n";;
    PrintFinalStats;;
    _Exit (FuzzingOptions.ErrorExitCode o).

Definition print_trace (fmt : string) : M unit :=
  a ← gets AllocTracer;
  when (bool_decide (TraceLevel a ≠ 0))
       (Printf fmt;;
        if decide (TraceLevel a >= 2) then
          if EF_print_stack_trace E then emit EvPrintStackTrace
          else fault Undefined
        else mret tt).

Definition MallocHook (size : Z) : M unit :=
  modify (set_AllocTracer (fun a =>
    mkTracer (wrap64 (Mallocs a + 1)) (Frees a) (TraceLevel a)));;
  HandleMalloc size;;
  print_trace "MALLOC[%zd] %p %zd\n".

Definition FreeHook : M unit :=
  modify (set_AllocTracer (fun a =>
    mkTracer (Mallocs a) (wrap64 (Frees a + 1)) (TraceLevel a)));;
  print_trace "FREE[%zd]   %p\n".

(** The first loop of [DumpUnitIfDiff]. *)
Fixpoint scan_outputs (v : list Z) (has_zero has_nonzero : bool)
    (SS : string) : bool * bool * string :=
  match v with
  | [] => (has_zero, has_nonzero, SS)
  | r :: v' =>
      if decide (r = 0)
      then scan_outputs v' true has_nonzero (SS +:+ pretty r +:+ "_")
      else scan_outputs v' has_zero true (SS +:+ pretty r +:+ "_")
  end.

Definition incr (x : Z) : Z := wrap64 (x + 1).

Definition DumpUnitIfDiff (Data : DataPtr) (Size : Z) : M unit :=
  s ← gets id;
  let '(has_zero, has_nonzero, SS) :=
    scan_outputs (OutputDiffVec (TPC s)) false false "" in
  if has_zero && has_nonzero then
    let size := to_int (UC_size s) in
    Coverage ← liftO (DivergenceCoverage (Z.to_nat size) (NumPCs s)
                        (PCs (TPC s)) (ModuleNum s)
                        (OutputDiffVec (TPC s)));
    let tmp := Sha1ToString E (ComputeSHA1 E Coverage) in
    known ← gets CoverageHash;
    if decide (is_Some (known !! tmp)) then
      modify (set_Duplicate incr)
    else
      modify (set_CoverageHash <[tmp := true]>);;
      modify (set_UnitHadOutputDiff (fun _ => true));;
      modify (set_NumberOfDiffUnitsAdded incr);;
      data ← deref Data;
      WriteUnitToFileWithPrefix (range data Size) ("diff_" +:+ SS)
  else mret tt.

(** The loop [for (i = 1; i < N; i++)] of [CheckExitOnSrcPosOrItem]. *)
Fixpoint CheckExitOnSrcPos_loop (i : Z) (n : nat) : M unit :=
  match n with
  | O => mret tt
  | S n' =>
      tpc ← gets TPC;
      let PC := TPC_GetPC E i tpc in
      if decide (PC = 0) then CheckExitOnSrcPos_loop (i + 1) n'
      else
        seen ← gets PCsSet;
        if decide (PC ∈ seen) then CheckExitOnSrcPos_loop (i + 1) n'
        else
          modify (set_PCsSet (fun x => {[PC]} ∪ x));;
          o ← gets Options;
          if DescribePC_finds E (FuzzingOptions.ExitOnSrcPos o) PC then
            Printf "INFO: found line matching '%s', exiting.\n";;
            _Exit 0
          else CheckExitOnSrcPos_loop (i + 1) n'
  end.

Definition CheckExitOnSrcPosOrItem : M unit :=
  o ← gets Options;
  (if decide (FuzzingOptions.ExitOnSrcPos o = "") then mret tt
   else
     N ← gets NumPCs;
     CheckExitOnSrcPos_loop 1 (N - 1)%nat);;
  if decide (FuzzingOptions.ExitOnItem o = "") then mret tt
  else
    c ← gets Corpus;
    if Corpus_HasUnit E (FuzzingOptions.ExitOnItem o) c then
      Printf "INFO: found item with checksum '%s', exiting.\n";;
      _Exit 0
    else mret tt.

(** The comparison with the floating-point product
    [TimeOfLongestUnitInSeconds * 1.1] is taken over the rationals.  The
    two agree as long as the times are below 2^48 seconds: a product that
    is at least [TimeOfUnit] stays so after rounding, and one that is
    smaller is smaller by 1/10 at least, more than the rounding adds. *)
Definition PrintPulseAndReportSlowInput (Data : DataPtr) (Size : Z)
  : M unit :=
  start ← gets UnitStartTime;
  stop ← gets UnitStopTime;
  let TimeOfUnit := Z.quot (stop - start) (ticks_per_second E) in
  runs ← gets TotalNumberOfRuns;
  rt ← gets RT;
  when (bool_decide (Z.land runs (wrap64 (runs - 1)) = 0)
        && bool_decide (secondsSinceProcessStartUp E rt >= 2))
       (PrintStats "pulse ");;
  longest ← gets TimeOfLongestUnitInSeconds;
  o ← gets Options;
  when (bool_decide (10 * TimeOfUnit > 11 * longest)
        && bool_decide (TimeOfUnit >= FuzzingOptions.ReportSlowUnits o))
       (modify (set_TimeOfLongestUnitInSeconds (fun _ => wrap64 TimeOfUnit));;
        Printf "Slowest unit: %zd s:\n";;
        data ← deref Data;
        WriteUnitToFileWithPrefix (range data Size) "slow-unit-").

Definition CrashOnOverwrittenData : M unit :=
  Printf "==%d== ERROR: libFuzzer: fuzz target overwrites it's const input\n";;
  DumpCurrentUnit "crash-";;
  Printf "SUMMARY: libFuzzer: out-of-memory\n";;
  o ← gets Options;
  _Exit (FuzzingOptions.ErrorExitCode o).

Definition now : M Z :=
  rt ← gets RT;
  let '(t, rt') := system_clock_now E rt in
  modify (set_RT (fun _ => rt'));;
  mret t.

Definition ExecuteCallback (Data : DataPtr) (Size : Z) : M Z :=
  data ← deref Data;
  client ← gets SMR_IsClient;
  when client (emit (EvSMRWriteByteArray (range data Size)));;
  (* We copy the contents of Unit into a separate heap buffer
     so that we reliably find buffer overflows in it. *)
  let DataCopy := range data Size in
  modify (set_LiveDataCopies S);;
  current ← gets CurrentUnitData;
  match current, Data with
  | Some buf, BufferPtr _ =>
      buf' ← liftO (memcpy buf 0 data 0 (Z.to_nat Size));
      modify (set_CurrentUnitData (fun _ => Some buf'))
  | _, _ => mret tt
  end;;
  modify (set_CurrentUnitSize (fun _ => Size));;
  o ← gets Options;
  AllocTracer_Start (FuzzingOptions.TraceMalloc o);;
  t ← now;
  modify (set_UnitStartTime (fun _ => t));;
  modify (set_TPC (TPC_ResetMaps E));;
  modify (set_RunningCB (fun _ => true));;
  cb ← gets CB;
  tpc ← gets TPC;
  rt ← gets RT;
  match RunCallback E cb DataCopy Size tpc rt with
  | None => fault TargetDied
  | Some run =>
      modify (set_TPC (fun _ => cb_TPC run));;
      modify (set_RT (fun _ => cb_RT run));;
      modify (set_AllocTracer (fun a =>
        mkTracer (wrap64 (Mallocs a + cb_Mallocs run))
                 (wrap64 (Frees a + cb_Frees run)) (TraceLevel a)));;
      let Res := cb_Res run in
      modify (set_RunningCB (fun _ => false));;
      t ← now;
      modify (set_UnitStopTime (fun _ => t));;
      when (negb (FuzzingOptions.DifferentialMode o))
           (assert (bool_decide (Res = 0)));;
      more ← AllocTracer_Stop;
      modify (set_HasMoreMallocsThanFrees (fun _ => more));;
      data ← deref Data;
      same ← liftO (LooseMemeq (cb_DataCopy run) data Size);
      when (negb same) CrashOnOverwrittenData;;
      modify (set_CurrentUnitSize (fun _ => 0));;
      modify (set_LiveDataCopies Nat.pred);;
      mret Res
  end.

(** The callback handed to [TPC.CollectFeatures], run on the features in
    the order of their enumeration. *)
Fixpoint handle_features (Features : list Z) (Size : Z) : M unit :=
  match Features with
  | [] => mret tt
  | Feature :: rest =>
      o ← gets Options;
      modify (set_Corpus
        (Corpus_AddFeature E Feature Size (FuzzingOptions.Shrink o)));;
      when (FuzzingOptions.ReduceInputs o)
           (modify (set_FeatureSetTmp (fun v => v ++ [Feature])));;
      handle_features rest Size
  end.

Definition RunOneCallback (Data : DataPtr) (Size : Z) (idx : nat)
    (MayDeleteFile : bool) (II : option nat) : M bool :=
  if decide (Size = 0) then mret false
  else
    ret ← ExecuteCallback Data Size;
    o ← gets Options;
    when (FuzzingOptions.DifferentialMode o)
         (tpc ← gets TPC;
          if decide (idx < length (OutputDiffVec tpc))%nat
          then modify (set_TPC (set_OutputDiffVec <[idx := ret]>))
          else fault Undefined);;
    modify (set_FeatureSetTmp (fun _ => []));;
    c ← gets Corpus;
    let NumUpdatesBefore := Corpus_NumFeatureUpdates E c in
    tpc ← gets TPC;
    let '(Features, tpc') := TPC_CollectFeatures E tpc in
    modify (set_TPC (fun _ => tpc'));;
    handle_features Features Size;;
    PrintPulseAndReportSlowInput Data Size;;
    c ← gets Corpus;
    let NumNewFeatures :=
      wrap64 (Corpus_NumFeatureUpdates E c - NumUpdatesBefore) in
    data ← deref Data;
    fs ← gets FeatureSetTmp;
    if decide (NumNewFeatures ≠ 0) then
      modify (set_Corpus (Corpus_AddToCorpus E (range data Size)
                            NumNewFeatures MayDeleteFile fs));;
      CheckExitOnSrcPosOrItem;;
      mret true
    else
      match II with
      | Some ii =>
          let '(replaced, c') :=
            Corpus_TryToReplace E ii (range data Size) Size fs c in
          modify (set_Corpus (fun _ => c'));;
          if replaced then CheckExitOnSrcPosOrItem;; mret true
          else mret false
      | None => mret false
      end.

(** The loop [for (i = 0; i < TPC.UC->size; ++i)] of [RunOne], started at
    [i] with [n] iterations left. *)
Fixpoint RunOne_callbacks (Data : DataPtr) (Size : Z) (MayDeleteFile : bool)
    (II : option nat) (i n : nat) (features : Z) (feature_vec : list Z)
  : M (Z * list Z) :=
  match n with
  | O => mret (features, feature_vec)
  | S n' =>
      callbacks ← gets UC_callbacks;
      cb ← liftO (callbacks !! i);
      modify (set_CB (fun _ => cb));;
      cb_ret ← RunOneCallback Data Size i MayDeleteFile II;
      RunOne_callbacks Data Size MayDeleteFile II (S i) n'
        (wrap64 (features + Z.b2z cb_ret)) (feature_vec ++ [Z.b2z cb_ret])
  end.

Definition RunOne (Data : DataPtr) (Size : Z) (MayDeleteFile : bool)
    (II : option nat) : M bool :=
  o ← gets Options;
  if FuzzingOptions.DifferentialMode o then
    modify (set_TPC (TPC_ResetCoverage E));;
    modify (set_UnitHadOutputDiff (fun _ => false));;
    tpc ← gets TPC;
    let CoverageBefore := TPC_GetTotalPCCoverage E tpc in
    size ← gets UC_size;
    '(features, feature_vec) ←
      RunOne_callbacks Data Size MayDeleteFile II 0
        (Z.to_nat (to_int size)) 0 [];
    tpc ← gets TPC;
    let NumCoverage :=
      wrap64 (TPC_GetTotalPCCoverage E tpc - CoverageBefore) in
    let '(new_diff, tpc) := TPC_NewOutputDiff_change E tpc in
    let '(new_trace, tpc) := TPC_NewTraceDiff E feature_vec tpc in
    modify (set_TPC (fun _ => tpc));;
    when new_trace (modify (set_NumberofValidCases incr));;
    when new_diff
         (modify (set_FeatureSetTmp (fun _ => []));;
          DumpUnitIfDiff Data Size;;
          diff ← gets UnitHadOutputDiff;
          when diff
               (data ← deref Data;
                fs ← gets FeatureSetTmp;
                modify (set_Corpus (Corpus_AddToCorpus E (range data Size)
                                      NumCoverage MayDeleteFile fs))));;
    modify (set_TotalNumberOfRuns incr);;
    s ← gets id;
    when (bool_decide (Z.rem (to_int (TotalNumberOfRuns s)) 20 = 0))
         (emit (EvLogSave "./log"
                  [TotalNumberOfRuns s; Duplicate s;
                   NumberOfDiffUnitsAdded s; NumberofValidCases s]));;
    mret (if decide (features > 0) then bool_decide (features ≠ 0)
          else new_diff)
  else RunOneCallback Data Size 0 MayDeleteFile II.

Definition WriteToOutputCorpus (U : list Z) : M unit :=
  o ← gets Options;
  when (FuzzingOptions.OnlyASCII o) (assert (IsASCII E U));;
  if decide (FuzzingOptions.OutputCorpus o = "") then mret tt
  else
    let Path := DirPlusFile E (FuzzingOptions.OutputCorpus o) (Hash E U) in
    emit (EvWriteToFile U Path);;
    when (bool_decide (FuzzingOptions.Verbosity o >= 2))
         (Printf "Written to %s\n").

Definition PrintStatusForNewUnit (U : list Z) : M unit :=
  o ← gets Options;
  if negb (FuzzingOptions.PrintNEW o) then mret tt
  else
    PrintStats "NEW   ";;
    when (bool_decide (FuzzingOptions.Verbosity o ≠ 0))
         (Printf " L: %zd ";;
          emit EvPrintMutationSequence;;
          Printf "\n").

Definition ReportNewCoverage (II : nat) (U : list Z) : M unit :=
  modify (set_Corpus (II_NumSuccessfullMutations_incr E II));;
  modify (set_MD (MD_RecordSuccessfulMutationSequence E));;
  PrintStatusForNewUnit U;;
  WriteToOutputCorpus U;;
  modify (set_NumberOfNewUnitsAdded incr);;
  emit EvTPCPrintNewPCs.

(** Tries detecting a memory leak on the particular input that we have just
    executed before calling this function. *)
Definition TryDetectingAMemoryLeak (Data : DataPtr) (Size : Z)
    (DuringInitialCorpusExecution : bool) : M unit :=
  more ← gets HasMoreMallocsThanFrees;
  o ← gets Options;
  if negb more then mret tt
  else if negb (FuzzingOptions.DetectLeaks o) then mret tt
  else if negb (EF_lsan E) then mret tt
  else
    modify (set_RT (lsan_disable E));;
    ExecuteCallback Data Size;;
    modify (set_RT (lsan_enable E));;
    more ← gets HasMoreMallocsThanFrees;
    if negb more then mret tt
    else
      attempts ← gets NumberOfLeakDetectionAttempts;
      modify (set_NumberOfLeakDetectionAttempts incr);;
      if decide (attempts > 1000) then
        modify (set_Options FuzzingOptions.clear_DetectLeaks);;
        Printf "INFO: libFuzzer disabled leak detection after every mutation.\n      Most likely the target function accumulates allocated\n      memory in a global state w/o actually leaking it.\n      You may try running this binary with -trace_malloc=[12]      to get a trace of mallocs and frees.\n      If LeakSanitizer is enabled in this process it will still\n      run on the process shutdown.\n"
      else
        rt ← gets RT;
        let '(leak, rt') := lsan_do_recoverable_leak_check E rt in
        modify (set_RT (fun _ => rt'));;
        if decide (leak = 0) then mret tt
        else
          when DuringInitialCorpusExecution
               (Printf "\nINFO: a leak has been found in the initial corpus.\n\n");;
          Printf "INFO: to ignore leaks on libFuzzer side use -detect_leaks=0.\n\n";;
          modify (set_CurrentUnitSize (fun _ => Size));;
          DumpCurrentUnit "leak-";;
          PrintFinalStats;;
          _Exit (FuzzingOptions.ErrorExitCode o).

(** The [do ... while (NewSize > CurrentMaxMutationLen)] loop of
    [MutateAndTestOne].  The source puts no bound on it; [fuel] bounds the
    number of rounds of the model.  The [continue] of the duplicate branch
    jumps to the loop condition. *)
Fixpoint Mutate_loop (fuel : nat) (Size CurrentMaxMutationLen : Z)
    (PreviousUnit : list Z) : M (Z * list Z * Z) :=
  match fuel with
  | O => fault OutOfFuel
  | S fuel' =>
      buf ← deref CurrentUnitDataPtr;
      PreviousUnit ← liftO (memcpy PreviousUnit 0 buf 0 (Z.to_nat Size));
      let PreviousSize := Size in
      md ← gets MD;
      let '(buf', NewSize, md') :=
        MD_Mutate E buf Size CurrentMaxMutationLen md in
      modify (set_CurrentUnitData (fun _ => Some buf'));;
      modify (set_MD (fun _ => md'));;
      let tmp := ComputeSHA1 E (range buf' NewSize) in
      seen ← gets hashMap;
      (if decide (is_Some (seen !! tmp)) then
         modify (set_NumberOfDuplicate incr)   (* continue *)
       else
         modify (set_hashMap <[tmp := true]>));;
      if decide (NewSize > CurrentMaxMutationLen)
      then Mutate_loop fuel' Size CurrentMaxMutationLen PreviousUnit
      else mret (NewSize, PreviousUnit, PreviousSize)
  end.

(** The loop [for (i = 0; i < Options.MutateDepth; i++)], with [n]
    iterations left. *)
Fixpoint MutateAndTestOne_loop (fuel : nat) (II : nat)
    (CurrentMaxMutationLen : Z) (n : nat) (Size : Z)
    (PreviousUnit : list Z) (PreviousSize : Z) : M unit :=
  match n with
  | O => mret tt
  | S n' =>
      runs ← gets TotalNumberOfRuns;
      o ← gets Options;
      if decide (runs >= FuzzingOptions.MaxNumberOfRuns o) then mret tt
      else
        '(NewSize, PreviousUnit, PreviousSize) ←
          Mutate_loop fuel Size CurrentMaxMutationLen PreviousUnit;
        assert (bool_decide (NewSize > 0));;
        assert (bool_decide (NewSize <= CurrentMaxMutationLen));;
        let Size := NewSize in
        modify (set_Corpus (II_NumExecutedMutations_incr E II));;
        interesting ← RunOne CurrentUnitDataPtr Size true (Some II);
        when interesting
             (buf ← deref CurrentUnitDataPtr;
              ReportNewCoverage II (range buf Size);;
              diff ← gets UnitHadOutputDiff;
              when diff
                   (let s := Sha1ToString E (ComputeSHA1 E (range buf Size))
                             +:+ "_BeforeMutationWas_" in
                    WriteUnitToFileWithPrefix
                      (range PreviousUnit PreviousSize) s));;
        TryDetectingAMemoryLeak CurrentUnitDataPtr Size false;;
        MutateAndTestOne_loop fuel II CurrentMaxMutationLen n' Size
          PreviousUnit PreviousSize
  end.

(** [CurrentMaxMutationLen] of [MutateAndTestOne]. *)
Definition CurrentMaxMutationLen_of : M Z :=
  o ← gets Options;
  max ← gets MaxMutationLen;
  if FuzzingOptions.ExperimentalLenControl o then
    c ← gets Corpus;
    md ← gets MD;
    match ComputeMutationLen (MD_Rand E) (Corpus_MaxInputSize E c) max md with
    | Some (len, md') => modify (set_MD (fun _ => md'));; mret len
    | None => fault AssertionFailed
    end
  else mret max.

Definition MutateAndTestOne (fuel : nat) : M unit :=
  modify (set_MD (MD_StartMutationSequence E));;
  c ← gets Corpus;
  md ← gets MD;
  let '(II, c', md') := Corpus_ChooseUnitToMutate E c md in
  modify (set_Corpus (fun _ => c'));;
  modify (set_MD (fun _ => md'));;
  let U := II_U E II c' in
  modify (set_BaseSha1 (fun _ => II_Sha1 E II c'));;
  current ← gets CurrentUnitData;
  assert (bool_decide (is_Some current));;
  buf ← liftO current;
  let Size := Z.of_nat (length U) in
  maxlen ← gets MaxInputLen;
  assert (bool_decide (Size <= maxlen));;
  buf ← liftO (memcpy buf 0 U 0 (length U));
  modify (set_CurrentUnitData (fun _ => Some buf));;
  max ← gets MaxMutationLen;
  assert (bool_decide (max > 0));;
  let PreviousUnit := replicate (Z.to_nat maxlen) 0 in
  let PreviousSize := 0 in
  CurrentMaxMutationLen ← CurrentMaxMutationLen_of;
  o ← gets Options;
  MutateAndTestOne_loop fuel II CurrentMaxMutationLen
    (Z.to_nat (FuzzingOptions.MutateDepth o)) Size PreviousUnit PreviousSize.

End Model.

(** ** The signal callbacks *)

Section Signals.
Context {TPC_t Corpus_t MD_t RT_t UserCallback : Type}.
Variable E : @Externals TPC_t Corpus_t MD_t RT_t UserCallback.
Let Fuzzer := (@Fuzzer TPC_t Corpus_t MD_t RT_t UserCallback).

Definition DeathCallback : @M TPC_t Corpus_t MD_t RT_t UserCallback unit :=
  DumpCurrentUnit E "crash-";;
  PrintFinalStats.

Definition CrashCallback : @M TPC_t Corpus_t MD_t RT_t UserCallback unit :=
  Printf "==%lu== ERROR: libFuzzer: deadly signal\n";;
  when (EF_print_stack_trace E) (emit EvPrintStackTrace);;
  Printf "NOTE: libFuzzer has rudimentary signal handlers.\n      Combine libFuzzer with AddressSanitizer or similar for better crash reports.\n";;
  Printf "SUMMARY: libFuzzer: deadly signal\n";;
  DumpCurrentUnit E "crash-";;
  PrintFinalStats;;
  o ← gets Options;
  _Exit (FuzzingOptions.ErrorExitCode o).

Definition InterruptCallback
  : @M TPC_t Corpus_t MD_t RT_t UserCallback unit :=
  Printf "==%lu== libFuzzer: run interrupted; exiting\n";;
  PrintFinalStats;;
  _Exit 0.

End Signals.


(** ** A small instance

    Two honest targets, one target that writes into its input, a scripted
    mutation engine and a digest that is the identity.  The instance runs
    the definitions above on concrete inputs. *)

Module Toy.

Record Maps : Type := mkMaps {
  pending : list Z;           (* features of the last run *)
  total : Z;                  (* PCs covered so far *)
  diffs : list (list bool);   (* divergence patterns seen *)
  traces : list (list Z)      (* new-feature patterns seen *)
}.

Record Store : Type := mkStore {
  inputs : list (list Z * Z * list Z);
  features : list Z;
  updates : Z
}.

(** Target [0] returns 0.  Target [1] returns 1 on an input that starts
    with the byte 0, else 0.  Target [2] zeroes the first byte of the
    buffer it is given and returns 0.  Target [id] owns the two words of
    the PC table from [1 + 2 * id] on. *)
Definition run (id : nat) (DataCopy : list Z) (Size : Z)
    (t : @TracePC Maps) (rt : Z) : option (@CBRun Maps Z) :=
  let first := default 0 (head DataCopy) in
  let Res :=
    match id with
    | 1%nat => if decide (first = 0) then 1 else 0
    | _ => 0
    end in
  let DataCopy' :=
    match id with
    | 2%nat => <[0%nat := 0]> DataCopy
    | _ => DataCopy
    end in
  let slot := (1 + 2 * id)%nat in
  let fresh := if decide (PCs t !! slot = Some 0) then 1 else 0 in
  let m := Internal t in
  Some (mkCBRun Res DataCopy'
          (mkTracePC (OutputDiffVec t)
             (<[S slot := first + 1]> (<[slot := 4096 + Z.of_nat id]> (PCs t)))
             (mkMaps [256 * Z.of_nat id + first] (total m + fresh)
                (diffs m) (traces m)))
          (rt + 1) 0 0).

Definition NewOutputDiff_change (t : @TracePC Maps)
  : bool * @TracePC Maps :=
  let m := Internal t in
  let pattern := (fun r => bool_decide (r ≠ 0)) <$> OutputDiffVec t in
  (bool_decide (pattern ∉ diffs m),
   mkTracePC (OutputDiffVec t) (PCs t)
     (mkMaps (pending m) (total m) (pattern :: diffs m) (traces m))).

Definition NewTraceDiff (v : list Z) (t : @TracePC Maps)
  : bool * @TracePC Maps :=
  let m := Internal t in
  (bool_decide (v ∉ traces m),
   mkTracePC (OutputDiffVec t) (PCs t)
     (mkMaps (pending m) (total m) (diffs m) (v :: traces m))).

Definition ResetMaps (t : @TracePC Maps) : @TracePC Maps :=
  let m := Internal t in
  mkTracePC (OutputDiffVec t) (PCs t)
    (mkMaps [] (total m) (diffs m) (traces m)).

Definition AddFeature (Feature Size : Z) (shrink : bool) (c : Store)
  : Store :=
  if decide (Feature ∈ features c) then c
  else mkStore (inputs c) (Feature :: features c) (updates c + 1).

Definition AddToCorpus (U : list Z) (NumFeatures : Z) (MayDeleteFile : bool)
    (FeatureSet : list Z) (c : Store) : Store :=
  mkStore (inputs c ++ [(U, NumFeatures, FeatureSet)]) (features c)
    (updates c).

Definition unit_of (ii : nat) (c : Store) : list Z :=
  match inputs c !! ii with Some (U, _, _) => U | None => [] end.

(** The engine writes the next candidate of its script into the buffer. *)
Definition Mutate (buf : list Z) (Size MaxSize : Z) (md : list (list Z))
  : list Z * Z * list (list Z) :=
  match md with
  | candidate :: rest =>
      (candidate ++ drop (length candidate) buf,
       Z.of_nat (length candidate), rest)
  | [] => (buf, Size, [])
  end.

Definition Sha1ToString (digest : list Z) : string :=
  String.concat "" ((fun b => pretty b +:+ ".") <$> digest).

Definition E : @Externals Maps Store (list (list Z)) Z nat :=
  mkExternals
    (* ComputeSHA1, Sha1ToString, Hash, DirPlusFile, IsASCII *)
    id Sha1ToString Sha1ToString
    (fun dir file => dir +:+ "/" +:+ file)
    (forallb (fun b => bool_decide (b < 128)))
    (* the sanitizer hooks *)
    true false id id (fun rt => (0, rt))
    (* the clock *)
    (fun rt => (rt, rt)) 1 id
    run
    (* TracePC *)
    ResetMaps id (fun t => total (Internal t))
    (fun t => (pending (Internal t), t))
    NewOutputDiff_change NewTraceDiff
    (fun i t => default 0 (PCs t !! Z.to_nat i)) (fun _ _ => false)
    (* InputCorpus *)
    updates AddFeature AddToCorpus
    (fun _ _ _ _ c => (false, c)) (fun _ _ => false)
    (fun c md => (0%nat, c, md))
    (fun c => Z.of_nat (max_list ((fun x => length x.1.1) <$> inputs c)))
    unit_of (fun _ _ => []) (fun _ c => c) (fun _ c => c)
    (* MutationDispatcher *)
    id Mutate (fun md => (0, md)) id.

Definition options (differential save : bool) : FuzzingOptions.t :=
  FuzzingOptions.mk 0 77 1000 64 2 10 0 differential
    false false false false false save false false false false false
    "" "" "" "" "".

(** A driver over the targets [callbacks], with the given seed corpus,
    mutation script and current-unit buffer. *)
Definition fuzzer (o : FuzzingOptions.t) (callbacks : list nat)
    (seeds : list (list Z)) (script : list (list Z))
    (current : option (list Z)) : @Fuzzer Maps Store (list (list Z)) Z nat :=
  let N := length callbacks in
  mkFuzzer o (default 0%nat (head callbacks))
    (mkTracePC (replicate N 0) (replicate (1 + 2 * N) 0)
       (mkMaps [] 0 [] []))
    (Z.of_nat N) callbacks (1%nat :: replicate N 2%nat) (1 + 2 * N)%nat
    (mkStore ((fun U => (U, 1, [])) <$> seeds) [] 0)
    script 0 false current 0 [] 8 8 0 0 0 0 0 0 0 0 false false false 0 0
    [] ∅ ∅ (mkTracer 0 0 0) ∅ 0%nat [].

End Toy.

(** ** The vocabulary of the statements *)

(** The bytes of a list of words. *)
Definition words_bytes (ws : list Z) : list Z := ws ≫= le_bytes.

(** The specification blob of the callbacks [j, j + n). *)
Definition blob_from (PCs : list Z) (ModuleNum : list nat)
    (OutputDiffVec : list Z) (j n : nat) : list Z :=
  i ← seq j n;
  match OutputDiffVec !! i with
  | Some r => if decide (r ≠ 0)
              then pc_region PCs ModuleNum i ≫= le_bytes
              else []
  | None => []
  end.

(** The positions that [LooseMemeq] compares. *)
Definition sampled (Size : Z) (i : nat) : Prop :=
  Z.of_nat i < Size ∧ (Size ≤ 64 ∨ Z.of_nat i < 32 ∨ Size - 32 ≤ Z.of_nat i).

(** The return codes as [DumpUnitIfDiff] prints them into the name. *)
Definition outvec (v : list Z) : string :=
  foldr (fun r acc => pretty r +:+ "_" +:+ acc) "" v.

(** Both a zero and a non-zero return code occur. *)
Definition mixed (v : list Z) : bool :=
  existsb (fun r => bool_decide (r = 0)) v
  && existsb (fun r => bool_decide (r ≠ 0)) v.

Definition is_write (e : Event) : bool :=
  match e with EvWriteToFile _ _ => true | _ => false end.

(** The number of callbacks that returned [true]. *)
Definition interesting (rets : list bool) : Z :=
  Z.of_nat (length (filter (fun b => b = true) rets)).

(** The cap after the two growth steps of [ComputeMutationLen] on the draw
    [R], without the clamp. *)
Definition grown (MaxInputSize R : Z) : Z :=
  let cap := if decide (R mod 2 ^ 7 = 0) then MaxInputSize + 1
             else MaxInputSize in
  if decide (R mod 2 ^ 15 = 0) then cap + (10 + cap / 2) else cap.

(** The [n] consecutive numbers from [R] on. *)
Fixpoint upto (n : nat) (R : Z) : list Z :=
  match n with
  | O => []
  | S n' => R :: upto n' (R + 1)
  end.

(** The number of draws among [0, 2^15) that satisfy [P]. *)
Definition draws (P : Z → Prop) `{!∀ R, Decision (P R)} : nat :=
  length (filter P (upto (Z.to_nat (2 ^ 15)) 0)).

(** The word that the bytes [bs] hold, least significant byte first. *)
Definition le_word (bs : list Z) : Z :=
  foldr (fun b acc => b + 256 * acc) 0 bs.

(** The [n] words that [bytes] holds, 8 bytes each. *)
Fixpoint unpack (n : nat) (bytes : list Z) : list Z :=
  match n with
  | O => []
  | S n' => le_word (take 8 bytes) :: unpack n' (drop 8 bytes)
  end.

(** The number of PC words of the callbacks [j, j + n) that returned a
    non-zero code. *)
Definition diverging_words (ModuleNum : list nat) (OutputDiffVec : list Z)
    (j n : nat) : nat :=
  sum_list ((fun i => match OutputDiffVec !! i with
                      | Some r => if decide (r ≠ 0)
                                  then default 0%nat (ModuleNum !! S i)
                                  else 0%nat
                      | None => 0%nat
                      end) <$> seq j n).

(** A call of one of the two sanitizer hooks. *)
Inductive hook : Type :=
| Malloc (size : Z)
| Free.

#[global] Instance hook_eq_dec : EqDecision hook.
Proof. solve_decision. Defined.

Definition mallocs (hs : list hook) : Z :=
  Z.of_nat (length (filter (fun h => h ≠ Free) hs)).

Definition frees (hs : list hook) : Z :=
  Z.of_nat (length (filter (fun h => h = Free) hs)).

Section Vocabulary.
Context {TPC_t Corpus_t MD_t RT_t UserCallback : Type}.
Variable E : @Externals TPC_t Corpus_t MD_t RT_t UserCallback.
Let Fuzzer := (@Fuzzer TPC_t Corpus_t MD_t RT_t UserCallback).

Definition artifact_path (o : FuzzingOptions.t) (U : list Z)
    (Prefix : string) : string :=
  if decide (FuzzingOptions.ExactArtifactPath o = "")
  then FuzzingOptions.ArtifactPrefix o +:+ Prefix +:+ Hash E U
  else FuzzingOptions.ExactArtifactPath o.

Definition artifact_events (o : FuzzingOptions.t) (U : list Z)
    (Prefix : string) : list Event :=
  if FuzzingOptions.SaveArtifacts o then
    [EvWriteToFile U (artifact_path o U Prefix);
     EvPrintf "artifact_prefix='%s'; Test unit written to %s\n"]
    ++ (if bool_decide (Z.of_nat (length U) ≤ kMaxUnitSizeToPrint)
        then [EvPrintf "Base64: %s\n"] else [])
  else [].

Definition dump_events (s : Fuzzer) (Prefix : string) : list Event :=
  match CurrentUnitData s with
  | None => []
  | Some buf =>
      [EvPrintMutationSequence; EvPrintf "; base unit: %s\n"]
      ++ (if bool_decide (CurrentUnitSize s ≤ kMaxUnitSizeToPrint)
          then [EvPrintHexArray (range buf (CurrentUnitSize s));
                EvPrintASCII (range buf (CurrentUnitSize s))]
          else [])
      ++ artifact_events (Options s) (range buf (CurrentUnitSize s)) Prefix
  end.

Definition final_stats_events (o : FuzzingOptions.t) : list Event :=
  (if FuzzingOptions.PrintCoverage o then [EvTPCPrintCoverage] else [])
  ++ (if FuzzingOptions.DumpCoverage o then [EvTPCDumpCoverage] else [])
  ++ (if FuzzingOptions.PrintCorpusStats o then [EvCorpusPrintStats] else [])
  ++ (if FuzzingOptions.PrintFinalStats o then
        [EvPrintf "stat::number_of_executed_units: %zd\n";
         EvPrintf "stat::average_exec_per_sec:     %zd\n";
         EvPrintf "stat::new_units_added:          %zd\n"]
        ++ (if FuzzingOptions.DifferentialMode o
            then [EvPrintf "stat::number_of_diffs:          %zd\n"] else [])
        ++ [EvPrintf "stat::slowest_unit_time_sec:    %zd\n";
            EvPrintf "stat::peak_rss_mb:              %zd\n";
            EvPrintf "stat::number_of_duplicates:	%zd\n";
            EvPrintf "stat::coverage:	%zd\n";
            EvPrintf "stat::Duplicate:	%zd\n"]
      else []).

(** What [HandleMalloc] lets the outside see before it exits. *)
Definition oom_events (s : Fuzzer) : list Event :=
  [EvPrintf "==%d== ERROR: libFuzzer: out-of-memory (malloc(%zd))\n";
   EvPrintf "   To change the out-of-memory limit use -rss_limit_mb=<N>\n\n"]
  ++ (if EF_print_stack_trace E then [EvPrintStackTrace] else [])
  ++ dump_events s "oom-"
  ++ [EvPrintf "SUMMARY: libFuzzer: out-of-memory\n"]
  ++ final_stats_events (Options s).

(** What a completed [ExecuteCallback] lets the outside see. *)
Definition exec_events (s : Fuzzer) (data : list Z) (Size : Z)
  : list Event :=
  (if SMR_IsClient s then [EvSMRWriteByteArray (range data Size)] else [])
  ++ (if bool_decide (FuzzingOptions.TraceMalloc (Options s) ≠ 0)
      then [EvPrintf "MallocFreeTracer: START\n";
            EvPrintf "MallocFreeTracer: STOP %zd %zd (%s)\n"]
      else []).

(** What [CrashOnOverwrittenData] lets the outside see for the current
    unit [U] of [Size] bytes; [allocated] tells whether [CurrentUnitData]
    is a buffer. *)
Definition crash_events (o : FuzzingOptions.t) (allocated : bool)
    (U : list Z) (Size : Z) : list Event :=
  [EvPrintf "==%d== ERROR: libFuzzer: fuzz target overwrites it's const input\n"]
  ++ (if allocated then
        [EvPrintMutationSequence; EvPrintf "; base unit: %s\n"]
        ++ (if bool_decide (Size ≤ kMaxUnitSizeToPrint)
            then [EvPrintHexArray U; EvPrintASCII U] else [])
        ++ artifact_events o U "crash-"
      else [])
  ++ [EvPrintf "SUMMARY: libFuzzer: out-of-memory\n"].

(** The blob that [DumpUnitIfDiff] builds in state [s], and its
    fingerprint. *)
Definition coverage_blob (s : Fuzzer) : option (list Z) :=
  DivergenceCoverage (Z.to_nat (to_int (UC_size s))) (NumPCs s)
    (PCs (TPC s)) (ModuleNum s) (OutputDiffVec (TPC s)).

Definition fingerprint (s : Fuzzer) : option string :=
  blob ← coverage_blob s; Some (Sha1ToString E (ComputeSHA1 E blob)).

(** The state after a divergence with the unseen fingerprint [fp]. *)
Definition record_divergence (fp : string) (U : list Z) (s : Fuzzer)
  : Fuzzer :=
  set_Out (fun o => o ++ artifact_events (Options s) U
                          ("diff_" +:+ outvec (OutputDiffVec (TPC s))))
    (set_NumberOfDiffUnitsAdded incr
       (set_UnitHadOutputDiff (fun _ => true)
          (set_CoverageHash <[fp := true]> s))).

(** The step from [s] to [s'] wrote a file. *)
Definition wrote (s s' : Fuzzer) : bool :=
  existsb is_write (drop (length (Out s)) (Out s')).

(** A history is a list of calls of [DumpUnitIfDiff], each after some
    other activity of the process.  [diff_artifacts] lists, in order, the
    fingerprints of the calls that wrote an artifact. *)
Fixpoint diff_artifacts (h : list ((Fuzzer → Fuzzer) * DataPtr * Z))
    (s : Fuzzer) : list string :=
  match h with
  | [] => []
  | (other, Data, Size) :: h' =>
      let s1 := other s in
      match DumpUnitIfDiff E Data Size s1 with
      | Ret _ s2 =>
          (if wrote s1 s2 then option_list (fingerprint s1) else [])
          ++ diff_artifacts h' s2
      | _ => []
      end
  end.

(** [keeps R m]: whenever [m] returns or exits, the states before and
    after are related by [R]. *)
Definition keeps (R : Fuzzer → Fuzzer → Prop) {A : Type} (m : M A) : Prop :=
  ∀ s, match m s with
       | Ret _ s' => R s s'
       | Exit _ s' => R s s'
       | Fault _ => True
       end.

(** The members that the execution harness and the feature path leave
    alone. *)
Definition harness_frame (s s' : Fuzzer) : Prop :=
  Options s' = Options s
  ∧ UC_size s' = UC_size s
  ∧ UC_callbacks s' = UC_callbacks s
  ∧ ModuleNum s' = ModuleNum s
  ∧ NumPCs s' = NumPCs s
  ∧ MD s' = MD s
  ∧ SMR_IsClient s' = SMR_IsClient s
  ∧ BaseSha1 s' = BaseSha1 s
  ∧ MaxInputLen s' = MaxInputLen s
  ∧ MaxMutationLen s' = MaxMutationLen s
  ∧ TotalNumberOfRuns s' = TotalNumberOfRuns s
  ∧ NumberOfNewUnitsAdded s' = NumberOfNewUnitsAdded s
  ∧ NumberOfDiffUnitsAdded s' = NumberOfDiffUnitsAdded s
  ∧ NumberOfDuplicate s' = NumberOfDuplicate s
  ∧ Duplicate s' = Duplicate s
  ∧ NumberofValidCases s' = NumberofValidCases s
  ∧ NumberOfLeakDetectionAttempts s' = NumberOfLeakDetectionAttempts s
  ∧ UnitHadOutputDiff s' = UnitHadOutputDiff s
  ∧ hashMap s' = hashMap s
  ∧ CoverageHash s' = CoverageHash s.

(** The runs of the callbacks [i, i + length rets) on one input: [rets]
    are the values that [RunOneCallback] returned, in order. *)
Inductive callback_runs (Data : DataPtr) (Size : Z) (MayDeleteFile : bool)
    (II : option nat) : nat → list bool → Fuzzer → Fuzzer → Prop :=
| runs_nil (i : nat) (s : Fuzzer) :
    callback_runs Data Size MayDeleteFile II i [] s s
| runs_cons (i : nat) (cb : UserCallback) (ret : bool) (rets : list bool)
    (s s1 s2 : Fuzzer) :
    UC_callbacks s !! i = Some cb →
    RunOneCallback E Data Size i MayDeleteFile II (set_CB (fun _ => cb) s)
    = Ret ret s1 →
    callback_runs Data Size MayDeleteFile II (S i) rets s1 s2 →
    callback_runs Data Size MayDeleteFile II i (ret :: rets) s s2.


(** What [CrashCallback] lets the outside see before it exits. *)
Definition deadly_signal_events (s : Fuzzer) : list Event :=
  [EvPrintf "==%lu== ERROR: libFuzzer: deadly signal\n"]
  ++ (if EF_print_stack_trace E then [EvPrintStackTrace] else [])
  ++ [EvPrintf "NOTE: libFuzzer has rudimentary signal handlers.\n      Combine libFuzzer with AddressSanitizer or similar for better crash reports.\n";
      EvPrintf "SUMMARY: libFuzzer: deadly signal\n"]
  ++ dump_events s "crash-"
  ++ final_stats_events (Options s).

(** The hooks as the target's allocations call them, in order. *)
Fixpoint run_hooks (hs : list hook)
  : @M TPC_t Corpus_t MD_t RT_t UserCallback unit :=
  match hs with
  | [] => mret tt
  | Malloc size :: hs' => MallocHook E size;; run_hooks hs'
  | Free :: hs' => FreeHook E;; run_hooks hs'
  end.

End Vocabulary.

(** States of the small instance. *)

Definition toy_idle (save : bool) :=
  Toy.fuzzer (Toy.options true save) [0; 1]%nat [[65]] []
    (Some [65; 0; 0; 0; 0; 0; 0; 0]).

(** A driver whose two targets have just disagreed: the first returned 0,
    the second 1. *)
Definition toy_diverged (save : bool) :=
  set_TPC (fun _ => mkTracePC [0; 1] [0; 4096; 1; 4097; 1]
                      (Toy.mkMaps [256] 2 [] []))
    (toy_idle save).



(** The small instance with the targets 0 and 1, the seed [65] and an
    engine that proposes the candidate [0; 255] twice. *)
Definition toy_twice :=
  Toy.fuzzer (Toy.options true true) [0; 1]%nat [[65]]
    [[0; 255]; [0; 255]] (Some (replicate 8 0)).

(** The state in which the mutation loop of the second round starts: the
    first candidate is recorded and has been run. *)
Definition toy_second_round :=
  set_hashMap <[[0; 255] := true]>
    (set_MD (fun _ => [[0; 255]])
       (set_CurrentUnitData (fun _ => Some [0; 255; 0; 0; 0; 0; 0; 0])
          toy_twice)).

(** The small instance with no limit on a single allocation. *)
Definition toy_unlimited :=
  set_Options (fun _ => FuzzingOptions.mk 0 77 1000 0 2 10 0 true
                 false false false false false true false false false false
                 false "" "" "" "" "")
    (toy_idle true).

(** The small instance after a unit that took 20 seconds. *)
Definition toy_slow :=
  set_UnitStopTime (fun _ => 20) (toy_idle true).

(** The small instance without a current-unit buffer. *)
Definition toy_no_buffer :=
  Toy.fuzzer (Toy.options true true) [0; 1]%nat [[65]] [] None.

(** * Properties *)

#[local] Set Warnings "-clear-no-such-hyp".

(** ** Byte packing *)

Lemma to_uint8_shiftr (w : Z) (k : Z) :
  0 ≤ k → to_uint8 (Z.shiftr w k) = (w / 2 ^ k) mod 256.
Proof.
  intros Hk. unfold to_uint8.
  rewrite Z.shiftr_div_pow2 by done.
  change 255 with (Z.ones 8). rewrite Z.land_ones by lia. done.
Qed.

Lemma to_uint8_0 (w : Z) : to_uint8 w = (w / 2 ^ 0) mod 256.
Proof. rewrite <- (to_uint8_shiftr w 0) by lia. by rewrite Z.shiftr_0_r. Qed.

Lemma length_le_bytes (w : Z) : length (le_bytes w) = 8%nat.
Proof. reflexivity. Qed.

Lemma store_word_spec (w : Z) (i : nat) (dest : list Z) :
  (i * 8 + 8 ≤ length dest)%nat →
  store_word w i dest
  = take (i * 8) dest ++ le_bytes w ++ drop (i * 8 + 8) dest.
Proof.
  intros Hlen.
  rewrite <- (take_drop (i * 8) dest) at 1.
  assert (Hpre : length (take (i * 8) dest) = (i * 8)%nat)
    by (rewrite length_take; lia).
  assert (Hd : length (drop (i * 8) dest) = (length dest - i * 8)%nat)
    by apply length_drop.
  replace (drop (i * 8 + 8) dest) with (drop 8 (drop (i * 8) dest))
    by (rewrite drop_drop; done).
  destruct (drop (i * 8) dest) as [|b0 [|b1 [|b2 [|b3 [|b4 [|b5 [|b6 [|b7 r]]]]]]]];
    simpl in Hd; try lia.
  unfold store_word.
  rewrite !insert_app_r_alt by (rewrite ?length_app, ?length_insert, Hpre; lia).
  rewrite !Hpre.
  replace (i * 8 - i * 8)%nat with 0%nat by lia.
  replace (i * 8 + 1 - i * 8)%nat with 1%nat by lia.
  replace (i * 8 + 2 - i * 8)%nat with 2%nat by lia.
  replace (i * 8 + 3 - i * 8)%nat with 3%nat by lia.
  replace (i * 8 + 4 - i * 8)%nat with 4%nat by lia.
  replace (i * 8 + 5 - i * 8)%nat with 5%nat by lia.
  replace (i * 8 + 6 - i * 8)%nat with 6%nat by lia.
  replace (i * 8 + 7 - i * 8)%nat with 7%nat by lia.
  cbn [list_insert insert]. unfold le_bytes. cbn [seq fmap list_fmap drop app].
  rewrite (to_uint8_0 w), !to_uint8_shiftr by lia.
  reflexivity.
Qed.

Lemma length_store_word (w : Z) (i : nat) (dest : list Z) :
  length (store_word w i dest) = length dest.
Proof. unfold store_word. by rewrite !length_insert. Qed.

Lemma length_words_bytes (ws : list Z) :
  length (words_bytes ws) = (8 * length ws)%nat.
Proof.
  unfold words_bytes. induction ws as [|w ws IH]; [done|].
  rewrite bind_cons, length_app, IH, length_le_bytes. simpl. lia.
Qed.

Lemma words_bytes_app (l k : list Z) :
  words_bytes (l ++ k) = words_bytes l ++ words_bytes k.
Proof. apply bind_app. Qed.

Lemma take_words_bytes (n : nat) (ws : list Z) :
  take (8 * n) (words_bytes ws) = words_bytes (take n ws).
Proof.
  revert ws. induction n as [|n IH]; intros ws.
  - by rewrite Nat.mul_0_r, !take_0.
  - destruct ws as [|w ws]; [by rewrite !take_nil|].
    unfold words_bytes in *. rewrite firstn_cons, !bind_cons.
    rewrite take_app, length_le_bytes.
    rewrite (take_ge (le_bytes w)) by (rewrite length_le_bytes; lia).
    replace (8 * S n - 8)%nat with (8 * n)%nat by lia.
    by rewrite IH.
Qed.

Lemma drop_words_bytes (n : nat) (ws : list Z) :
  drop (8 * n) (words_bytes ws) = words_bytes (drop n ws).
Proof.
  revert ws. induction n as [|n IH]; intros ws.
  - by rewrite Nat.mul_0_r, !drop_0.
  - destruct ws as [|w ws]; [by rewrite !drop_nil|].
    unfold words_bytes in *. rewrite skipn_cons, bind_cons.
    rewrite drop_app, length_le_bytes.
    rewrite (drop_ge (le_bytes w)) by (rewrite length_le_bytes; lia).
    replace (8 * S n - 8)%nat with (8 * n)%nat by lia.
    by rewrite IH.
Qed.

Lemma uint_to_uint8_from_spec (source : list Z) (n : nat) :
  ∀ (i : nat) (dest : list Z),
    (i + n ≤ length source)%nat →
    ((i + n) * 8 ≤ length dest)%nat →
    Z.of_nat ((i + n) * 8) ≤ INT_MAX →
    uint_to_uint8_from source dest i n
    = Some (take (i * 8) dest ++ words_bytes (take n (drop i source))
              ++ drop ((i + n) * 8) dest).
Proof.
  induction n as [|n IH]; intros i dest Hs Hd Hint.
  - rewrite Nat.add_0_r, take_0. cbn. by rewrite take_drop.
  - cbn [uint_to_uint8_from].
    destruct (lookup_lt_is_Some_2 source i) as [w Hw]; [lia|].
    rewrite Hw. cbn [mbind option_bind].
    rewrite decide_True by lia.
    rewrite IH by (rewrite ?length_store_word; lia).
    f_equal.
    rewrite store_word_spec by lia.
    rewrite (drop_S source w i Hw), firstn_cons.
    unfold words_bytes. rewrite bind_cons.
    rewrite take_app_ge by (rewrite length_take; lia).
    rewrite length_take, Nat.min_l by lia.
    replace (S i * 8 - i * 8)%nat with 8%nat by lia.
    rewrite take_app_length' by done.
    rewrite <- !app_assoc. do 3 f_equal.
    rewrite drop_app_ge by (rewrite length_take; lia).
    rewrite length_take, Nat.min_l by lia.
    rewrite drop_app_ge by (rewrite length_le_bytes; lia).
    rewrite length_le_bytes, drop_drop. f_equal. lia.
Qed.

Lemma uint_to_uint8_spec (PCs : list Z) (NumPCs : nat) :
  (NumPCs ≤ length PCs)%nat →
  8 * Z.of_nat NumPCs ≤ INT_MAX →
  uint_to_uint8 PCs (replicate (NumPCs * 8) 0) NumPCs
  = Some (words_bytes (take NumPCs PCs)).
Proof.
  intros H Hint. unfold uint_to_uint8.
  rewrite uint_to_uint8_from_spec by (rewrite ?length_replicate; lia).
  rewrite take_0, drop_0. cbn [app]. f_equal.
  rewrite drop_ge by (rewrite length_replicate; lia).
  by rewrite app_nil_r.
Qed.

(** ** The coverage loop against the specification blob *)

Lemma sum_list_take_S (l : list nat) (j m : nat) :
  l !! j = Some m → sum_list (take (S j) l) = (sum_list (take j l) + m)%nat.
Proof.
  intros H. rewrite (take_S_r l j m H), sum_list_with_app. simpl. lia.
Qed.

Lemma sum_list_take_mono (l : list nat) (a b : nat) :
  (a ≤ b)%nat → (sum_list (take a l) ≤ sum_list (take b l))%nat.
Proof.
  intros Hab. replace b with (a + (b - a))%nat by lia.
  rewrite <- take_take_drop, sum_list_with_app. lia.
Qed.

Lemma prefix_S (ModuleNum : list nat) (i m : nat) :
  ModuleNum !! S i = Some m →
  prefix ModuleNum (S i) = (prefix ModuleNum i + m)%nat.
Proof. intros H. unfold prefix. by apply sum_list_take_S. Qed.

Lemma take_drop_take {A : Type} (l : list A) (m p N : nat) :
  (p + m ≤ N)%nat → take m (drop p (take N l)) = take m (drop p l).
Proof.
  intros H. replace N with (p + (N - p))%nat by lia.
  rewrite <- take_drop_commute, take_take. f_equal. lia.
Qed.

Lemma blob_from_S PCs ModuleNum OutputDiffVec j n :
  blob_from PCs ModuleNum OutputDiffVec j (S n)
  = match OutputDiffVec !! j with
    | Some r => if decide (r ≠ 0)
                then pc_region PCs ModuleNum j ≫= le_bytes
                else []
    | None => []
    end ++ blob_from PCs ModuleNum OutputDiffVec (S j) n.
Proof. unfold blob_from. cbn [seq]. by rewrite bind_cons. Qed.

Lemma coverage_loop_spec (PCs : list Z) (NumPCs : nat)
    (ModuleNum : list nat) (OutputDiffVec : list Z) (n : nat) :
  ∀ (j : nat) (Coverage : list Z) (CovSize : nat),
    (j + n + 1 ≤ length ModuleNum)%nat →
    (j + n ≤ length OutputDiffVec)%nat →
    (sum_list (take (j + n + 1) ModuleNum) ≤ NumPCs)%nat →
    (NumPCs ≤ length PCs)%nat →
    8 * Z.of_nat NumPCs ≤ INT_MAX →
    length Coverage = (8 * NumPCs)%nat →
    (CovSize ≤ 8 * sum_list (take (S j) ModuleNum))%nat →
    ∃ Coverage' CovSize',
      coverage_loop ModuleNum OutputDiffVec
        (words_bytes (take NumPCs PCs)) j n
        (8 * sum_list (take j ModuleNum)) Coverage CovSize
      = Some (Coverage', CovSize')
      ∧ take CovSize' Coverage'
        = take CovSize Coverage
          ++ blob_from PCs ModuleNum OutputDiffVec j n.
Proof.
  induction n as [|n IH]; intros j Coverage CovSize HM HO Hsum HP Hint Hlen Hcov.
  - eexists _, _. split; [reflexivity|].
    unfold blob_from. cbn. by rewrite app_nil_r.
  - cbn [coverage_loop].
    destruct (lookup_lt_is_Some_2 ModuleNum j) as [m Hm]; [lia|].
    destruct (lookup_lt_is_Some_2 ModuleNum (S j)) as [m1 Hm1]; [lia|].
    destruct (lookup_lt_is_Some_2 OutputDiffVec j) as [r Hr]; [lia|].
    rewrite Hm. cbn [mbind option_bind].
    pose proof (sum_list_take_S _ _ _ Hm) as HSj.
    pose proof (sum_list_take_S _ _ _ Hm1) as HSSj.
    pose proof (sum_list_take_mono ModuleNum (S (S j)) (j + S n + 1)
                  ltac:(lia)) as Hmono.
    replace (8 * sum_list (take j ModuleNum) + 8 * m)%nat
      with (8 * sum_list (take (S j) ModuleNum))%nat by lia.
    rewrite decide_True by (unfold INT_MAX in *; lia).
    rewrite Hr. cbn [mbind option_bind].
    rewrite blob_from_S, Hr.
    assert (Hsum' : (sum_list (take (S j + n + 1) ModuleNum) ≤ NumPCs)%nat)
      by (by replace (S j + n + 1)%nat with (j + S n + 1)%nat by lia).
    destruct (decide (r ≠ 0)) as [Hnz|Hz].
    + rewrite Hm1. cbn [mbind option_bind]. unfold memcpy.
      rewrite decide_True
        by (rewrite length_words_bytes, length_take; lia).
      cbn [mbind option_bind].
      set (Cov1 := take CovSize Coverage
                   ++ take (8 * m1)
                        (drop (8 * sum_list (take (S j) ModuleNum))
                           (words_bytes (take NumPCs PCs)))
                   ++ drop (CovSize + 8 * m1) Coverage).
      assert (Hlen1 : length Cov1 = (8 * NumPCs)%nat).
      { unfold Cov1.
        rewrite !length_app, !length_take, !length_drop.
        rewrite length_words_bytes, length_take. lia. }
      destruct (IH (S j) Cov1 (CovSize + 8 * m1)%nat ltac:(lia) ltac:(lia)
                  Hsum' HP Hint Hlen1 ltac:(lia))
        as (C' & S' & Hloop & Htake).
      rewrite Hloop. eexists _, _. split; [reflexivity|]. rewrite Htake.
      unfold Cov1. rewrite app_assoc.
      rewrite take_app_length'
        by (rewrite length_app, !length_take, length_drop,
              length_words_bytes, length_take; lia).
      rewrite <- app_assoc. do 2 f_equal.
      rewrite drop_words_bytes, take_words_bytes.
      fold (words_bytes (pc_region PCs ModuleNum j)). f_equal.
      unfold pc_region, prefix. rewrite take_drop_take by lia.
      f_equal. lia.
    + destruct (IH (S j) Coverage CovSize ltac:(lia) ltac:(lia)
                  Hsum' HP Hint Hlen ltac:(lia))
        as (C' & S' & Hloop & Htake).
      rewrite Hloop. eexists _, _. split; [reflexivity|]. by rewrite Htake.
Qed.

Lemma DivergenceCoverage_spec_from UC_size PCs ModuleNum OutputDiffVec :
  DivergenceCoverage_spec UC_size PCs ModuleNum OutputDiffVec
  = blob_from PCs ModuleNum OutputDiffVec 0 UC_size.
Proof. reflexivity. Qed.

Lemma DivergenceCoverage_refines (UC_size NumPCs : nat) (PCs : list Z)
    (ModuleNum : list nat) (OutputDiffVec : list Z) :
  (UC_size + 1 ≤ length ModuleNum)%nat →
  (UC_size ≤ length OutputDiffVec)%nat →
  (prefix ModuleNum UC_size ≤ NumPCs)%nat →
  (NumPCs ≤ length PCs)%nat →
  8 * Z.of_nat NumPCs ≤ INT_MAX →
  DivergenceCoverage UC_size NumPCs PCs ModuleNum OutputDiffVec
  = Some (DivergenceCoverage_spec UC_size PCs ModuleNum OutputDiffVec).
Proof.
  intros HM HO Hsum HP Hint. unfold DivergenceCoverage.
  rewrite uint_to_uint8_spec by done. cbn [mbind option_bind].
  destruct (coverage_loop_spec PCs NumPCs ModuleNum OutputDiffVec UC_size
              0 (replicate (NumPCs * 8) 0) 0) as (C' & S' & Hloop & Htake);
    try done; try lia.
  - unfold prefix in Hsum. by replace (0 + UC_size + 1)%nat with (S UC_size) by lia.
  - rewrite length_replicate. lia.
  - cbn [take sum_list sum_list_with] in Hloop. rewrite Nat.mul_0_r in Hloop.
    rewrite Hloop. cbn [mbind option_bind]. by rewrite Htake.
Qed.


Section Events.
Context {TPC_t Corpus_t MD_t RT_t UserCallback : Type}.
Variable E : @Externals TPC_t Corpus_t MD_t RT_t UserCallback.
Let Fuzzer := (@Fuzzer TPC_t Corpus_t MD_t RT_t UserCallback).

Ltac run :=
  cbv beta iota delta
    [mbind M_bind mret M_ret gets modify fault _Exit assert liftO when emit
     Printf].

Lemma set_Out_nil (s : Fuzzer) : set_Out (fun o => o ++ []) s = s.
Proof. destruct s. unfold set_Out. cbn. by rewrite app_nil_r. Qed.

Lemma set_Out_app (s : Fuzzer) (l k : list Event) :
  set_Out (fun o => o ++ k) (set_Out (fun o => o ++ l) s)
  = set_Out (fun o => o ++ (l ++ k)) s.
Proof. destruct s. unfold set_Out. cbn. by rewrite app_assoc. Qed.

Lemma WriteUnitToFileWithPrefix_run (U : list Z) (Prefix : string)
    (s : Fuzzer) :
  WriteUnitToFileWithPrefix E U Prefix s
  = Ret tt (set_Out (fun o => o ++ artifact_events E (Options s) U Prefix) s).
Proof.
  unfold WriteUnitToFileWithPrefix, artifact_events, artifact_path.
  run. simpl.
  destruct (FuzzingOptions.SaveArtifacts (Options s)) eqn:Hsave; simpl.
  - destruct (bool_decide _); simpl; by rewrite !set_Out_app.
  - by rewrite set_Out_nil.
Qed.

Lemma DumpCurrentUnit_run (Prefix : string) (s : Fuzzer) :
  DumpCurrentUnit E Prefix s
  = Ret tt (set_Out (fun o => o ++ dump_events E s Prefix) s).
Proof.
  unfold DumpCurrentUnit, dump_events. run. simpl.
  destruct (CurrentUnitData s) as [buf|]; [|by rewrite set_Out_nil].
  simpl. destruct (bool_decide _); simpl;
    rewrite WriteUnitToFileWithPrefix_run; simpl;
    by rewrite !set_Out_app.
Qed.

Lemma PrintFinalStats_run (s : Fuzzer) :
  PrintFinalStats s
  = Ret tt (set_Out (fun o => o ++ final_stats_events (Options s)) s).
Proof.
  unfold PrintFinalStats, final_stats_events. run. simpl.
  destruct (FuzzingOptions.PrintCoverage _), (FuzzingOptions.DumpCoverage _),
    (FuzzingOptions.PrintCorpusStats _), (FuzzingOptions.PrintFinalStats _),
    (FuzzingOptions.DifferentialMode _);
    simpl; rewrite ?set_Out_app, ?set_Out_nil; reflexivity.
Qed.

Lemma HandleMalloc_exit (Size : Z) (s : Fuzzer) :
  FuzzingOptions.RssLimitMb (Options s) ≠ 0 →
  ¬ Z.shiftr Size 20 < wrap64 (FuzzingOptions.RssLimitMb (Options s)) →
  HandleMalloc E Size s
  = Exit (FuzzingOptions.ErrorExitCode (Options s))
      (set_Out (fun o => o ++ oom_events E s) s).
Proof.
  intros Hnz Hge. unfold HandleMalloc, oom_events. run. simpl.
  rewrite decide_False by tauto.
  destruct (EF_print_stack_trace E); simpl;
    rewrite DumpCurrentUnit_run; simpl;
    rewrite PrintFinalStats_run; simpl;
    by rewrite !set_Out_app.
Qed.

Lemma elem_of_artifact_events (o : FuzzingOptions.t) (U' : list Z)
    (Prefix : string) (U : list Z) (P : string) :
  EvWriteToFile U P ∈ artifact_events E o U' Prefix
  ↔ FuzzingOptions.SaveArtifacts o = true
    ∧ U = U' ∧ P = artifact_path E o U' Prefix.
Proof.
  unfold artifact_events.
  destruct (FuzzingOptions.SaveArtifacts o); [|set_solver].
  destruct (bool_decide _); set_solver.
Qed.

Lemma elem_of_dump_events (s : Fuzzer) (Prefix : string) (U : list Z)
    (P : string) :
  EvWriteToFile U P ∈ dump_events E s Prefix
  ↔ FuzzingOptions.SaveArtifacts (Options s) = true
    ∧ ∃ buf, CurrentUnitData s = Some buf
             ∧ U = range buf (CurrentUnitSize s)
             ∧ P = artifact_path E (Options s) U Prefix.
Proof.
  unfold dump_events. destruct (CurrentUnitData s) as [buf|].
  - rewrite !elem_of_app, elem_of_artifact_events.
    destruct (bool_decide _); set_solver.
  - set_solver.
Qed.

Lemma write_not_in_final_stats (o : FuzzingOptions.t) (U : list Z)
    (P : string) :
  EvWriteToFile U P ∉ final_stats_events o.
Proof.
  unfold final_stats_events.
  destruct (FuzzingOptions.PrintCoverage o), (FuzzingOptions.DumpCoverage o),
    (FuzzingOptions.PrintCorpusStats o), (FuzzingOptions.PrintFinalStats o),
    (FuzzingOptions.DifferentialMode o); set_solver.
Qed.

Lemma stat_in_final_stats (o : FuzzingOptions.t) :
  EvPrintf "stat::number_of_executed_units: %zd\n" ∈ final_stats_events o
  ↔ FuzzingOptions.PrintFinalStats o = true.
Proof.
  unfold final_stats_events.
  destruct (FuzzingOptions.PrintCoverage o), (FuzzingOptions.DumpCoverage o),
    (FuzzingOptions.PrintCorpusStats o), (FuzzingOptions.PrintFinalStats o),
    (FuzzingOptions.DifferentialMode o); set_solver.
Qed.

Lemma printf_in_artifact_events o U Prefix fmt :
  EvPrintf fmt ∈ artifact_events E o U Prefix →
  fmt = "artifact_prefix='%s'; Test unit written to %s\n"
  ∨ fmt = "Base64: %s\n".
Proof.
  unfold artifact_events.
  destruct (FuzzingOptions.SaveArtifacts o); [|set_solver].
  destruct (bool_decide _); set_solver.
Qed.

Lemma printf_in_dump_events s Prefix fmt :
  EvPrintf fmt ∈ dump_events E s Prefix →
  fmt = "; base unit: %s\n"
  ∨ fmt = "artifact_prefix='%s'; Test unit written to %s\n"
  ∨ fmt = "Base64: %s\n".
Proof.
  unfold dump_events. destruct (CurrentUnitData s) as [buf|]; [|set_solver].
  rewrite !elem_of_app. intros [H|[H|H]].
  - set_solver.
  - destruct (bool_decide _); set_solver.
  - apply printf_in_artifact_events in H. tauto.
Qed.

(** C8: the single-allocation policy of the malloc hook.  The
    limit is [(size_t)Options.RssLimitMb] Mb, [L] below.  With the limit
    off, or for a size strictly below the limit, [HandleMalloc] returns and
    changes nothing; a negative [RssLimitMb] is a limit that no allocation
    reaches.  For a non-zero limit and a size above it, [HandleMalloc]
    calls [DumpCurrentUnit("oom-")] and [PrintFinalStats] and exits with
    [ErrorExitCode]: the oom- artifact of the current unit is written
    exactly when artifacts are saved and the current-unit buffer is
    allocated, and the final statistics are printed exactly when the option
    [PrintFinalStats] is set. *)
Theorem HandleMalloc_policy (s : Fuzzer) (Size : Z) :
  0 ≤ Size →
  let o := Options s in
  let limit := FuzzingOptions.RssLimitMb o in
  let L := wrap64 limit in
  (limit = 0 ∨ Size < L * 2 ^ 20 → HandleMalloc E Size s = Ret tt s)
  ∧ (- 2 ^ 31 ≤ limit < 0 → Size < 2 ^ 64 →
     HandleMalloc E Size s = Ret tt s)
  ∧ (limit ≠ 0 → L * 2 ^ 20 < Size →
     HandleMalloc E Size s
     = Exit (FuzzingOptions.ErrorExitCode o)
         (set_Out (fun out => out ++ oom_events E s) s)
     ∧ (∀ U P, EvWriteToFile U P ∈ oom_events E s
               ↔ FuzzingOptions.SaveArtifacts o = true
                 ∧ ∃ buf, CurrentUnitData s = Some buf
                          ∧ U = range buf (CurrentUnitSize s)
                          ∧ P = artifact_path E o U "oom-")
     ∧ (EvPrintf "stat::number_of_executed_units: %zd\n" ∈ oom_events E s
        ↔ FuzzingOptions.PrintFinalStats o = true)).
Proof.
  intros HSize o limit L.
  assert (Hshift : Z.shiftr Size 20 = Size / 2 ^ 20)
    by (by rewrite Z.shiftr_div_pow2).
  assert (HL : 0 ≤ L < 2 ^ 64) by (apply Z.mod_pos_bound; lia).
  change (2 ^ 20) with 1048576 in *.
  change (2 ^ 31) with 2147483648 in *.
  change (2 ^ 64) with 18446744073709551616 in *.
  assert (Hbelow : limit = 0 ∨ Size < L * 1048576 →
                   HandleMalloc E Size s = Ret tt s).
  { intros Hbelow. unfold HandleMalloc. run. simpl.
    rewrite decide_True; [done|].
    destruct Hbelow as [H0|Hlt]; [by left|right].
    fold o limit L. rewrite Hshift.
    apply Z.div_lt_upper_bound; lia. }
  split; [exact Hbelow|]. split.
  - intros Hneg Hsize. apply Hbelow. right.
    assert (L = limit + 18446744073709551616); [|lia].
    unfold L, wrap64. change (2 ^ 64) with 18446744073709551616.
    symmetry. apply (Z.mod_unique_pos _ _ (-1)); lia.
  - intros Hnz Habove. split; [|split].
    + apply HandleMalloc_exit; fold o limit L; [done|].
      rewrite Hshift.
      assert (L ≤ Size / 1048576) by (apply Z.div_le_lower_bound; lia).
      lia.
    + intros U P. unfold oom_events.
      rewrite !elem_of_app, elem_of_dump_events.
      pose proof (write_not_in_final_stats (Options s) U P).
      destruct (EF_print_stack_trace E); set_solver.
    + unfold oom_events. rewrite !elem_of_app, stat_in_final_stats.
      split; [|tauto].
      intros [H|[H|[H|[H|H]]]]; [| |apply printf_in_dump_events in H| |done].
      * set_solver.
      * destruct (EF_print_stack_trace E); set_solver.
      * naive_solver.
      * set_solver.
Qed.
End Events.

Lemma HandleMalloc_policy_witness :
  HandleMalloc Toy.E (2 ^ 20) (toy_idle true) = Ret tt (toy_idle true)
  ∧ ∃ s', HandleMalloc Toy.E (128 * 2 ^ 20) (toy_idle true) = Exit 77 s'.
Proof.
  destruct (HandleMalloc_policy Toy.E (toy_idle true) (2 ^ 20))
    as (Hret & _ & _); [lia|].
  destruct (HandleMalloc_policy Toy.E (toy_idle true) (128 * 2 ^ 20))
    as (_ & _ & Hexit); [lia|].
  split.
  - apply Hret. right. vm_compute. reflexivity.
  - eexists. apply Hexit; vm_compute; congruence.
Defined.

(** C8 as stated fails when artifacts are not saved: the limit is 64 Mb,
    the allocation has 128 Mb, the process exits with [ErrorExitCode], and
    neither an artifact nor the final statistics have been written. *)
Lemma HandleMalloc_counterexample :
  ¬ ∃ s', HandleMalloc Toy.E (128 * 2 ^ 20) (toy_idle false) = Exit 77 s'
          ∧ (∃ U P, EvWriteToFile U P ∈ Out s')
          ∧ EvPrintf "stat::number_of_executed_units: %zd\n" ∈ Out s'.
Proof.
  intros (s' & Hexit & (U & P & Hin) & _).
  vm_compute in Hexit. injection Hexit as <-.
  cbn in Hin. set_solver.
Qed.


(** ** [memcmp] and [LooseMemeq] *)

Lemma memcmp_spec (n : nat) :
  ∀ A B : list Z,
    (n ≤ length A)%nat → (n ≤ length B)%nat →
    ∃ r, memcmp A B n = Some r
         ∧ (r = 0 ↔ ∀ i : nat, (i < n)%nat → A !! i = B !! i).
Proof.
  induction n as [|n IH]; intros A B HA HB.
  - exists 0. split; [done|]. split; [intros _ i Hi; lia|done].
  - destruct A as [|a A]; [simpl in HA; lia|].
    destruct B as [|b B]; [simpl in HB; lia|].
    simpl in HA, HB. cbn [memcmp].
    destruct (decide (a = b)) as [->|Hne].
    + destruct (IH A B) as (r & Hr & Hiff); [lia..|].
      exists r. split; [done|]. rewrite Hiff. split.
      * intros H [|i] Hi; [done|]. apply H. lia.
      * intros H i Hi. apply (H (S i)). lia.
    + exists (a - b). split; [done|]. split; [lia|].
      intros H. specialize (H 0%nat ltac:(lia)). simpl in H. congruence.
Qed.

Lemma LooseMemeq_spec (A B : list Z) (Size : Z) :
  0 ≤ Size → Size ≤ Z.of_nat (length A) → Size ≤ Z.of_nat (length B) →
  ∃ same, LooseMemeq A B Size = Some same
          ∧ (same = true ↔ ∀ i, sampled Size i → A !! i = B !! i).
Proof.
  intros H0 HA HB. unfold LooseMemeq, sampled.
  destruct (decide (Size ≤ 64)) as [Hle|Hgt].
  - destruct (memcmp_spec (Z.to_nat Size) A B) as (r & -> & Hiff); [lia..|].
    eexists. split; [reflexivity|].
    rewrite bool_decide_eq_true, Hiff. split.
    + intros H i [Hi _]. apply H. lia.
    + intros H i Hi. apply H. lia.
  - change (64 / 2) with 32.
    destruct (memcmp_spec (Z.to_nat 32) A B) as (r1 & -> & Hiff1); [lia..|].
    destruct (memcmp_spec (Z.to_nat 32) (advance A (Size - 32))
                (advance B (Size - 32))) as (r2 & Hr2 & Hiff2);
      [unfold advance; rewrite length_drop; lia..|].
    cbn [mbind option_bind].
    destruct (decide (r1 = 0)) as [Hr1|Hr1].
    + rewrite Hr2. cbn [mbind option_bind]. eexists. split; [reflexivity|].
      rewrite bool_decide_eq_true, Hiff2.
      pose proof (proj1 Hiff1 Hr1) as Hfirst.
      unfold advance. split.
      * intros H i [Hi [?|[?|?]]]; [lia|apply Hfirst; lia|].
        specialize (H (i - Z.to_nat (Size - 32))%nat ltac:(lia)).
        rewrite !lookup_drop in H.
        by replace (Z.to_nat (Size - 32) + (i - Z.to_nat (Size - 32)))%nat
          with i in H by lia.
      * intros H i Hi. rewrite !lookup_drop. apply H. lia.
    + exists false. split; [done|]. split; [done|].
      intros H. exfalso. apply Hr1, Hiff1. intros i Hi. apply H. lia.
Qed.

Ltac run :=
  cbv beta iota delta
    [mbind M_bind mret M_ret gets modify fault _Exit assert liftO when emit
     Printf].

Lemma memcpy_0 (dst src : list Z) (n : nat) :
  (n ≤ length dst)%nat → (n ≤ length src)%nat →
  memcpy dst 0 src 0 n = Some (take n src ++ drop n dst).
Proof.
  intros Hd Hs. unfold memcpy. rewrite decide_True by lia.
  by rewrite take_0, drop_0.
Qed.

Lemma range_memcpy_0 (dst src : list Z) (Size : Z) :
  Size ≤ Z.of_nat (length src) →
  range (take (Z.to_nat Size) src ++ drop (Z.to_nat Size) dst) Size
  = range src Size.
Proof.
  intros H. unfold range. rewrite take_app_le by (rewrite length_take; lia).
  rewrite take_take. f_equal. lia.
Qed.

Section Monad.
Context {TPC_t Corpus_t MD_t RT_t UserCallback : Type}.
Variable E : @Externals TPC_t Corpus_t MD_t RT_t UserCallback.
Let Fuzzer := (@Fuzzer TPC_t Corpus_t MD_t RT_t UserCallback).

Lemma bind_gets {A B : Type} (f : Fuzzer → A) (k : A → M B) (s : Fuzzer) :
  (gets f ≫= k) s = k (f s) s.
Proof. reflexivity. Qed.
Lemma bind_modify {B : Type} (f : Fuzzer → Fuzzer) (k : unit → M B)
    (s : Fuzzer) :
  (modify f ≫= k) s = k tt (f s).
Proof. reflexivity. Qed.
Lemma bind_mret {A B : Type} (a : A) (k : A → M B) (s : Fuzzer) :
  (mret a ≫= k) s = k a s.
Proof. reflexivity. Qed.
Lemma bind_emit {B : Type} (e : Event) (k : unit → M B) (s : Fuzzer) :
  (emit e ≫= k) s = k tt (set_Out (fun o => o ++ [e]) s).
Proof. reflexivity. Qed.
Lemma bind_Printf {B : Type} (fmt : string) (k : unit → M B) (s : Fuzzer) :
  (Printf fmt ≫= k) s = k tt (set_Out (fun o => o ++ [EvPrintf fmt]) s).
Proof. reflexivity. Qed.
Lemma bind_bind {A B C : Type} (m : M A) (f : A → M B) (g : B → M C)
    (s : Fuzzer) :
  ((m ≫= f) ≫= g) s = (m ≫= fun a => f a ≫= g) s.
Proof. unfold mbind, M_bind. by destruct (m s). Qed.
Lemma bind_when_true {B : Type} (m : M unit) (k : unit → M B) (s : Fuzzer) :
  (when true m ≫= k) s = (m ≫= k) s.
Proof. reflexivity. Qed.
Lemma bind_when_false {B : Type} (m : M unit) (k : unit → M B) (s : Fuzzer) :
  (when false m ≫= k) s = k tt s.
Proof. reflexivity. Qed.
Lemma bind_liftO_Some {A B : Type} (a : A) (k : A → M B) (s : Fuzzer) :
  (liftO (Some a) ≫= k) s = k a s.
Proof. reflexivity. Qed.
Lemma bind_assert_true {B : Type} (k : unit → M B) (s : Fuzzer) :
  (assert true ≫= k) s = k tt s.
Proof. reflexivity. Qed.
Lemma bind_now {B : Type} (k : Z → M B) (s : Fuzzer) :
  (now E ≫= k) s
  = k (system_clock_now E (RT s)).1
      (set_RT (fun _ => (system_clock_now E (RT s)).2) s).
Proof.
  unfold now, mbind, M_bind, gets, modify, mret, M_ret.
  by destruct (system_clock_now E (RT s)).
Qed.
Lemma bind_when_emit {B : Type} (b : bool) (e : Event) (k : unit → M B)
    (s : Fuzzer) :
  (when b (emit e) ≫= k) s
  = k tt (set_Out (fun o => o ++ if b then [e] else []) s).
Proof. destruct b; [done|]. by rewrite bind_when_false, set_Out_nil. Qed.
Lemma bind_when_Printf {B : Type} (b : bool) (fmt : string)
    (k : unit → M B) (s : Fuzzer) :
  (when b (Printf fmt) ≫= k) s
  = k tt (set_Out (fun o => o ++ if b then [EvPrintf fmt] else []) s).
Proof. apply bind_when_emit. Qed.
Lemma bind_when_assert {B : Type} (b c : bool) (k : unit → M B)
    (s : Fuzzer) :
  b && negb c = false → (when b (assert c) ≫= k) s = k tt s.
Proof. by destruct b, c. Qed.
Lemma bind_Ret {A B : Type} (m : M A) (k : A → M B) (s s' : Fuzzer) (a : A) :
  m s = Ret a s' → (m ≫= k) s = k a s'.
Proof. intros H. unfold mbind, M_bind. by rewrite H. Qed.

End Monad.

Ltac step :=
  first [ rewrite bind_bind | rewrite bind_gets | rewrite bind_modify
        | rewrite bind_mret | rewrite bind_emit | rewrite bind_Printf
        | rewrite bind_when_true | rewrite bind_when_false
        | rewrite bind_when_emit | rewrite bind_when_Printf
        | rewrite bind_liftO_Some | rewrite bind_assert_true
        | rewrite bind_now ]; cbv beta.

(** Reads of members through member updates. *)
Ltac proj :=
    try simpl (Options _); try simpl (CB _); try simpl (TPC _);
    try simpl (UC_size _); try simpl (UC_callbacks _);
    try simpl (ModuleNum _); try simpl (NumPCs _); try simpl (Corpus _);
    try simpl (MD _); try simpl (RT _); try simpl (SMR_IsClient _);
    try simpl (CurrentUnitData _); try simpl (CurrentUnitSize _);
    try simpl (BaseSha1 _); try simpl (MaxInputLen _);
    try simpl (MaxMutationLen _); try simpl (TotalNumberOfRuns _);
    try simpl (NumberOfNewUnitsAdded _);
    try simpl (NumberOfDiffUnitsAdded _); try simpl (NumberOfDuplicate _);
    try simpl (Duplicate _); try simpl (NumberofValidCases _);
    try simpl (NumberOfLeakDetectionAttempts _);
    try simpl (TimeOfLongestUnitInSeconds _);
    try simpl (UnitHadOutputDiff _); try simpl (RunningCB _);
    try simpl (HasMoreMallocsThanFrees _); try simpl (UnitStartTime _);
    try simpl (UnitStopTime _); try simpl (FeatureSetTmp _);
    try simpl (hashMap _); try simpl (CoverageHash _);
    try simpl (AllocTracer _); try simpl (PCsSet _);
    try simpl (LiveDataCopies _); try simpl (Out _);
  try simpl (TraceLevel _); try simpl (Mallocs _); try simpl (Frees _).

Ltac go := repeat first [step | progress proj].

Section Exec.
Context {TPC_t Corpus_t MD_t RT_t UserCallback : Type}.
Variable E : @Externals TPC_t Corpus_t MD_t RT_t UserCallback.
Let Fuzzer := (@Fuzzer TPC_t Corpus_t MD_t RT_t UserCallback).

Lemma elem_of_crash_events o allocated U' Size U P :
  EvWriteToFile U P ∈ crash_events E o allocated U' Size
  ↔ FuzzingOptions.SaveArtifacts o = true ∧ allocated = true
    ∧ U = U' ∧ P = artifact_path E o U' "crash-".
Proof.
  unfold crash_events. destruct allocated.
  - rewrite !elem_of_app, elem_of_artifact_events.
    destruct (bool_decide _); set_solver.
  - set_solver.
Qed.

Lemma ExecuteCallback_run (s : Fuzzer) (Data : DataPtr) (Size : Z)
    (data : list Z) (r : CBRun) (same : bool) :
  0 ≤ Size →
  Size ≤ Z.of_nat (length data) →
  deref Data s = Ret data s →
  (∀ buf, CurrentUnitData s = Some buf → Size ≤ Z.of_nat (length buf)) →
  RunCallback E (CB s) (range data Size) Size (TPC_ResetMaps E (TPC s))
    (system_clock_now E (RT s)).2 = Some r →
  (FuzzingOptions.DifferentialMode (Options s) = false → cb_Res r = 0) →
  LooseMemeq (cb_DataCopy r) data Size = Some same →
  ∃ s',
    (if same then
       ExecuteCallback E Data Size s = Ret (cb_Res r) s'
       ∧ LiveDataCopies s' = LiveDataCopies s
       ∧ CurrentUnitSize s' = 0
       ∧ Out s' = Out s ++ exec_events s data Size
     else
       ExecuteCallback E Data Size s
       = Exit (FuzzingOptions.ErrorExitCode (Options s)) s'
       ∧ Out s' = Out s ++ exec_events s data Size
                  ++ crash_events E (Options s)
                       (bool_decide (is_Some (CurrentUnitData s)))
                       (range data Size) Size).
Proof.
  intros H0 Hdata Hderef Hfit Hrun Hres Hsame.
  assert (Hzero : FuzzingOptions.DifferentialMode (Options s) = false →
                  bool_decide (cb_Res r = 0) = true)
    by (intros Hd; rewrite bool_decide_eq_true; auto).
  assert (Hpre : ∀ buf, CurrentUnitData s = Some buf →
            memcpy buf 0 data 0 (Z.to_nat Size)
            = Some (take (Z.to_nat Size) data ++ drop (Z.to_nat Size) buf)).
  { intros buf Hb. apply memcpy_0; [specialize (Hfit buf Hb)|]; lia. }
  assert (Hptr : match Data with
                 | CurrentUnitDataPtr => CurrentUnitData s = Some data
                 | BufferPtr bytes => bytes = data
                 end).
  { destruct Data; unfold deref in Hderef.
    - rewrite bind_gets in Hderef.
      destruct (CurrentUnitData s); [|done]. by injection Hderef as ->.
    - by injection Hderef as ->. }
  assert (Hassert : negb (FuzzingOptions.DifferentialMode (Options s))
                    && negb (bool_decide (cb_Res r = 0)) = false).
  { destruct (FuzzingOptions.DifferentialMode (Options s)); [done|].
    by rewrite Hzero. }
  unfold exec_events, crash_events.
  destruct (CurrentUnitData s) as [buf|] eqn:Hcur;
    try (specialize (Hpre buf eq_refl));
    destruct Data as [|bytes]; try done; try (injection Hptr as ->);
    try subst bytes.
  all: destruct same; eexists; (split;
    [ unfold ExecuteCallback, AllocTracer_Start, AllocTracer_Stop,
        CrashOnOverwrittenData, deref;
      repeat first
        [ step | progress proj | rewrite Hcur | rewrite Hpre
        | rewrite Hrun | rewrite (bind_when_assert _ _ _ _ Hassert)
        | rewrite Hsame | progress simpl (negb _)
        | rewrite (bind_Ret _ _ _ _ _ (DumpCurrentUnit_run _ _ _)); cbv beta ];
      reflexivity
    | ]).
  all: proj; unfold dump_events; proj; rewrite ?range_memcpy_0 by done.
  all: repeat split; try reflexivity.
  all: destruct (SMR_IsClient s),
         (bool_decide (FuzzingOptions.TraceMalloc (Options s) ≠ 0));
       rewrite ?Hcur; simpl; rewrite ?range_memcpy_0 by done;
       repeat (rewrite <- app_assoc; simpl); try reflexivity.
  all: by rewrite app_nil_r.
Qed.

Lemma ExecuteCallback_asserts (s : Fuzzer) (Data : DataPtr) (Size : Z)
    (data : list Z) (r : CBRun) :
  0 ≤ Size →
  Size ≤ Z.of_nat (length data) →
  deref Data s = Ret data s →
  (∀ buf, CurrentUnitData s = Some buf → Size ≤ Z.of_nat (length buf)) →
  RunCallback E (CB s) (range data Size) Size (TPC_ResetMaps E (TPC s))
    (system_clock_now E (RT s)).2 = Some r →
  FuzzingOptions.DifferentialMode (Options s) = false →
  cb_Res r ≠ 0 →
  ExecuteCallback E Data Size s = Fault AssertionFailed.
Proof.
  intros H0 Hdata Hderef Hfit Hrun Hdiff Hnz.
  assert (Hpre : ∀ buf, CurrentUnitData s = Some buf →
            memcpy buf 0 data 0 (Z.to_nat Size)
            = Some (take (Z.to_nat Size) data ++ drop (Z.to_nat Size) buf)).
  { intros buf Hb. apply memcpy_0; [specialize (Hfit buf Hb)|]; lia. }
  assert (Hptr : match Data with
                 | CurrentUnitDataPtr => CurrentUnitData s = Some data
                 | BufferPtr bytes => bytes = data
                 end).
  { destruct Data; unfold deref in Hderef.
    - rewrite bind_gets in Hderef.
      destruct (CurrentUnitData s); [|done]. by injection Hderef as ->.
    - by injection Hderef as ->. }
  destruct (CurrentUnitData s) as [buf|] eqn:Hcur;
    try (specialize (Hpre buf eq_refl));
    destruct Data as [|bytes]; try done; try (injection Hptr as ->);
    try subst bytes.
  all: unfold ExecuteCallback, AllocTracer_Start, deref;
    repeat first
      [ step | progress proj | rewrite Hcur | rewrite Hpre
      | rewrite Hrun | rewrite Hdiff | progress simpl (negb _)
      | rewrite (bool_decide_eq_false_2 _ Hnz) ];
    reflexivity.
Qed.

(** C6: the const-input check of the harness.  In
    non-differential mode a callback that returns a non-zero value fails
    [assert(Res == 0)] before any comparison.  For every other callback
    run that completes, [ExecuteCallback] compares the heap copy with the
    caller's buffer by [LooseMemeq]: every byte when [Size <= 64], the
    first 32 and the last 32 bytes when [Size > 64].  When they agree the
    heap copy is deleted and the callback's value is returned.  When they
    differ the process exits with [ErrorExitCode] after
    [DumpCurrentUnit("crash-")]: the crash- artifact of the current unit is
    written exactly when artifacts are saved and the current-unit buffer is
    allocated. *)
Theorem ExecuteCallback_checks_input (s : Fuzzer) (Data : DataPtr)
    (Size : Z) (data : list Z) (r : CBRun) :
  0 ≤ Size →
  Size ≤ Z.of_nat (length data) →
  deref Data s = Ret data s →
  (∀ buf, CurrentUnitData s = Some buf → Size ≤ Z.of_nat (length buf)) →
  RunCallback E (CB s) (range data Size) Size (TPC_ResetMaps E (TPC s))
    (system_clock_now E (RT s)).2 = Some r →
  length (cb_DataCopy r) = Z.to_nat Size →
  let o := Options s in
  let allocated := bool_decide (is_Some (CurrentUnitData s)) in
  if negb (FuzzingOptions.DifferentialMode o)
     && negb (bool_decide (cb_Res r = 0))
  then ExecuteCallback E Data Size s = Fault AssertionFailed
  else
    ∃ same s',
      LooseMemeq (cb_DataCopy r) data Size = Some same
      ∧ (same = true
         ↔ ∀ i, sampled Size i → cb_DataCopy r !! i = data !! i)
      ∧ (if same then
           ExecuteCallback E Data Size s = Ret (cb_Res r) s'
           ∧ LiveDataCopies s' = LiveDataCopies s
           ∧ CurrentUnitSize s' = 0
           ∧ Out s' = Out s ++ exec_events s data Size
         else
           ExecuteCallback E Data Size s
           = Exit (FuzzingOptions.ErrorExitCode o) s'
           ∧ Out s' = Out s ++ exec_events s data Size
                      ++ crash_events E o allocated (range data Size) Size)
      ∧ (∀ U P, EvWriteToFile U P ∉ exec_events s data Size)
      ∧ (∀ U P, EvWriteToFile U P
                  ∈ crash_events E o allocated (range data Size) Size
                ↔ FuzzingOptions.SaveArtifacts o = true
                  ∧ is_Some (CurrentUnitData s)
                  ∧ U = range data Size
                  ∧ P = artifact_path E o (range data Size) "crash-").
Proof.
  intros H0 Hdata Hderef Hfit Hrun Hlen o allocated.
  destruct (negb (FuzzingOptions.DifferentialMode o)
            && negb (bool_decide (cb_Res r = 0))) eqn:Hassert.
  { apply andb_true_iff in Hassert as [Hdiff Hnz].
    apply negb_true_iff in Hdiff, Hnz. apply bool_decide_eq_false in Hnz.
    by apply (ExecuteCallback_asserts s Data Size data r). }
  assert (Hres : FuzzingOptions.DifferentialMode (Options s) = false →
                 cb_Res r = 0).
  { intros Hdiff. fold o in Hdiff. rewrite Hdiff in Hassert.
    cbn [negb andb] in Hassert. apply negb_false_iff in Hassert.
    by apply bool_decide_eq_true in Hassert. }
  destruct (LooseMemeq_spec (cb_DataCopy r) data Size)
    as (same & Hsame & Hiff); [lia..|].
  destruct (ExecuteCallback_run s Data Size data r same H0 Hdata Hderef
              Hfit Hrun Hres Hsame) as [s' Hexec].
  subst o allocated.
  exists same, s'.
  split; [exact Hsame|]. split; [exact Hiff|]. split; [exact Hexec|].
  split.
  - intros U P. unfold exec_events. rewrite elem_of_app.
    destruct (SMR_IsClient s),
      (bool_decide (FuzzingOptions.TraceMalloc (Options s) ≠ 0));
      rewrite ?elem_of_cons, ?elem_of_nil; naive_solver.
  - intros U P. rewrite elem_of_crash_events.
    rewrite bool_decide_eq_true. naive_solver.
Qed.
End Exec.

(** An honest target leaves its input alone: the harness returns its
    value. *)
Lemma ExecuteCallback_checks_input_witness :
  ∃ same s',
    LooseMemeq [1; 2; 3] [1; 2; 3] 3 = Some same
    ∧ ExecuteCallback Toy.E (BufferPtr [1; 2; 3]) 3 (toy_idle true)
      = Ret 0 s'.
Proof.
  destruct (ExecuteCallback_checks_input Toy.E (toy_idle true)
              (BufferPtr [1; 2; 3]) 3 [1; 2; 3]
              (mkCBRun 0 [1; 2; 3]
                 (mkTracePC [0; 0] [0; 4096; 2; 0; 0]
                    (Toy.mkMaps [1] 1 [] []))
                 1 0 0))
    as (same & s' & Hsame & Hiff & Hexec & _).
  - lia.
  - simpl. lia.
  - reflexivity.
  - intros buf [= <-]. simpl. lia.
  - vm_compute. reflexivity.
  - reflexivity.
  - exists same, s'. split; [exact Hsame|].
    assert (same = true) as ->.
    { vm_compute in Hsame. by injection Hsame as <-. }
    apply Hexec.
Defined.

(** C6 as stated fails when the current-unit buffer is not allocated
    (running individual inputs): target 2 overwrites its input, the
    process exits with [ErrorExitCode], and no artifact is written. *)
Lemma ExecuteCallback_counterexample :
  let s := Toy.fuzzer (Toy.options true true) [2]%nat [[65]] [] None in
  LooseMemeq [0; 2; 3] [1; 2; 3] 3 = Some false
  ∧ ¬ ∃ s', ExecuteCallback Toy.E (BufferPtr [1; 2; 3]) 3 s = Exit 77 s'
            ∧ ∃ U P, EvWriteToFile U P ∈ Out s'.
Proof.
  split; [reflexivity|].
  intros (s' & Hexit & U & P & Hin).
  vm_compute in Hexit. injection Hexit as <-.
  cbn in Hin. set_solver.
Qed.


Lemma append_assoc (a b c : string) : (a +:+ b) +:+ c = a +:+ (b +:+ c).
Proof.
  induction a as [|x a IH]; [done|].
  change (String x ((a +:+ b) +:+ c) = String x (a +:+ (b +:+ c))).
  by rewrite IH.
Qed.

Lemma append_empty_r (a : string) : a +:+ "" = a.
Proof.
  induction a as [|x a IH]; [done|].
  change (String x (a +:+ "") = String x a). by rewrite IH.
Qed.

Lemma scan_outputs_spec (v : list Z) :
  ∀ (has_zero has_nonzero : bool) (SS : string),
    scan_outputs v has_zero has_nonzero SS
    = (has_zero || existsb (fun r => bool_decide (r = 0)) v,
       has_nonzero || existsb (fun r => bool_decide (r ≠ 0)) v,
       SS +:+ outvec v).
Proof.
  induction v as [|r v IH]; intros hz hn SS.
  - cbn [scan_outputs existsb outvec foldr].
    by rewrite !orb_false_r, append_empty_r.
  - cbn [scan_outputs existsb outvec foldr].
    destruct (decide (r = 0)) as [->|Hr]; rewrite IH.
    + rewrite bool_decide_eq_true_2, bool_decide_eq_false_2
        by naive_solver.
      rewrite !append_assoc. cbn [orb]. by rewrite orb_true_r.
    + rewrite bool_decide_eq_false_2, bool_decide_eq_true_2 by done.
      rewrite !append_assoc. cbn [orb]. by rewrite orb_true_r.
Qed.

Lemma mixed_true (v : list Z) :
  mixed v = true ↔ 0 ∈ v ∧ ∃ r, r ∈ v ∧ r ≠ 0.
Proof.
  unfold mixed. rewrite andb_true_iff, !existsb_exists. split.
  - intros [(z & Hz & Hz0) (r & Hr & Hr0)].
    apply bool_decide_eq_true in Hz0 as ->.
    apply bool_decide_eq_true in Hr0.
    split; [by apply list_elem_of_In|].
    exists r. split; [by apply list_elem_of_In|done].
  - intros [H0 (r & Hr & Hnz)]. split.
    + exists 0. split; [by apply list_elem_of_In|by apply bool_decide_eq_true].
    + exists r. split; [by apply list_elem_of_In|by apply bool_decide_eq_true].
Qed.

Lemma mixed_false (v : list Z) :
  mixed v = false ↔ (∀ r, r ∈ v → r = 0) ∨ (∀ r, r ∈ v → r ≠ 0).
Proof.
  split.
  - intros Hm. destruct (decide (0 ∈ v)) as [H0|H0].
    + left. intros r Hr. destruct (decide (r = 0)) as [|Hnz]; [done|].
      assert (mixed v = true)
        by (apply mixed_true; split; [done | by exists r]).
      congruence.
    + right. intros r Hr ->. done.
  - intros H. destruct (mixed v) eqn:Hm; [|done].
    destruct (proj1 (mixed_true v) Hm) as (H0 & r & Hr & Hnz).
    exfalso. destruct H as [H|H]; [by apply Hnz, H | by apply (H 0)].
Qed.

Section Dump.
Context {TPC_t Corpus_t MD_t RT_t UserCallback : Type}.
Variable E : @Externals TPC_t Corpus_t MD_t RT_t UserCallback.
Let Fuzzer := (@Fuzzer TPC_t Corpus_t MD_t RT_t UserCallback).

Lemma DumpUnitIfDiff_uniform (Data : DataPtr) (Size : Z) (s : Fuzzer) :
  mixed (OutputDiffVec (TPC s)) = false →
  DumpUnitIfDiff E Data Size s = Ret tt s.
Proof.
  intros Hm. unfold DumpUnitIfDiff. rewrite bind_gets. cbv beta.
  unfold id. rewrite scan_outputs_spec. cbn [orb].
  unfold mixed in Hm. by rewrite Hm.
Qed.

Lemma DumpUnitIfDiff_known (Data : DataPtr) (Size : Z) (s : Fuzzer)
    (fp : string) :
  mixed (OutputDiffVec (TPC s)) = true →
  fingerprint E s = Some fp →
  is_Some (CoverageHash s !! fp) →
  DumpUnitIfDiff E Data Size s = Ret tt (set_Duplicate incr s).
Proof.
  intros Hm Hfp Hknown. unfold DumpUnitIfDiff. rewrite bind_gets. cbv beta.
  unfold id. rewrite scan_outputs_spec. cbn [orb].
  unfold mixed in Hm. rewrite Hm.
  unfold fingerprint, coverage_blob in Hfp.
  destruct (DivergenceCoverage _ _ _ _ _) as [blob|]; [|done].
  injection Hfp as Hfp. go. rewrite Hfp. by rewrite decide_True.
Qed.

Lemma DumpUnitIfDiff_fresh (Data : DataPtr) (Size : Z) (s : Fuzzer)
    (fp : string) (data : list Z) :
  mixed (OutputDiffVec (TPC s)) = true →
  fingerprint E s = Some fp →
  CoverageHash s !! fp = None →
  deref Data s = Ret data s →
  DumpUnitIfDiff E Data Size s
  = Ret tt (record_divergence E fp (range data Size) s).
Proof.
  intros Hm Hfp Hfresh Hderef. unfold DumpUnitIfDiff. rewrite bind_gets.
  cbv beta. unfold id. rewrite scan_outputs_spec. cbn [orb].
  unfold mixed in Hm. rewrite Hm.
  unfold fingerprint, coverage_blob in Hfp.
  destruct (DivergenceCoverage _ _ _ _ _) as [blob|]; [|done].
  injection Hfp as Hfp. go. rewrite Hfp.
  rewrite decide_False by (rewrite Hfresh; by intros [? ?]).
  go.
  assert (Hd : deref Data
                 (set_NumberOfDiffUnitsAdded incr
                    (set_UnitHadOutputDiff (fun _ => true)
                       (set_CoverageHash <[fp := true]> s)))
               = Ret data
                   (set_NumberOfDiffUnitsAdded incr
                      (set_UnitHadOutputDiff (fun _ => true)
                         (set_CoverageHash <[fp := true]> s)))).
  { destruct Data; unfold deref in *; [|by injection Hderef as ->].
    rewrite bind_gets in *. proj.
    destruct (CurrentUnitData s); [|done]. by injection Hderef as ->. }
  rewrite (bind_Ret _ _ _ _ _ Hd). cbv beta.
  rewrite WriteUnitToFileWithPrefix_run. reflexivity.
Qed.

Lemma DumpUnitIfDiff_null (Size : Z) (s : Fuzzer) (fp : string) :
  mixed (OutputDiffVec (TPC s)) = true →
  fingerprint E s = Some fp →
  CoverageHash s !! fp = None →
  CurrentUnitData s = None →
  DumpUnitIfDiff E CurrentUnitDataPtr Size s = Fault Undefined.
Proof.
  intros Hm Hfp Hfresh Hnull. unfold DumpUnitIfDiff. rewrite bind_gets.
  cbv beta. unfold id. rewrite scan_outputs_spec. cbn [orb].
  unfold mixed in Hm. rewrite Hm.
  unfold fingerprint, coverage_blob in Hfp.
  destruct (DivergenceCoverage _ _ _ _ _) as [blob|]; [|done].
  injection Hfp as Hfp. go. rewrite Hfp.
  rewrite decide_False by (rewrite Hfresh; by intros [? ?]).
  go. unfold deref. go. by rewrite Hnull.
Qed.

Lemma DumpUnitIfDiff_no_blob (Data : DataPtr) (Size : Z) (s : Fuzzer) :
  mixed (OutputDiffVec (TPC s)) = true →
  fingerprint E s = None →
  DumpUnitIfDiff E Data Size s = Fault Undefined.
Proof.
  intros Hm Hfp. unfold DumpUnitIfDiff. rewrite bind_gets.
  cbv beta. unfold id. rewrite scan_outputs_spec. cbn [orb].
  unfold mixed in Hm. rewrite Hm.
  unfold fingerprint, coverage_blob in Hfp.
  by destruct (DivergenceCoverage _ _ _ _ _) as [blob|].
Qed.

(** ** Divergence artifacts over a history *)

Lemma wrote_refl (s : Fuzzer) : wrote s s = false.
Proof. unfold wrote. by rewrite drop_all. Qed.

Lemma wrote_artifact (o : FuzzingOptions.t) (U : list Z) (Prefix : string) :
  existsb is_write (artifact_events E o U Prefix)
  = FuzzingOptions.SaveArtifacts o.
Proof.
  unfold artifact_events. by destruct (FuzzingOptions.SaveArtifacts o).
Qed.

(** What one returning call does to the set of fingerprints. *)
Lemma DumpUnitIfDiff_effect (Data : DataPtr) (Size : Z) (s1 s2 : Fuzzer) :
  DumpUnitIfDiff E Data Size s1 = Ret tt s2 →
  (wrote s1 s2 = true →
   ∃ fp, fingerprint E s1 = Some fp ∧ CoverageHash s1 !! fp = None
         ∧ is_Some (CoverageHash s2 !! fp))
  ∧ (∀ k, CoverageHash s2 !! k = None → CoverageHash s1 !! k = None).
Proof.
  intros Hret.
  destruct (mixed (OutputDiffVec (TPC s1))) eqn:Hm.
  2: { rewrite DumpUnitIfDiff_uniform in Hret by done.
       injection Hret as <-. by rewrite wrote_refl. }
  destruct (fingerprint E s1) as [fp|] eqn:Hfp.
  2: { by rewrite DumpUnitIfDiff_no_blob in Hret. }
  destruct (CoverageHash s1 !! fp) as [b|] eqn:Hlook.
  { rewrite (DumpUnitIfDiff_known _ _ _ fp) in Hret by (try done; eauto).
    injection Hret as <-. unfold wrote. proj. by rewrite drop_all. }
  assert (∃ data, deref Data s1 = Ret data s1) as [data Hderef].
  { destruct Data as [|bytes]; [|by exists bytes].
    destruct (CurrentUnitData s1) as [buf|] eqn:Hcur.
    - exists buf. unfold deref. rewrite bind_gets. by rewrite Hcur.
    - by rewrite (DumpUnitIfDiff_null _ _ fp) in Hret. }
  rewrite (DumpUnitIfDiff_fresh _ _ _ fp data) in Hret by done.
  injection Hret as <-. unfold record_divergence. proj. split.
  - intros _. exists fp. repeat split; [done|].
    rewrite lookup_insert_eq. eauto.
  - intros k Hk. destruct (decide (fp = k)) as [->|Hne].
    + by rewrite lookup_insert_eq in Hk.
    + by rewrite lookup_insert_ne in Hk.
Qed.

Lemma diff_artifacts_fresh (h : list ((Fuzzer → Fuzzer) * DataPtr * Z)) :
  (∀ x, x ∈ h → ∀ s, CoverageHash (x.1.1 s) = CoverageHash s) →
  ∀ (s : Fuzzer) (fp : string),
    fp ∈ diff_artifacts E h s → CoverageHash s !! fp = None.
Proof.
  induction h as [|[[other Data] Size] h IH]; intros Hkeep s fp Hin.
  - by apply elem_of_nil in Hin.
  - cbn [diff_artifacts] in Hin.
    pose proof (Hkeep _ (list_elem_of_here _ _) s) as Hother.
    cbn [fst] in Hother.
    destruct (DumpUnitIfDiff E Data Size (other s)) as [[] s2| |] eqn:Hd;
      [|by apply elem_of_nil in Hin..].
    destruct (DumpUnitIfDiff_effect _ _ _ _ Hd) as [Hw Hmono].
    apply elem_of_app in Hin as [Hin|Hin].
    + destruct (wrote (other s) s2); [|by apply elem_of_nil in Hin].
      destruct (Hw eq_refl) as (fp' & Hfp & Hnone & _).
      rewrite Hfp in Hin. apply list_elem_of_singleton in Hin as ->.
      by rewrite <- Hother.
    + rewrite <- Hother. apply Hmono. apply IH; [|done].
      intros x Hx. apply Hkeep. by apply list_elem_of_further.
Qed.

Lemma diff_artifacts_NoDup (h : list ((Fuzzer → Fuzzer) * DataPtr * Z)) :
  (∀ x, x ∈ h → ∀ s, CoverageHash (x.1.1 s) = CoverageHash s) →
  ∀ s : Fuzzer, NoDup (diff_artifacts E h s).
Proof.
  induction h as [|[[other Data] Size] h IH]; intros Hkeep s.
  - constructor.
  - cbn [diff_artifacts].
    assert (Hkeep' : ∀ x, x ∈ h → ∀ s, CoverageHash (x.1.1 s) = CoverageHash s)
      by (intros x Hx; apply Hkeep; by apply list_elem_of_further).
    destruct (DumpUnitIfDiff E Data Size (other s)) as [[] s2| |] eqn:Hd;
      [|constructor..].
    destruct (DumpUnitIfDiff_effect _ _ _ _ Hd) as [Hw Hmono].
    destruct (wrote (other s) s2); [|by apply IH].
    destruct (Hw eq_refl) as (fp & Hfp & Hnone & Hsome).
    rewrite Hfp. cbn [option_list app]. constructor; [|by apply IH].
    intros Hin. apply diff_artifacts_fresh in Hin; [|done].
    rewrite Hin in Hsome. by destruct Hsome.
Qed.

(** C4: the divergence gate.  On a vector of return codes that is all zero
    or all non-zero [DumpUnitIfDiff] returns and changes nothing: no
    artifact, no fingerprint, no counter.  Whenever a call does anything
    else, the vector holds a zero and a non-zero entry. *)
Theorem DumpUnitIfDiff_gate (s : Fuzzer) (Data : DataPtr) (Size : Z) :
  let v := OutputDiffVec (TPC s) in
  ((∀ r, r ∈ v → r = 0) ∨ (∀ r, r ∈ v → r ≠ 0) →
   DumpUnitIfDiff E Data Size s = Ret tt s)
  ∧ (∀ o, DumpUnitIfDiff E Data Size s = o → o ≠ Ret tt s →
          0 ∈ v ∧ ∃ r, r ∈ v ∧ r ≠ 0).
Proof.
  intros v. split.
  - intros Hu. apply DumpUnitIfDiff_uniform. by apply mixed_false.
  - intros o Ho Hne. apply mixed_true.
    destruct (mixed v) eqn:Hm; [done|].
    rewrite DumpUnitIfDiff_uniform in Ho by done. congruence.
Qed.

(** C2: divergence fingerprints.  For a divergence whose
    fingerprint is already in [CoverageHash], [Duplicate] is incremented
    and nothing else changes.  For an unseen fingerprint it is inserted,
    [UnitHadOutputDiff] is set, [NumberOfDiffUnitsAdded] is incremented and
    [WriteUnitToFileWithPrefix] is called with the prefix diff_<outvec>_:
    when artifacts are saved exactly one file is written, named
    [ArtifactPrefix ++ diff_<outvec>_ ++ Hash(unit)] (or
    [ExactArtifactPath] when that is set), and none otherwise.  Over any
    history of calls, among activity that leaves [CoverageHash] alone, no
    fingerprint has two calls that write a file. *)
Theorem DumpUnitIfDiff_fingerprint_once (s : Fuzzer) (Data : DataPtr)
    (Size : Z) (data : list Z) (fp : string) :
  mixed (OutputDiffVec (TPC s)) = true →
  fingerprint E s = Some fp →
  deref Data s = Ret data s →
  let o := Options s in
  let U := range data Size in
  let Prefix := "diff_" +:+ outvec (OutputDiffVec (TPC s)) in
  (is_Some (CoverageHash s !! fp) →
   DumpUnitIfDiff E Data Size s = Ret tt (set_Duplicate incr s))
  ∧ (CoverageHash s !! fp = None →
     ∃ s', DumpUnitIfDiff E Data Size s = Ret tt s'
           ∧ CoverageHash s' = <[fp := true]> (CoverageHash s)
           ∧ UnitHadOutputDiff s' = true
           ∧ NumberOfDiffUnitsAdded s' = incr (NumberOfDiffUnitsAdded s)
           ∧ Duplicate s' = Duplicate s
           ∧ Out s' = Out s ++ artifact_events E o U Prefix
           ∧ length (filter (fun e => is_write e = true)
                       (artifact_events E o U Prefix))
             = (if FuzzingOptions.SaveArtifacts o then 1 else 0)%nat
           ∧ (∀ U' P, EvWriteToFile U' P ∈ artifact_events E o U Prefix
                      ↔ FuzzingOptions.SaveArtifacts o = true ∧ U' = U
                        ∧ P = artifact_path E o U Prefix))
  ∧ (∀ h s0,
       (∀ x, x ∈ h → ∀ s, CoverageHash (x.1.1 s) = CoverageHash s) →
       NoDup (diff_artifacts E h s0)).
Proof.
  intros Hm Hfp Hderef o U Prefix. split; [|split].
  - intros Hknown. by apply (DumpUnitIfDiff_known _ _ _ fp).
  - intros Hfresh. eexists. split.
    { by apply (DumpUnitIfDiff_fresh _ _ _ fp data). }
    unfold record_divergence. proj.
    do 5 (split; [reflexivity|]). split.
    + unfold artifact_events.
      destruct (FuzzingOptions.SaveArtifacts o); [|done].
      by destruct (bool_decide _).
    + intros U' P. apply elem_of_artifact_events.
  - intros h s0 Hkeep. by apply diff_artifacts_NoDup.
Qed.

(** C3: the fingerprinted blob.  When the callback regions fit the PC
    table, the blob that [DumpUnitIfDiff] hashes is the concatenation, over
    the callbacks [i] with a non-zero return code in increasing [i], of the
    words [prefix i .. prefix (i + 1)) of the PC table, each packed
    little-endian into 8 bytes, where [prefix i] is
    [ModuleNum[0] + ... + ModuleNum[i]]; callbacks that returned 0
    contribute nothing.  The fingerprint looked up and recorded in
    [CoverageHash] is the SHA-1 of that blob. *)
Theorem DumpUnitIfDiff_blob (s : Fuzzer) (Data : DataPtr) (Size : Z)
    (data : list Z) :
  let N := Z.to_nat (to_int (UC_size s)) in
  let blob := DivergenceCoverage_spec N (PCs (TPC s)) (ModuleNum s)
                (OutputDiffVec (TPC s)) in
  let fp := Sha1ToString E (ComputeSHA1 E blob) in
  (N + 1 ≤ length (ModuleNum s))%nat →
  (N ≤ length (OutputDiffVec (TPC s)))%nat →
  (prefix (ModuleNum s) N ≤ NumPCs s)%nat →
  (NumPCs s ≤ length (PCs (TPC s)))%nat →
  8 * Z.of_nat (NumPCs s) ≤ INT_MAX →
  coverage_blob s = Some blob
  ∧ fingerprint E s = Some fp
  ∧ (mixed (OutputDiffVec (TPC s)) = true →
     deref Data s = Ret data s →
     ∃ s', DumpUnitIfDiff E Data Size s = Ret tt s'
           ∧ is_Some (CoverageHash s' !! fp)
           ∧ s' = match CoverageHash s !! fp with
                  | Some _ => set_Duplicate incr s
                  | None => record_divergence E fp (range data Size) s
                  end).
Proof.
  intros N blob fp HM HO Hpre HP Hint.
  assert (Hblob : coverage_blob s = Some blob)
    by (by apply DivergenceCoverage_refines).
  assert (Hfp : fingerprint E s = Some fp)
    by (unfold fingerprint; by rewrite Hblob).
  split; [done|]. split; [done|].
  intros Hm Hderef.
  destruct (CoverageHash s !! fp) as [b|] eqn:Hlook.
  - eexists. split; [apply (DumpUnitIfDiff_known _ _ _ fp); eauto|].
    split; [|done]. proj. rewrite Hlook. eauto.
  - eexists. split; [by apply (DumpUnitIfDiff_fresh _ _ _ fp data)|].
    split; [|done]. unfold record_divergence. proj.
    rewrite lookup_insert_eq. eauto.
Qed.
End Dump.

Lemma DumpUnitIfDiff_gate_witness :
  DumpUnitIfDiff Toy.E (BufferPtr [0; 255]) 2 (toy_idle true)
  = Ret tt (toy_idle true).
Proof.
  apply (DumpUnitIfDiff_gate Toy.E (toy_idle true)).
  left. intros r Hr. cbn in Hr. set_solver.
Defined.

Lemma DumpUnitIfDiff_fingerprint_once_witness :
  ∃ s', DumpUnitIfDiff Toy.E (BufferPtr [0; 255]) 2 (toy_diverged true)
        = Ret tt s'
        ∧ UnitHadOutputDiff s' = true
        ∧ Out s' = [EvWriteToFile [0; 255] "diff_0_1_0.255.";
                    EvPrintf "artifact_prefix='%s'; Test unit written to %s\n";
                    EvPrintf "Base64: %s\n"].
Proof.
  destruct (DumpUnitIfDiff_fingerprint_once Toy.E (toy_diverged true)
              (BufferPtr [0; 255]) 2 [0; 255]
              "1.16.0.0.0.0.0.0.1.0.0.0.0.0.0.0.")
    as (_ & Hfresh & _); [reflexivity..|].
  destruct Hfresh as (s' & Hret & _ & Hdiff & _ & _ & Hout & _);
    [reflexivity|].
  exists s'. split; [exact Hret|]. split; [exact Hdiff|].
  rewrite Hout. reflexivity.
Defined.

(** C2 as stated fails when artifacts are not saved: the fingerprint is
    unseen and is admitted, yet no file is written. *)
Lemma DumpUnitIfDiff_counterexample :
  let s := toy_diverged false in
  fingerprint Toy.E s = Some "1.16.0.0.0.0.0.0.1.0.0.0.0.0.0.0."
  ∧ CoverageHash s !! "1.16.0.0.0.0.0.0.1.0.0.0.0.0.0.0." = None
  ∧ ¬ ∃ s', DumpUnitIfDiff Toy.E (BufferPtr [0; 255]) 2 s = Ret tt s'
            ∧ ∃ U P, EvWriteToFile U P ∈ Out s'.
Proof.
  split; [reflexivity|]. split; [reflexivity|].
  intros (s' & Hret & U & P & Hin).
  vm_compute in Hret. injection Hret as <-.
  cbn in Hin. set_solver.
Qed.

Lemma DumpUnitIfDiff_blob_witness :
  coverage_blob (toy_diverged true)
  = Some [1; 16; 0; 0; 0; 0; 0; 0; 1; 0; 0; 0; 0; 0; 0; 0].
Proof.
  destruct (DumpUnitIfDiff_blob Toy.E (toy_diverged true)
              (BufferPtr [0; 255]) 2 [0; 255]) as [Hblob _];
    [vm_compute; lia | vm_compute; lia | vm_compute; lia | vm_compute; lia
    | vm_compute; discriminate |].
  exact Hblob.
Defined.


(** ** Frames: what a member function leaves alone *)

Section Frames.
Context {TPC_t Corpus_t MD_t RT_t UserCallback : Type}.
Variable E : @Externals TPC_t Corpus_t MD_t RT_t UserCallback.
Let Fuzzer := (@Fuzzer TPC_t Corpus_t MD_t RT_t UserCallback).

Section Rules.
Variable R : Fuzzer → Fuzzer → Prop.
Hypothesis R_refl : ∀ s, R s s.
Hypothesis R_trans : ∀ s1 s2 s3, R s1 s2 → R s2 s3 → R s1 s3.

Lemma keeps_mret {A : Type} (a : A) : keeps R (mret a).
Proof. intros s. apply R_refl. Qed.

Lemma keeps_gets {A : Type} (f : Fuzzer → A) : keeps R (gets f).
Proof. intros s. apply R_refl. Qed.

Lemma keeps_fault {A : Type} (why : FaultKind) : keeps R (fault (A := A) why).
Proof. intros s. exact I. Qed.

Lemma keeps_Exit {A : Type} (code : Z) : keeps R (_Exit (A := A) code).
Proof. intros s. apply R_refl. Qed.

Lemma keeps_assert (b : bool) : keeps R (assert b).
Proof. intros s. destruct b; [apply R_refl|exact I]. Qed.

Lemma keeps_liftO {A : Type} (o : option A) : keeps R (liftO o).
Proof. intros s. destruct o; [apply R_refl|exact I]. Qed.

Lemma keeps_modify (f : Fuzzer → Fuzzer) :
  (∀ s, R s (f s)) → keeps R (modify f).
Proof. intros H s. apply H. Qed.

Lemma keeps_bind {A B : Type} (m : M A) (k : A → M B) :
  keeps R m → (∀ a, keeps R (k a)) → keeps R (m ≫= k).
Proof.
  intros Hm Hk s. unfold mbind, M_bind. specialize (Hm s).
  destruct (m s) as [a s1|code s1|why]; [|done..].
  specialize (Hk a s1). destruct (k a s1); eauto.
Qed.

Lemma keeps_when (b : bool) (m : M unit) :
  keeps R m → keeps R (when b m).
Proof. intros H. destruct b; [done|apply keeps_mret]. Qed.
End Rules.
End Frames.

(** Proves [R s (f s)] for a member update [f] of a member outside [R]. *)
Ltac frame_update := intros; repeat split; reflexivity.

(** One structural step of a frame proof for a relation with the given
    reflexivity and transitivity lemmas. *)
Ltac keeps_step Hrefl Htrans :=
  first
    [ match goal with H : context [keeps] |- _ => apply H end
    | apply keeps_mret; exact Hrefl
    | apply keeps_gets; exact Hrefl
    | apply keeps_fault
    | apply keeps_Exit; exact Hrefl
    | apply keeps_assert; exact Hrefl
    | apply keeps_liftO; exact Hrefl
    | apply keeps_modify; solve [frame_update]
    | apply keeps_when; [exact Hrefl|]
    | apply keeps_bind; [exact Htrans| |intros ?]
    | match goal with
      | |- keeps _ (if ?b then _ else _) => destruct b
      | |- keeps _ (match ?x with _ => _ end) => destruct x
      | |- keeps _ (let '(_, _) := ?x in _) => destruct x
      end ].

Section HarnessFrame.
Context {TPC_t Corpus_t MD_t RT_t UserCallback : Type}.
Variable E : @Externals TPC_t Corpus_t MD_t RT_t UserCallback.
Let Fuzzer := (@Fuzzer TPC_t Corpus_t MD_t RT_t UserCallback).
Let HF := (@harness_frame TPC_t Corpus_t MD_t RT_t UserCallback).

Lemma harness_frame_refl (s : Fuzzer) : harness_frame s s.
Proof. by repeat split. Qed.

Lemma harness_frame_trans (s1 s2 s3 : Fuzzer) :
  harness_frame s1 s2 → harness_frame s2 s3 → harness_frame s1 s3.
Proof.
  unfold harness_frame. intros H12 H23.
  repeat match goal with H : _ ∧ _ |- _ => destruct H as [? H] end.
  repeat split; congruence.
Qed.

Ltac hf :=
  unfold HF; repeat keeps_step harness_frame_refl harness_frame_trans.

Lemma hf_emit (e : Event) : keeps HF (emit e).
Proof. unfold emit. hf. Qed.

Lemma hf_Printf (fmt : string) : keeps HF (Printf fmt).
Proof. apply hf_emit. Qed.

Lemma hf_deref (Data : DataPtr) : keeps HF (deref Data).
Proof. unfold deref. hf. Qed.

Lemma hf_now : keeps HF (now E).
Proof. unfold now. hf. Qed.

Lemma hf_AllocTracer_Start (Level : Z) :
  keeps HF (AllocTracer_Start Level).
Proof. pose proof hf_Printf. unfold AllocTracer_Start. hf. Qed.

Lemma hf_AllocTracer_Stop : keeps HF AllocTracer_Stop.
Proof. pose proof hf_Printf. unfold AllocTracer_Stop. hf. Qed.

Lemma hf_PrintStats (Where : string) : keeps HF (PrintStats Where).
Proof. pose proof hf_emit. unfold PrintStats. hf. Qed.

Lemma hf_WriteUnitToFileWithPrefix (U : list Z) (Prefix : string) :
  keeps HF (WriteUnitToFileWithPrefix E U Prefix).
Proof.
  pose proof hf_emit. pose proof hf_Printf.
  unfold WriteUnitToFileWithPrefix. hf.
Qed.

Lemma hf_DumpCurrentUnit (Prefix : string) :
  keeps HF (DumpCurrentUnit E Prefix).
Proof.
  pose proof hf_emit. pose proof hf_Printf.
  pose proof hf_WriteUnitToFileWithPrefix.
  unfold DumpCurrentUnit. hf.
Qed.

Lemma hf_CrashOnOverwrittenData :
  keeps HF (CrashOnOverwrittenData E).
Proof.
  pose proof hf_Printf. pose proof hf_DumpCurrentUnit.
  unfold CrashOnOverwrittenData. hf.
Qed.

Lemma hf_ExecuteCallback (Data : DataPtr) (Size : Z) :
  keeps HF (ExecuteCallback E Data Size).
Proof.
  pose proof hf_emit. pose proof hf_deref. pose proof hf_now.
  pose proof hf_AllocTracer_Start. pose proof hf_AllocTracer_Stop.
  pose proof hf_CrashOnOverwrittenData.
  unfold ExecuteCallback. hf.
Qed.

Lemma hf_PrintPulseAndReportSlowInput (Data : DataPtr) (Size : Z) :
  keeps HF (PrintPulseAndReportSlowInput E Data Size).
Proof.
  pose proof hf_Printf. pose proof hf_deref. pose proof hf_PrintStats.
  pose proof hf_WriteUnitToFileWithPrefix.
  unfold PrintPulseAndReportSlowInput. hf.
Qed.

Lemma hf_CheckExitOnSrcPos_loop (n : nat) :
  ∀ i, keeps HF (CheckExitOnSrcPos_loop E i n).
Proof.
  pose proof hf_Printf.
  induction n as [|n IH]; intros i; cbn [CheckExitOnSrcPos_loop]; hf.
Qed.

Lemma hf_CheckExitOnSrcPosOrItem : keeps HF (CheckExitOnSrcPosOrItem E).
Proof.
  pose proof hf_Printf. pose proof hf_CheckExitOnSrcPos_loop.
  unfold CheckExitOnSrcPosOrItem. hf.
Qed.

Lemma hf_handle_features (Features : list Z) (Size : Z) :
  keeps HF (handle_features E Features Size).
Proof.
  induction Features as [|f Features IH]; cbn [handle_features]; hf.
Qed.

Lemma hf_RunOneCallback (Data : DataPtr) (Size : Z) (idx : nat)
    (MayDeleteFile : bool) (II : option nat) :
  keeps HF (RunOneCallback E Data Size idx MayDeleteFile II).
Proof.
  pose proof hf_deref. pose proof hf_ExecuteCallback.
  pose proof hf_handle_features. pose proof hf_PrintPulseAndReportSlowInput.
  pose proof hf_CheckExitOnSrcPosOrItem.
  unfold RunOneCallback. hf.
Qed.

Lemma hf_RunOne_callbacks (Data : DataPtr) (Size : Z) (MayDeleteFile : bool)
    (II : option nat) (n : nat) :
  ∀ i features feature_vec,
    keeps HF (RunOne_callbacks E Data Size MayDeleteFile II i n features
                feature_vec).
Proof.
  pose proof hf_RunOneCallback.
  induction n as [|n IH]; intros i features feature_vec;
    cbn [RunOne_callbacks]; hf.
Qed.
End HarnessFrame.


Section RunOne.
Context {TPC_t Corpus_t MD_t RT_t UserCallback : Type}.
Variable E : @Externals TPC_t Corpus_t MD_t RT_t UserCallback.
Let Fuzzer := (@Fuzzer TPC_t Corpus_t MD_t RT_t UserCallback).

Lemma to_int_range (z : Z) : - 2 ^ 31 ≤ to_int z < 2 ^ 31.
Proof.
  unfold to_int. pose proof (Z.mod_pos_bound z (2 ^ 32) ltac:(lia)).
  destruct (decide (z mod 2 ^ 32 < 2 ^ 31)); lia.
Qed.

Lemma bind_inv_Ret {A B : Type} (m : M A) (k : A → M B) (s s2 : Fuzzer)
    (b : B) :
  (m ≫= k) s = Ret b s2 → ∃ a s1, m s = Ret a s1 ∧ k a s1 = Ret b s2.
Proof.
  unfold mbind, M_bind. destruct (m s) as [a s1| |]; [|done..]. eauto.
Qed.

Lemma interesting_cons (ret : bool) (rets : list bool) :
  interesting (ret :: rets) = Z.b2z ret + interesting rets.
Proof.
  unfold interesting. rewrite filter_cons.
  destruct ret; cbn [Z.b2z].
  - rewrite decide_True by done. cbn [length]. lia.
  - rewrite decide_False by done. lia.
Qed.

Lemma interesting_bounds (rets : list bool) :
  0 ≤ interesting rets ≤ Z.of_nat (length rets).
Proof.
  unfold interesting. pose proof (length_filter (fun b => b = true) rets). lia.
Qed.

Lemma interesting_pos (rets : list bool) :
  interesting rets > 0 ↔ true ∈ rets.
Proof.
  induction rets as [|ret rets IH].
  - unfold interesting. cbn. split; [lia|]. intros H.
    by apply elem_of_nil in H.
  - rewrite interesting_cons, elem_of_cons.
    pose proof (interesting_bounds rets).
    destruct ret; cbn [Z.b2z]; [split; [auto|lia]|].
    rewrite <- IH. split; [intros; right; lia|intros [?|?]; [done|lia]].
Qed.

Lemma RunOne_callbacks_inv (Data : DataPtr) (Size : Z)
    (MayDeleteFile : bool) (II : option nat) (n : nat) :
  ∀ (i : nat) (features : Z) (feature_vec : list Z) (s s' : Fuzzer)
    (features' : Z) (feature_vec' : list Z),
    0 ≤ features → features + Z.of_nat n < 2 ^ 64 →
    RunOne_callbacks E Data Size MayDeleteFile II i n features feature_vec s
    = Ret (features', feature_vec') s' →
    ∃ rets, callback_runs E Data Size MayDeleteFile II i rets s s'
            ∧ length rets = n
            ∧ features' = features + interesting rets
            ∧ feature_vec' = feature_vec ++ (Z.b2z <$> rets).
Proof.
  induction n as [|n IH];
    intros i features fv s s' features' fv' H0 Hbound Hrun.
  - injection Hrun as <- <- <-. exists []. repeat split.
    + constructor.
    + unfold interesting. cbn. lia.
    + by rewrite app_nil_r.
  - cbn [RunOne_callbacks] in Hrun. rewrite bind_gets in Hrun.
    destruct (UC_callbacks s !! i) as [cb|] eqn:Hcb; [|done].
    rewrite bind_liftO_Some, bind_modify in Hrun.
    apply bind_inv_Ret in Hrun as (ret & s1 & Hret & Hrun).
    assert (Hwrap : wrap64 (features + Z.b2z ret) = features + Z.b2z ret).
    { unfold wrap64. apply Z.mod_small. destruct ret; cbn [Z.b2z]; lia. }
    rewrite Hwrap in Hrun.
    apply IH in Hrun as (rets & Hruns & Hlen & Hf & Hv);
      [|destruct ret; cbn [Z.b2z]; lia..].
    exists (ret :: rets). repeat split.
    + by eapply runs_cons.
    + cbn. by rewrite Hlen.
    + rewrite interesting_cons. lia.
    + rewrite Hv, <- app_assoc. reflexivity.
Qed.

Lemma DumpUnitIfDiff_shape (Data : DataPtr) (Size : Z) (s s' : Fuzzer) :
  DumpUnitIfDiff E Data Size s = Ret tt s' →
  (UnitHadOutputDiff s' = UnitHadOutputDiff s ∧ Corpus s' = Corpus s
   ∧ FeatureSetTmp s' = FeatureSetTmp s
   ∧ CurrentUnitData s' = CurrentUnitData s
   ∧ TotalNumberOfRuns s' = TotalNumberOfRuns s
   ∧ TPC s' = TPC s)
  ∨ (∃ fp data, deref Data s = Ret data s
                ∧ s' = record_divergence E fp (range data Size) s).
Proof.
  intros Hret.
  destruct (mixed (OutputDiffVec (TPC s))) eqn:Hm.
  2: { rewrite DumpUnitIfDiff_uniform in Hret by done.
       injection Hret as <-. by left. }
  destruct (fingerprint E s) as [fp|] eqn:Hfp.
  2: { by rewrite DumpUnitIfDiff_no_blob in Hret. }
  destruct (CoverageHash s !! fp) as [b|] eqn:Hlook.
  { rewrite (DumpUnitIfDiff_known _ _ _ _ fp) in Hret by (try done; eauto).
    injection Hret as <-. by left. }
  assert (∃ data, deref Data s = Ret data s) as [data Hderef].
  { destruct Data as [|bytes]; [|by exists bytes].
    destruct (CurrentUnitData s) as [buf|] eqn:Hcur.
    - exists buf. unfold deref. rewrite bind_gets. by rewrite Hcur.
    - by rewrite (DumpUnitIfDiff_null _ _ _ fp) in Hret. }
  rewrite (DumpUnitIfDiff_fresh _ _ _ _ fp data) in Hret by done.
  injection Hret as <-. right. eauto.
Qed.

Lemma deref_same (Data : DataPtr) (s s' : Fuzzer) (data : list Z) :
  CurrentUnitData s' = CurrentUnitData s →
  deref Data s = Ret data s → deref Data s' = Ret data s'.
Proof.
  intros Hcur. destruct Data as [|bytes]; unfold deref.
  - rewrite !bind_gets, Hcur.
    destruct (CurrentUnitData s); [|done]. by intros [= ->].
  - by intros [= ->].
Qed.

Lemma deref_inv (Data : DataPtr) (s s' : Fuzzer) (data : list Z) :
  deref Data s = Ret data s' → s' = s.
Proof.
  destruct Data as [|bytes]; unfold deref.
  - rewrite bind_gets. destruct (CurrentUnitData s); [|done].
    by intros [= _ ->].
  - by intros [= _ ->].
Qed.

(** The differential branch of [RunOne], taken apart. *)
Lemma RunOne_differential_inv (s s' : Fuzzer) (Data : DataPtr) (Size : Z)
    (MayDeleteFile : bool) (II : option nat) (b : bool) :
  FuzzingOptions.DifferentialMode (Options s) = true →
  RunOne E Data Size MayDeleteFile II s = Ret b s' →
  let s0 := set_UnitHadOutputDiff (fun _ => false)
              (set_TPC (TPC_ResetCoverage E) s) in
  ∃ rets s1,
    callback_runs E Data Size MayDeleteFile II 0 rets s0 s1
    ∧ length rets = Z.to_nat (to_int (UC_size s))
    ∧ let new_diff := (TPC_NewOutputDiff_change E (TPC s1)).1 in
      let NumCoverage :=
        wrap64 (TPC_GetTotalPCCoverage E (TPC s1)
                - TPC_GetTotalPCCoverage E (TPC s0)) in
      b = bool_decide (true ∈ rets) || new_diff
      ∧ TotalNumberOfRuns s' = incr (TotalNumberOfRuns s)
      ∧ (UnitHadOutputDiff s' = true →
         new_diff = true
         ∧ ∃ data, deref Data s1 = Ret data s1
                   ∧ Corpus s'
                     = Corpus_AddToCorpus E (range data Size) NumCoverage
                         MayDeleteFile [] (Corpus s1))
      ∧ (UnitHadOutputDiff s' = false → Corpus s' = Corpus s1).
Proof.
  intros Hdiff Hrun s0. revert Hrun. unfold RunOne.
  rewrite bind_gets. rewrite Hdiff. go. fold s0.
  intros Hrun. apply bind_inv_Ret in Hrun as ([features fv] & s1 & Hloop & Hrun).
  pose proof (hf_RunOne_callbacks E Data Size MayDeleteFile II
                (Z.to_nat (to_int (UC_size s))) 0%nat 0 [] s0) as Hframe.
  rewrite Hloop in Hframe.
  pose proof (to_int_range (UC_size s)) as Hsize.
  apply RunOne_callbacks_inv in Hloop as (rets & Hruns & Hlen & -> & ->);
    [|lia|change (2 ^ 64) with 18446744073709551616;
          change (2 ^ 31) with 2147483648 in Hsize; lia].
  exists rets, s1. split; [exact Hruns|]. split; [exact Hlen|].
  assert (Hb : (if decide (0 + interesting rets > 0)
                then bool_decide (0 + interesting rets ≠ 0)
                else (TPC_NewOutputDiff_change E (TPC s1)).1)
               = bool_decide (true ∈ rets)
                 || (TPC_NewOutputDiff_change E (TPC s1)).1).
  { destruct (decide (0 + interesting rets > 0)) as [Hpos|Hnpos].
    - rewrite (bool_decide_eq_true_2 (true ∈ rets))
        by (apply interesting_pos; lia).
      by rewrite bool_decide_eq_true_2 by lia.
    - rewrite (bool_decide_eq_false_2 (true ∈ rets)); [done|].
      intros Hin. apply interesting_pos in Hin. lia. }
  destruct Hframe as (_ & _ & _ & _ & _ & _ & _ & _ & _ & _ & Htotal & _ & _
                      & _ & _ & _ & _ & Hflag & _).
  unfold s0 in Htotal, Hflag. revert Htotal Hflag. proj. intros Htotal Hflag.
  revert Hrun. rewrite bind_gets. cbv beta.
  destruct (TPC_NewOutputDiff_change E (TPC s1)) as [new_diff tpc1] eqn:Hnd.
  destruct (TPC_NewTraceDiff E _ tpc1) as [new_trace tpc2] eqn:Hnt.
  cbn [fst] in *. rewrite Hb. clear Hb.
  set (s2 := (if new_trace then set_NumberofValidCases incr else id)
               (set_TPC (fun _ => tpc2) s1)).
  assert (Hs2 : UnitHadOutputDiff s2 = false
                ∧ TotalNumberOfRuns s2 = TotalNumberOfRuns s
                ∧ Corpus s2 = Corpus s1
                ∧ CurrentUnitData s2 = CurrentUnitData s1).
  { unfold s2. destruct new_trace; unfold id; proj; by rewrite ?Hflag. }
  destruct Hs2 as (Hflag2 & Htotal2 & Hcorpus2 & Hcur2).
  rewrite bind_modify. cbv beta.
  replace (when new_trace (modify (set_NumberofValidCases incr)))
    with (@modify TPC_t Corpus_t MD_t RT_t UserCallback
            (if new_trace then set_NumberofValidCases incr else id))
    by (by destruct new_trace).
  rewrite bind_modify. cbv beta. fold s2.
  destruct new_diff.
  - rewrite bind_when_true. go.
    intros Hrun.
    apply bind_inv_Ret in Hrun as ([] & sd & Hdump & Hrun).
    apply DumpUnitIfDiff_shape in Hdump
      as [(Hd1 & Hd2 & Hd3 & Hd4 & Hd5 & Hd6)|(fp & data & Hderef & ->)].
    + revert Hrun. go. rewrite Hd1. proj. rewrite Hflag2. go.
      intros [= <- <-]. proj. rewrite Hd1, Hd2, Hd5. proj.
      rewrite Hflag2, Htotal2, Hcorpus2. by repeat split.
    + revert Hrun. unfold record_divergence. go.
      assert (Hd : ∀ s3 : Fuzzer,
                 CurrentUnitData s3 = CurrentUnitData s1 →
                 deref Data s3 = Ret data s3).
      { intros s3 H3. eapply deref_same; [|exact Hderef].
        proj. by rewrite Hcur2. }
      match goal with
      | |- (_ ≫= _) ?st = _ → _ =>
          assert (Hst : CurrentUnitData st = CurrentUnitData s1)
            by (proj; exact Hcur2);
          rewrite (bind_Ret _ _ _ _ _ (Hd st Hst))
      end. go.
      intros [= <- <-]. proj. rewrite Htotal2, Hcorpus2.
      split; [done|]. split; [done|]. split; [|done].
      intros _. split; [done|]. exists data. split; [by apply Hd|].

      done.
  - rewrite bind_when_false. go.
    intros [= <- <-]. proj. rewrite Hflag2, Htotal2, Hcorpus2.
    by repeat split.
Qed.

(** C5. In differential mode, a run that returns with [UnitHadOutputDiff]
    set has added its input to the corpus, after the runs of the callbacks,
    with the growth of the total PC coverage over the run as number of
    features and with an empty feature set; a run that returns with
    [UnitHadOutputDiff] clear has left the corpus as the callbacks left
    it. *)
Theorem RunOne_retains_divergent (s s' : Fuzzer) (Data : DataPtr) (Size : Z)
    (MayDeleteFile : bool) (II : option nat) (b : bool) :
  FuzzingOptions.DifferentialMode (Options s) = true →
  RunOne E Data Size MayDeleteFile II s = Ret b s' →
  let s0 := set_UnitHadOutputDiff (fun _ => false)
              (set_TPC (TPC_ResetCoverage E) s) in
  ∃ rets s1,
    callback_runs E Data Size MayDeleteFile II 0 rets s0 s1
    ∧ length rets = Z.to_nat (to_int (UC_size s))
    ∧ (UnitHadOutputDiff s' = true →
       (TPC_NewOutputDiff_change E (TPC s1)).1 = true
       ∧ ∃ data, deref Data s1 = Ret data s1
                 ∧ Corpus s'
                   = Corpus_AddToCorpus E (range data Size)
                       (wrap64 (TPC_GetTotalPCCoverage E (TPC s1)
                                - TPC_GetTotalPCCoverage E (TPC s0)))
                       MayDeleteFile [] (Corpus s1))
    ∧ (UnitHadOutputDiff s' = false → Corpus s' = Corpus s1).
Proof.
  intros Hdiff Hrun s0.
  destruct (RunOne_differential_inv s s' Data Size MayDeleteFile II b
              Hdiff Hrun) as (rets & s1 & Hruns & Hlen & _ & _ & Hset & Hclr).
  exists rets, s1. split; [exact Hruns|]. split; [exact Hlen|].
  split; [exact Hset|exact Hclr].
Qed.



(** C10. [RunOneCallback] on an input of size 0 returns [false] and leaves
    the whole state as it was: no target has run, no feature was collected
    and the corpus is untouched. *)
Theorem RunOneCallback_empty (s : Fuzzer) (Data : DataPtr) (idx : nat)
    (MayDeleteFile : bool) (II : option nat) :
  RunOneCallback E Data 0 idx MayDeleteFile II s = Ret false s.
Proof. unfold RunOneCallback. by rewrite decide_True. Qed.
End RunOne.

Lemma RunOne_retains_divergent_witness :
  ∃ s', RunOne Toy.E (BufferPtr [0; 255]) 2 false None (toy_idle true)
        = Ret true s'
        ∧ UnitHadOutputDiff s' = true
        ∧ ∃ (n : Z) (c : Toy.Store),
            Corpus s' = Toy.AddToCorpus [0; 255] n false [] c.
Proof.
  eexists. split; [vm_compute; reflexivity|]. split; [reflexivity|].
  match goal with
  | |- ∃ n c, Corpus ?s' = _ =>
      destruct (RunOne_retains_divergent Toy.E (toy_idle true) s'
                  (BufferPtr [0; 255]) 2 false None true)
        as (rets & s1 & _ & _ & Hset & _);
        [reflexivity | vm_compute; reflexivity |]
  end.
  destruct (Hset eq_refl) as (_ & data & [= <-] & Hcorpus).
  eexists _, (Corpus s1). exact Hcorpus.
Defined.




Lemma mod_15_7 (R : Z) : R mod 2 ^ 15 = 0 → R mod 2 ^ 7 = 0.
Proof.
  intros H15. pose proof (Z.div_mod R (2 ^ 15) ltac:(lia)) as HR.
  rewrite H15, Z.add_0_r in HR. rewrite HR.
  replace (2 ^ 15 * (R / 2 ^ 15)) with (2 ^ 8 * (R / 2 ^ 15) * 2 ^ 7) by lia.
  apply Z.mod_mul. lia.
Qed.

Lemma elem_of_upto (n : nat) (a R : Z) :
  R ∈ upto n a ↔ a ≤ R < a + Z.of_nat n.
Proof.
  revert a. induction n as [|n IH]; intros a; cbn [upto].
  - rewrite elem_of_nil. lia.
  - rewrite elem_of_cons, IH. lia.
Qed.

Section Len.
Context {TPC_t Corpus_t MD_t RT_t UserCallback : Type}.
Variable E : @Externals TPC_t Corpus_t MD_t RT_t UserCallback.
Let Fuzzer := (@Fuzzer TPC_t Corpus_t MD_t RT_t UserCallback).

Lemma CurrentMaxMutationLen_of_fixed (s : Fuzzer) :
  FuzzingOptions.ExperimentalLenControl (Options s) = false →
  CurrentMaxMutationLen_of E s = Ret (MaxMutationLen s) s.
Proof.
  intros Hoff. unfold CurrentMaxMutationLen_of.
  rewrite bind_gets, bind_gets. by rewrite Hoff.
Qed.

Lemma ComputeMutationLen_grown {Random : Type} (draw : Random → Z * Random)
    (MaxInputSize MaxMutationLen : Z) (Rand : Random) :
  0 ≤ MaxInputSize < MaxMutationLen → MaxMutationLen < 2 ^ 63 →
  ComputeMutationLen draw MaxInputSize MaxMutationLen Rand
  = Some (Z.min (grown MaxInputSize (draw Rand).1) MaxMutationLen,
          (draw Rand).2).
Proof.
  intros Hle Hmax. unfold ComputeMutationLen, grown.
  rewrite decide_True by lia. rewrite decide_False by lia.
  destruct (draw Rand) as [R Rand']. cbn [fst snd].
  change (2 ^ 63) with 9223372036854775808 in Hmax.
  assert (Hw : ∀ z, 0 ≤ z < 2 ^ 64 → wrap64 z = z)
    by (intros z Hz; apply Z.mod_small; exact Hz).
  change (2 ^ 64) with 18446744073709551616 in Hw.
  rewrite (Hw (MaxInputSize + 1)) by lia.
  destruct (decide (R mod 2 ^ 7 = 0)), (decide (R mod 2 ^ 15 = 0));
    try reflexivity.
  - rewrite Hw; [reflexivity|].
    pose proof (Z.div_pos (MaxInputSize + 1) 2 ltac:(lia) ltac:(lia)).
    pose proof (Z.mul_div_le (MaxInputSize + 1) 2 ltac:(lia)) as H0.
    clear - Hle Hmax H H0. lia.
  - rewrite Hw; [reflexivity|].
    pose proof (Z.div_pos MaxInputSize 2 ltac:(lia) ltac:(lia)).
    pose proof (Z.mul_div_le MaxInputSize 2 ltac:(lia)) as H0.
    clear - Hle Hmax H H0. lia.
Qed.

(** C9. Under the precondition [MaxInputSize ≤ MaxMutationLen] (and with
    lengths below 2^63, so that no sum wraps) [ComputeMutationLen] returns
    [MaxMutationLen] without a draw when the two are equal; otherwise it
    draws one number [R], grows the cap [MaxInputSize] by 1 when
    [R mod 2^7 = 0] and then by [10 + cap / 2] when [R mod 2^15 = 0], and
    returns the result clamped to [MaxMutationLen].  Of the 2^15 residues of
    [R], 2^8 trigger the first growth and one triggers the second.  With
    [ExperimentalLenControl] unset, [MutateAndTestOne] uses
    [MaxMutationLen] as its cap. *)
Theorem ComputeMutationLen_control {Random : Type}
    (draw : Random → Z * Random) (MaxInputSize MaxLen : Z)
    (Rand : Random) :
  0 ≤ MaxInputSize ≤ MaxLen → MaxLen < 2 ^ 63 →
  (MaxInputSize = MaxLen →
   ComputeMutationLen draw MaxInputSize MaxLen Rand
   = Some (MaxLen, Rand))
  ∧ (MaxInputSize ≠ MaxLen →
     ComputeMutationLen draw MaxInputSize MaxLen Rand
     = Some (Z.min (grown MaxInputSize (draw Rand).1) MaxLen,
             (draw Rand).2))
  ∧ (∀ R, R mod 2 ^ 7 ≠ 0 → grown MaxInputSize R = MaxInputSize)
  ∧ (∀ R, R mod 2 ^ 7 = 0 → R mod 2 ^ 15 ≠ 0 →
          grown MaxInputSize R = MaxInputSize + 1)
  ∧ (∀ R, R mod 2 ^ 15 = 0 →
          grown MaxInputSize R
          = MaxInputSize + 1 + (10 + (MaxInputSize + 1) / 2))
  ∧ draws (fun R => R mod 2 ^ 7 = 0) = Z.to_nat (2 ^ 8)
  ∧ draws (fun R => R mod 2 ^ 15 = 0) = 1%nat
  ∧ (∀ s : Fuzzer,
       FuzzingOptions.ExperimentalLenControl (Options s) = false →
       CurrentMaxMutationLen_of E s = Ret (MaxMutationLen s) s).
Proof.
  intros Hle Hmax. split; [|split; [|split; [|split; [|split]]]].
  - intros ->. unfold ComputeMutationLen.
    rewrite decide_True by lia. by rewrite decide_True.
  - intros Hne. apply ComputeMutationLen_grown; lia.
  - intros R H7. unfold grown.
    assert (H15 : R mod 2 ^ 15 ≠ 0).
    { intros H15. by apply H7, mod_15_7. }
    destruct (decide (R mod 2 ^ 7 = 0)), (decide (R mod 2 ^ 15 = 0)); done.
  - intros R H7 H15. unfold grown.
    destruct (decide (R mod 2 ^ 7 = 0)), (decide (R mod 2 ^ 15 = 0)); done.
  - intros R H15. unfold grown.
    assert (H7 : R mod 2 ^ 7 = 0).
    { by apply mod_15_7. }
    destruct (decide (R mod 2 ^ 7 = 0)), (decide (R mod 2 ^ 15 = 0)); done.
  - split; [by vm_compute|]. split; [by vm_compute|].
    apply CurrentMaxMutationLen_of_fixed.
Qed.
End Len.

Lemma ComputeMutationLen_control_witness :
  ComputeMutationLen (fun r : Z => (r, r + 1)) 10 100 0 = Some (26, 1).
Proof.
  destruct (ComputeMutationLen_control Toy.E (fun r : Z => (r, r + 1))
              10 100 0) as (_ & Hgrow & _); [lia | lia |].
  apply Hgrow. lia.
Defined.


Section Mutate.
Context {TPC_t Corpus_t MD_t RT_t UserCallback : Type}.
Variable E : @Externals TPC_t Corpus_t MD_t RT_t UserCallback.
Let Fuzzer := (@Fuzzer TPC_t Corpus_t MD_t RT_t UserCallback).

(** C1. A candidate whose digest is already in [hashMap], and that is not
    longer than the cap, ends the mutation loop of [MutateAndTestOne] at
    once: the duplicate counter is incremented, the engine is not asked
    again, and the loop hands that candidate over as the unit to run next.
    The [continue] of the duplicate branch jumps to the condition of the
    [do ... while], which is false for such a candidate. *)
Theorem Mutate_loop_keeps_duplicate (fuel : nat) (Size Max : Z)
    (PreviousUnit PreviousUnit' buf buf' : list Z) (NewSize : Z) (md' : MD_t)
    (s : Fuzzer) :
  CurrentUnitData s = Some buf →
  memcpy PreviousUnit 0 buf 0 (Z.to_nat Size) = Some PreviousUnit' →
  MD_Mutate E buf Size Max (MD s) = (buf', NewSize, md') →
  is_Some (hashMap s !! ComputeSHA1 E (range buf' NewSize)) →
  NewSize ≤ Max →
  Mutate_loop E (S fuel) Size Max PreviousUnit s
  = Ret (NewSize, PreviousUnit', Size)
      (set_NumberOfDuplicate incr
         (set_MD (fun _ => md')
            (set_CurrentUnitData (fun _ => Some buf') s))).
Proof.
  intros Hcur Hcopy Hmut Hseen Hle. cbn [Mutate_loop]. unfold deref.
  go. rewrite Hcur. go. rewrite Hcopy. go. rewrite Hmut. go.
  destruct (decide (is_Some (hashMap s !! _))) as [_|Hnew]; [|done].
  go. destruct (decide (NewSize > Max)); [lia|reflexivity].
Qed.
End Mutate.

Lemma Mutate_loop_keeps_duplicate_witness :
  Mutate_loop Toy.E 1 2 8 (replicate 8 0) toy_second_round
  = Ret (2, [0; 255; 0; 0; 0; 0; 0; 0], 2)
      (set_NumberOfDuplicate incr
         (set_MD (fun _ => [])
            (set_CurrentUnitData (fun _ => Some [0; 255; 0; 0; 0; 0; 0; 0])
               toy_second_round))).
Proof.
  apply (Mutate_loop_keeps_duplicate Toy.E 0 2 8 (replicate 8 0)
           [0; 255; 0; 0; 0; 0; 0; 0] [0; 255; 0; 0; 0; 0; 0; 0]
           [0; 255; 0; 0; 0; 0; 0; 0] 2 [] toy_second_round);
    [reflexivity | reflexivity | reflexivity | | lia].
  exists true. reflexivity.
Defined.

(** One call of [MutateAndTestOne] on that instance: the candidate
    [0; 255] is counted as one duplicate and yet run twice, each run
    calling both targets (the clock of the instance counts the calls). *)
Lemma MutateAndTestOne_runs_duplicate :
  ∃ s', MutateAndTestOne Toy.E 1 toy_twice = Ret tt s'
        ∧ NumberOfDuplicate s' = 1
        ∧ TotalNumberOfRuns s' = 2
        ∧ RT s' = 4
        ∧ CurrentUnitData s' = Some [0; 255; 0; 0; 0; 0; 0; 0]
        ∧ dom (hashMap s') = {[ [0; 255] ]}.
Proof.
  eexists. split; [vm_compute; reflexivity|].
  do 4 (split; [reflexivity|]). by vm_compute.
Qed.


(** ** Packing and unpacking words *)

Lemma le_word_digits (n : nat) :
  ∀ w, le_word ((fun k => (w / 2 ^ (8 * Z.of_nat k)) mod 256) <$> seq 0 n)
       = w mod 2 ^ (8 * Z.of_nat n).
Proof.
  induction n as [|n IH]; intros w.
  - cbn. by rewrite Z.mod_1_r.
  - cbn [seq fmap list_fmap le_word foldr].
    rewrite <- fmap_S_seq, <- list_fmap_compose.
    replace (8 * Z.of_nat (S n)) with (8 + 8 * Z.of_nat n) by lia.
    rewrite Z.pow_add_r by lia. change (2 ^ 8) with 256.
    rewrite Z.rem_mul_r by lia. rewrite <- IH.
    change (8 * Z.of_nat 0%nat) with 0. rewrite Z.pow_0_r, Z.div_1_r.
    f_equal. f_equal. unfold le_word. f_equal.
    apply list_fmap_ext. intros _ k _. cbn [compose].
    replace (8 * Z.of_nat (S k)) with (8 + 8 * Z.of_nat k) by lia.
    rewrite Z.pow_add_r by lia. change (2 ^ 8) with 256.
    by rewrite Z.div_div by lia.
Qed.

Lemma le_word_le_bytes (w : Z) : 0 ≤ w < 2 ^ 64 → le_word (le_bytes w) = w.
Proof.
  intros Hw. unfold le_bytes. rewrite le_word_digits.
  change (8 * Z.of_nat 8) with 64. by apply Z.mod_small.
Qed.

Lemma unpack_words_bytes (ws : list Z) :
  Forall (fun w => 0 ≤ w < 2 ^ 64) ws →
  unpack (length ws) (words_bytes ws) = ws.
Proof.
  induction 1 as [|w ws Hw _ IH]; [done|].
  change (w :: ws) with ([w] ++ ws).
  rewrite words_bytes_app, length_app. cbn [length Nat.add unpack].
  assert (Hone : words_bytes [w] = le_bytes w)
    by (unfold words_bytes; by rewrite bind_singleton).
  rewrite Hone.
  rewrite (take_app_length' (le_bytes w) _ 8 (length_le_bytes w)).
  rewrite (drop_app_length' (le_bytes w) _ 8 (length_le_bytes w)).
  by rewrite le_word_le_bytes, IH.
Qed.

(** [uint_to_uint8] loses nothing: on [size] words below 2^64, with
    [8 * size] within the [int] range of its index, it fills [8 * size]
    bytes from which the words are read back, least significant byte
    first. *)
Theorem uint_to_uint8_round_trip (source : list Z) :
  Forall (fun w => 0 ≤ w < 2 ^ 64) source →
  8 * Z.of_nat (length source) ≤ INT_MAX →
  ∃ dest, uint_to_uint8 source (replicate (length source * 8) 0)
            (length source) = Some dest
          ∧ length dest = (8 * length source)%nat
          ∧ unpack (length source) dest = source.
Proof.
  intros Hws Hint. exists (words_bytes source).
  rewrite uint_to_uint8_spec by done. rewrite firstn_all.
  split; [done|]. split; [|by apply unpack_words_bytes].
  clear Hws Hint. induction source as [|w ws IH]; [done|].
  change (w :: ws) with ([w] ++ ws).
  rewrite words_bytes_app, !length_app, IH.
  unfold words_bytes. rewrite bind_singleton, length_le_bytes.
  cbn [length]. lia.
Qed.

Lemma uint_to_uint8_round_trip_witness :
  ∃ dest, uint_to_uint8 [4097; 2 ^ 64 - 1] (replicate 16 0) 2 = Some dest
          ∧ length dest = 16%nat
          ∧ unpack 2 dest = [4097; 2 ^ 64 - 1].
Proof.
  apply (uint_to_uint8_round_trip [4097; 2 ^ 64 - 1]).
  - repeat constructor; vm_compute; congruence.
  - vm_compute. congruence.
Defined.

(** ** The blind spot of [LooseMemeq] *)

(** On more than 64 bytes [LooseMemeq] does not see a change of a byte
    between the first 32 and the last 32. *)
Theorem LooseMemeq_blind_spot (A : list Z) (Size : Z) (i : nat) (x : Z) :
  64 < Size → Size ≤ Z.of_nat (length A) →
  32 ≤ Z.of_nat i < Size - 32 →
  LooseMemeq (<[i := x]> A) A Size = Some true.
Proof.
  intros H64 Hlen Hi.
  destruct (LooseMemeq_spec (<[i := x]> A) A Size) as (same & -> & Hiff);
    [lia | rewrite length_insert; lia | lia |].
  f_equal. apply Hiff. intros j [Hj Hs].
  apply list_lookup_insert_ne. lia.
Qed.

Lemma LooseMemeq_blind_spot_witness :
  LooseMemeq (<[40%nat := 1]> (replicate 100 0)) (replicate 100 0) 100
  = Some true.
Proof.
  apply (LooseMemeq_blind_spot (replicate 100 0) 100 40 1);
    [lia | vm_compute; congruence | lia].
Defined.

(** On at most 64 bytes [LooseMemeq] is equality of the first [Size]
    bytes. *)
Theorem LooseMemeq_small (A B : list Z) (Size : Z) :
  0 ≤ Size ≤ 64 →
  Size ≤ Z.of_nat (length A) → Size ≤ Z.of_nat (length B) →
  LooseMemeq A B Size = Some (bool_decide (range A Size = range B Size)).
Proof.
  intros H64 HA HB.
  destruct (LooseMemeq_spec A B Size) as (same & -> & Hiff); [lia..|].
  f_equal. apply eq_true_iff_eq. rewrite Hiff, bool_decide_eq_true.
  unfold range, sampled. split.
  - intros Hall. apply list_eq. intros j.
    destruct (decide (j < Z.to_nat Size)%nat) as [Hj|Hj].
    + rewrite !lookup_take_lt by done. apply Hall. lia.
    + by rewrite !lookup_take_ge by lia.
  - intros Heq j [Hj _].
    rewrite <- (lookup_take_lt A (Z.to_nat Size)) by lia.
    rewrite <- (lookup_take_lt B (Z.to_nat Size)) by lia.
    by rewrite Heq.
Qed.

Lemma LooseMemeq_small_witness :
  LooseMemeq [1; 2; 3] [1; 2; 4] 2
  = Some (bool_decide (range [1; 2; 3] 2 = range [1; 2; 4] 2)).
Proof.
  apply (LooseMemeq_small [1; 2; 3] [1; 2; 4] 2);
    [lia | vm_compute; congruence | vm_compute; congruence].
Defined.


(** ** The size of the divergence blob *)

Lemma length_pc_region (PCs : list Z) (ModuleNum : list nat) (i m : nat) :
  ModuleNum !! S i = Some m →
  (prefix ModuleNum (S i) ≤ length PCs)%nat →
  length (pc_region PCs ModuleNum i) = m.
Proof.
  intros Hm Hfit. unfold pc_region.
  rewrite (prefix_S _ _ _ Hm) in *.
  rewrite length_take, length_drop. lia.
Qed.

Lemma length_blob_from (PCs : list Z) (ModuleNum : list nat)
    (OutputDiffVec : list Z) (n : nat) :
  ∀ j, (j + n + 1 ≤ length ModuleNum)%nat →
       (prefix ModuleNum (j + n) ≤ length PCs)%nat →
       length (blob_from PCs ModuleNum OutputDiffVec j n)
       = (8 * diverging_words ModuleNum OutputDiffVec j n)%nat.
Proof.
  induction n as [|n IH]; intros j Hlen Hfit; [done|].
  rewrite blob_from_S, length_app, IH;
    [|lia|by replace (S j + n)%nat with (j + S n)%nat by lia].
  change (diverging_words ModuleNum OutputDiffVec j (S n))
    with (Nat.add
            match OutputDiffVec !! j with
            | Some r => if decide (r ≠ 0)
                        then default 0%nat (ModuleNum !! S j)
                        else 0%nat
            | None => 0%nat
            end
            (diverging_words ModuleNum OutputDiffVec (S j) n)).
  destruct (OutputDiffVec !! j) as [r|]; [|cbn [length]; lia].
  destruct (decide (r ≠ 0)); [|cbn [length]; lia].
  destruct (lookup_lt_is_Some_2 ModuleNum (S j) ltac:(lia)) as [m Hm].
  rewrite Hm. cbn [default].
  change (pc_region PCs ModuleNum j ≫= le_bytes)
    with (words_bytes (pc_region PCs ModuleNum j)).
  rewrite length_words_bytes, (length_pc_region _ _ _ m Hm); [unfold id; lia|].
  etrans; [|exact Hfit]. apply sum_list_take_mono. lia.
Qed.

(** The blob that [DumpUnitIfDiff] hashes has 8 bytes for every PC word of
    every callback that returned a non-zero code, and no other byte. *)
Theorem DivergenceCoverage_length (UC_size NumPCs : nat) (PCs : list Z)
    (ModuleNum : list nat) (OutputDiffVec : list Z) :
  (UC_size + 1 ≤ length ModuleNum)%nat →
  (UC_size ≤ length OutputDiffVec)%nat →
  (prefix ModuleNum UC_size ≤ NumPCs)%nat →
  (NumPCs ≤ length PCs)%nat →
  8 * Z.of_nat NumPCs ≤ INT_MAX →
  ∃ blob, DivergenceCoverage UC_size NumPCs PCs ModuleNum OutputDiffVec
          = Some blob
          ∧ length blob
            = (8 * diverging_words ModuleNum OutputDiffVec 0 UC_size)%nat.
Proof.
  intros HM HV Hfit HP Hint. eexists. split.
  - by apply DivergenceCoverage_refines.
  - rewrite DivergenceCoverage_spec_from. apply length_blob_from; cbn [Nat.add]; lia.
Qed.

Lemma DivergenceCoverage_length_witness :
  ∃ blob, DivergenceCoverage 2 5 [0; 4096; 1; 4097; 1] [1; 2; 2]%nat [0; 1]
          = Some blob
          ∧ length blob = 16%nat.
Proof.
  apply (DivergenceCoverage_length 2 5 [0; 4096; 1; 4097; 1] [1; 2; 2]%nat
           [0; 1]); vm_compute; try lia; congruence.
Defined.

(** ** The range of [ComputeMutationLen] *)

(** [ComputeMutationLen] fails its assertion exactly when
    [MaxInputSize > MaxMutationLen]; otherwise its result lies between
    [MaxInputSize] and [MaxMutationLen]. *)
Theorem ComputeMutationLen_bounds {Random : Type}
    (draw : Random → Z * Random) (MaxInputSize MaxLen : Z) (Rand : Random) :
  0 ≤ MaxInputSize → MaxLen < 2 ^ 63 →
  match ComputeMutationLen draw MaxInputSize MaxLen Rand with
  | Some (len, _) => MaxInputSize ≤ len ≤ MaxLen
  | None => MaxLen < MaxInputSize
  end.
Proof.
  intros H0 Hmax.
  destruct (decide (MaxInputSize ≤ MaxLen)) as [Hle|Hgt].
  - destruct (decide (MaxInputSize = MaxLen)) as [->|Hne].
    + unfold ComputeMutationLen. rewrite !decide_True by lia. lia.
    + rewrite ComputeMutationLen_grown by lia.
      assert (MaxInputSize ≤ grown MaxInputSize (draw Rand).1); [|lia].
      unfold grown.
      pose proof (Z.div_pos MaxInputSize 2 ltac:(lia) ltac:(lia)).
      pose proof (Z.div_pos (MaxInputSize + 1) 2 ltac:(lia) ltac:(lia)).
      repeat case_decide; lia.
  - unfold ComputeMutationLen. rewrite decide_False by lia. lia.
Qed.

Lemma ComputeMutationLen_bounds_witness :
  match ComputeMutationLen (fun r : Z => (r, r + 1)) 10 12 0 with
  | Some (len, _) => 10 ≤ len ≤ 12
  | None => 12 < 10
  end.
Proof.
  apply (ComputeMutationLen_bounds (fun r : Z => (r, r + 1)) 10 12 0); lia.
Defined.


Section Callbacks.
Context {TPC_t Corpus_t MD_t RT_t UserCallback : Type}.
Variable E : @Externals TPC_t Corpus_t MD_t RT_t UserCallback.
Let Fuzzer := (@Fuzzer TPC_t Corpus_t MD_t RT_t UserCallback).

(** ** The signal callbacks *)

Lemma dump_events_set_Out (f : list Event → list Event) (s : Fuzzer)
    (Prefix : string) :
  dump_events E (set_Out f s) Prefix = dump_events E s Prefix.
Proof. reflexivity. Qed.

Lemma file_events_in_final_stats (o : FuzzingOptions.t) :
  (EvTPCDumpCoverage ∈ final_stats_events o
   ↔ FuzzingOptions.DumpCoverage o = true)
  ∧ (∀ file fields, EvLogSave file fields ∉ final_stats_events o).
Proof.
  unfold final_stats_events.
  destruct (FuzzingOptions.PrintCoverage o), (FuzzingOptions.DumpCoverage o),
    (FuzzingOptions.PrintCorpusStats o), (FuzzingOptions.PrintFinalStats o),
    (FuzzingOptions.DifferentialMode o);
    (split; [|intros file fields]);
    rewrite ?elem_of_app, ?elem_of_cons, ?elem_of_nil; naive_solver.
Qed.

Lemma file_events_in_dump_events (s : Fuzzer) (Prefix : string) :
  (EvTPCDumpCoverage ∉ dump_events E s Prefix)
  ∧ (∀ file fields, EvLogSave file fields ∉ dump_events E s Prefix).
Proof.
  unfold dump_events, artifact_events.
  destruct (CurrentUnitData s) as [buf|];
    [|split; [|intros file fields]; apply not_elem_of_nil].
  destruct (bool_decide (CurrentUnitSize s ≤ kMaxUnitSizeToPrint)),
    (FuzzingOptions.SaveArtifacts (Options s));
    try destruct (bool_decide (_ ≤ kMaxUnitSizeToPrint));
    (split; [|intros file fields]);
    rewrite ?elem_of_app, ?elem_of_cons, ?elem_of_nil; naive_solver.
Qed.

(** [CrashCallback] never returns: it exits with [ErrorExitCode], having
    changed nothing but the output.  The only unit it hands to
    [WriteToFile] is the crash- artifact of the current unit, exactly when
    artifacts are saved and the current-unit buffer is allocated; it calls
    [TPC.DumpCoverage] exactly when the option [DumpCoverage] is set, and
    it does not write to the log. *)
Theorem CrashCallback_exits (s : Fuzzer) :
  CrashCallback E s
  = Exit (FuzzingOptions.ErrorExitCode (Options s))
      (set_Out (fun o => o ++ deadly_signal_events E s) s)
  ∧ (∀ U P, EvWriteToFile U P ∈ deadly_signal_events E s
            ↔ FuzzingOptions.SaveArtifacts (Options s) = true
              ∧ ∃ buf, CurrentUnitData s = Some buf
                       ∧ U = range buf (CurrentUnitSize s)
                       ∧ P = artifact_path E (Options s) U "crash-")
  ∧ (EvTPCDumpCoverage ∈ deadly_signal_events E s
     ↔ FuzzingOptions.DumpCoverage (Options s) = true)
  ∧ (∀ file fields, EvLogSave file fields ∉ deadly_signal_events E s).
Proof.
  split; [|split; [|split]].
  - unfold CrashCallback, deadly_signal_events. go.
    rewrite (bind_Ret _ _ _ _ _ (DumpCurrentUnit_run E _ _)).
    rewrite (bind_Ret _ _ _ _ _ (PrintFinalStats_run _)).
    go. unfold _Exit. rewrite !dump_events_set_Out. proj.
    rewrite !set_Out_app. do 2 f_equal.
  - intros U P. unfold deadly_signal_events.
    rewrite !elem_of_app, elem_of_dump_events.
    pose proof (write_not_in_final_stats (Options s) U P).
    destruct (EF_print_stack_trace E);
      rewrite ?elem_of_cons, ?elem_of_nil; naive_solver.
  - unfold deadly_signal_events.
    destruct (file_events_in_final_stats (Options s)) as [Hiff _].
    destruct (file_events_in_dump_events s "crash-") as [Hdump _].
    rewrite !elem_of_app, Hiff.
    destruct (EF_print_stack_trace E);
      rewrite ?elem_of_cons, ?elem_of_nil; naive_solver.
  - intros file fields. unfold deadly_signal_events.
    destruct (file_events_in_final_stats (Options s)) as [_ Hstats].
    destruct (file_events_in_dump_events s "crash-") as [_ Hdump].
    specialize (Hstats file fields). specialize (Hdump file fields).
    rewrite !elem_of_app.
    destruct (EF_print_stack_trace E);
      rewrite ?elem_of_cons, ?elem_of_nil; naive_solver.
Qed.

(** [InterruptCallback] exits with code 0 after the final statistics and
    changes nothing but the output.  It hands no unit to [WriteToFile] and
    does not write to the log; it calls [TPC.DumpCoverage] exactly when
    the option [DumpCoverage] is set. *)
Theorem InterruptCallback_exits (s : Fuzzer) :
  ∃ out, InterruptCallback s = Exit 0 (set_Out (fun o => o ++ out) s)
         ∧ (∀ U P, EvWriteToFile U P ∉ out)
         ∧ (∀ file fields, EvLogSave file fields ∉ out)
         ∧ (EvTPCDumpCoverage ∈ out
            ↔ FuzzingOptions.DumpCoverage (Options s) = true)
         ∧ (EvPrintf "stat::number_of_executed_units: %zd\n" ∈ out
            ↔ FuzzingOptions.PrintFinalStats (Options s) = true).
Proof.
  exists ([EvPrintf "==%lu== libFuzzer: run interrupted; exiting\n"]
          ++ final_stats_events (Options s)).
  destruct (file_events_in_final_stats (Options s)) as [Hiff Hlog].
  split; [|split; [|split; [|split]]].
  - unfold InterruptCallback. go.
    rewrite (bind_Ret _ _ _ _ _ (PrintFinalStats_run _)).
    unfold _Exit. proj. by rewrite !set_Out_app.
  - intros U P. rewrite elem_of_app, elem_of_cons, elem_of_nil.
    pose proof (write_not_in_final_stats (Options s) U P). naive_solver.
  - intros file fields. specialize (Hlog file fields).
    rewrite elem_of_app, elem_of_cons, elem_of_nil. naive_solver.
  - rewrite elem_of_app, elem_of_cons, elem_of_nil, Hiff. naive_solver.
  - rewrite elem_of_app, elem_of_cons, elem_of_nil, stat_in_final_stats.
    naive_solver.
Qed.

(** [DeathCallback] dumps the current unit under crash- and prints the
    final statistics; it returns to the sanitizer that called it and
    changes nothing but the output. *)
Theorem DeathCallback_returns (s : Fuzzer) :
  DeathCallback E s
  = Ret tt (set_Out (fun o => o ++ dump_events E s "crash-"
                               ++ final_stats_events (Options s)) s).
Proof.
  unfold DeathCallback.
  rewrite (bind_Ret _ _ _ _ _ (DumpCurrentUnit_run E _ _)).
  rewrite PrintFinalStats_run. proj. by rewrite set_Out_app.
Qed.

End Callbacks.


Section Hooks.
Context {TPC_t Corpus_t MD_t RT_t UserCallback : Type}.
Variable E : @Externals TPC_t Corpus_t MD_t RT_t UserCallback.
Let Fuzzer := (@Fuzzer TPC_t Corpus_t MD_t RT_t UserCallback).

Lemma set_AllocTracer_twice (f g : MallocFreeTracer → MallocFreeTracer)
    (s : Fuzzer) :
  set_AllocTracer f (set_AllocTracer g s)
  = set_AllocTracer (fun a => f (g a)) s.
Proof. reflexivity. Qed.

Lemma HandleMalloc_off (Size : Z) (s : Fuzzer) :
  FuzzingOptions.RssLimitMb (Options s) = 0 →
  HandleMalloc E Size s = Ret tt s.
Proof.
  intros Hoff. unfold HandleMalloc. rewrite bind_gets.
  by rewrite decide_True by tauto.
Qed.

Lemma print_trace_quiet (fmt : string) (s : Fuzzer) :
  TraceLevel (AllocTracer s) = 0 → print_trace E fmt s = Ret tt s.
Proof. intros H0. unfold print_trace. rewrite bind_gets. by rewrite H0. Qed.

Lemma run_hooks_counts (hs : list hook) :
  ∀ (m f : Z) (s : Fuzzer),
    FuzzingOptions.RssLimitMb (Options s) = 0 →
    0 ≤ m → 0 ≤ f → m + mallocs hs < 2 ^ 64 → f + frees hs < 2 ^ 64 →
    run_hooks E hs (set_AllocTracer (fun _ => mkTracer m f 0) s)
    = Ret tt (set_AllocTracer
                (fun _ => mkTracer (m + mallocs hs) (f + frees hs) 0) s).
Proof.
  induction hs as [|h hs IH]; intros m f s Hoff Hm Hf Hmb Hfb.
  - unfold mallocs, frees. cbn. by rewrite !Z.add_0_r.
  - assert (Hms : mallocs (h :: hs)
                  = (if decide (h = Free) then 0 else 1) + mallocs hs).
    { unfold mallocs. rewrite filter_cons.
      destruct (decide (h = Free)) as [->|Hne].
      - by rewrite decide_False by auto.
      - rewrite decide_True by done. cbn [length]. lia. }
    assert (Hfs : frees (h :: hs)
                  = (if decide (h = Free) then 1 else 0) + frees hs).
    { unfold frees. rewrite filter_cons.
      destruct (decide (h = Free)) as [->|Hne]; [cbn [length]; lia|done]. }
    rewrite Hms, Hfs in *.
    assert (0 ≤ mallocs hs) by (unfold mallocs; lia).
    assert (0 ≤ frees hs) by (unfold frees; lia).
    change (2 ^ 64) with 18446744073709551616 in *.
    destruct (decide (h = Free)) as [->|Hne];
      [|destruct h as [size|]; [|done]]; cbn [run_hooks].
    + unfold FreeHook. go. rewrite set_AllocTracer_twice.
      cbn [Mallocs Frees TraceLevel].
      match goal with
      | |- (_ ≫= _) ?st = _ =>
          rewrite (bind_Ret _ _ _ _ _ (print_trace_quiet _ st eq_refl))
      end.
      unfold wrap64. rewrite Z.mod_small by lia.
      replace (m + (0 + mallocs hs)) with (m + mallocs hs) by lia.
      replace (f + (1 + frees hs)) with (f + 1 + frees hs) by lia.
      apply IH; (done || lia).
    + unfold MallocHook. go. rewrite set_AllocTracer_twice.
      cbn [Mallocs Frees TraceLevel].
      match goal with
      | |- (_ ≫= _) ?st = _ =>
          rewrite (bind_Ret _ _ _ _ _ (HandleMalloc_off size st Hoff));
          rewrite (bind_Ret _ _ _ _ _ (print_trace_quiet _ st eq_refl))
      end.
      unfold wrap64. rewrite Z.mod_small by lia.
      replace (m + (1 + mallocs hs)) with (m + 1 + mallocs hs) by lia.
      replace (f + (0 + frees hs)) with (f + frees hs) by lia.
      apply IH; (done || lia).
Qed.

(** Between [AllocTracer.Start] and [AllocTracer.Stop], with tracing off
    and no limit on a single allocation, the hooks only count: [Stop]
    tells whether they saw more mallocs than frees, and leaves the
    counters at zero. *)
Theorem AllocTracer_accounting (hs : list hook) (s : Fuzzer) :
  FuzzingOptions.RssLimitMb (Options s) = 0 →
  Z.of_nat (length hs) < 2 ^ 64 →
  (AllocTracer_Start 0;; run_hooks E hs;; AllocTracer_Stop) s
  = Ret (bool_decide (mallocs hs > frees hs))
      (set_AllocTracer (fun _ => mkTracer 0 0 0) s).
Proof.
  intros Hoff Hlen.
  assert (0 ≤ mallocs hs ≤ Z.of_nat (length hs)).
  { unfold mallocs. pose proof (length_filter (fun h => h ≠ Free) hs). lia. }
  assert (0 ≤ frees hs ≤ Z.of_nat (length hs)).
  { unfold frees. pose proof (length_filter (fun h => h = Free) hs). lia. }
  unfold AllocTracer_Start. go.
  rewrite !set_AllocTracer_twice. cbn [Mallocs Frees TraceLevel].
  rewrite (bind_Ret _ _ _ _ _
             (run_hooks_counts hs 0 0 s Hoff ltac:(lia) ltac:(lia)
                ltac:(lia) ltac:(lia))).
  unfold AllocTracer_Stop. go. cbn [Mallocs Frees TraceLevel]. go.
  rewrite set_AllocTracer_twice. reflexivity.
Qed.

End Hooks.

Lemma AllocTracer_accounting_witness :
  (AllocTracer_Start 0;;
   run_hooks Toy.E [Malloc 16; Malloc 32; Free];;
   AllocTracer_Stop) toy_unlimited
  = Ret true (set_AllocTracer (fun _ => mkTracer 0 0 0) toy_unlimited).
Proof.
  apply (AllocTracer_accounting Toy.E [Malloc 16; Malloc 32; Free]
           toy_unlimited); [reflexivity | vm_compute; reflexivity].
Defined.


Section Runs.
Context {TPC_t Corpus_t MD_t RT_t UserCallback : Type}.
Variable E : @Externals TPC_t Corpus_t MD_t RT_t UserCallback.
Let Fuzzer := (@Fuzzer TPC_t Corpus_t MD_t RT_t UserCallback).

(** ** What a run leaves alone *)

(** Whether it returns or exits, [RunOneCallback] leaves alone the
    options, the table of callbacks, the mutation engine, the two sets of
    digests and every counter of the driver: the run counter, the counters
    of new units, of divergences and of duplicates. *)
Theorem RunOneCallback_frame (Data : DataPtr) (Size : Z) (idx : nat)
    (MayDeleteFile : bool) (II : option nat) (s : Fuzzer) :
  match RunOneCallback E Data Size idx MayDeleteFile II s with
  | Ret _ s' | Exit _ s' => harness_frame s s'
  | Fault _ => True
  end.
Proof.
  pose proof (hf_RunOneCallback E Data Size idx MayDeleteFile II s) as H.
  by destruct (RunOneCallback E Data Size idx MayDeleteFile II s).
Qed.

(** [RunOne] counts a run only in differential mode: there a run that
    returns has incremented [TotalNumberOfRuns] once; in the other mode
    the counter stays as it is, whether the run returns or exits. *)
Theorem RunOne_counts_runs (Data : DataPtr) (Size : Z)
    (MayDeleteFile : bool) (II : option nat) (s : Fuzzer) :
  match RunOne E Data Size MayDeleteFile II s with
  | Ret _ s' =>
      TotalNumberOfRuns s'
      = if FuzzingOptions.DifferentialMode (Options s)
        then incr (TotalNumberOfRuns s) else TotalNumberOfRuns s
  | Exit _ s' =>
      FuzzingOptions.DifferentialMode (Options s) = false →
      TotalNumberOfRuns s' = TotalNumberOfRuns s
  | Fault _ => True
  end.
Proof.
  destruct (FuzzingOptions.DifferentialMode (Options s)) eqn:Hdiff.
  - destruct (RunOne E Data Size MayDeleteFile II s) as [b s'| |] eqn:Hrun;
      [|done..].
    by destruct (RunOne_differential_inv E s s' Data Size MayDeleteFile II b
                   Hdiff Hrun) as (_ & _ & _ & _ & _ & Htotal & _).
  - assert (Heq : RunOne E Data Size MayDeleteFile II s
                  = RunOneCallback E Data Size 0 MayDeleteFile II s).
    { unfold RunOne. rewrite bind_gets. by rewrite Hdiff. }
    rewrite Heq.
    pose proof (hf_RunOneCallback E Data Size 0 MayDeleteFile II s) as H.
    destruct (RunOneCallback E Data Size 0 MayDeleteFile II s);
      [|intros _|done]; apply H.
Qed.

(** ** The accounting of [DumpUnitIfDiff] *)

(** A call of [DumpUnitIfDiff] that returns counts a mixed vector of
    return codes exactly once, as a duplicate or as a new divergence, and
    counts no other vector; [CoverageHash] only grows, and the digests of
    the mutations, the run counter and the corpus stay as they are. *)
Theorem DumpUnitIfDiff_accounting (Data : DataPtr) (Size : Z)
    (s s' : Fuzzer) :
  DumpUnitIfDiff E Data Size s = Ret tt s' →
  Duplicate s + 1 < 2 ^ 64 → NumberOfDiffUnitsAdded s + 1 < 2 ^ 64 →
  0 ≤ Duplicate s → 0 ≤ NumberOfDiffUnitsAdded s →
  Duplicate s' + NumberOfDiffUnitsAdded s'
  = Duplicate s + NumberOfDiffUnitsAdded s
    + Z.b2z (mixed (OutputDiffVec (TPC s)))
  ∧ Duplicate s ≤ Duplicate s'
  ∧ NumberOfDiffUnitsAdded s ≤ NumberOfDiffUnitsAdded s'
  ∧ CoverageHash s ⊆ CoverageHash s'
  ∧ hashMap s' = hashMap s
  ∧ TotalNumberOfRuns s' = TotalNumberOfRuns s
  ∧ Corpus s' = Corpus s.
Proof.
  intros Hret HD HN HD0 HN0.
  change (2 ^ 64) with 18446744073709551616 in *.
  assert (Hincr : ∀ x, 0 ≤ x → x + 1 < 18446744073709551616 → incr x = x + 1).
  { intros x H0 Hx. unfold incr, wrap64. apply Z.mod_small.
    change (2 ^ 64) with 18446744073709551616. lia. }
  destruct (mixed (OutputDiffVec (TPC s))) eqn:Hm.
  2: { rewrite DumpUnitIfDiff_uniform in Hret by done.
       injection Hret as <-. cbn [Z.b2z]. repeat split; (done || lia). }
  destruct (fingerprint E s) as [fp|] eqn:Hfp.
  2: { by rewrite DumpUnitIfDiff_no_blob in Hret. }
  destruct (CoverageHash s !! fp) as [b|] eqn:Hlook.
  { rewrite (DumpUnitIfDiff_known _ _ _ _ fp) in Hret by (try done; eauto).
    injection Hret as <-. proj. rewrite Hincr by done. cbn [Z.b2z].
    repeat split; (done || lia). }
  assert (∃ data, deref Data s = Ret data s) as [data Hderef].
  { destruct Data as [|bytes]; [|by exists bytes].
    destruct (CurrentUnitData s) as [buf|] eqn:Hcur.
    - exists buf. unfold deref. rewrite bind_gets. by rewrite Hcur.
    - by rewrite (DumpUnitIfDiff_null _ _ _ fp) in Hret. }
  rewrite (DumpUnitIfDiff_fresh _ _ _ _ fp data) in Hret by done.
  injection Hret as <-. unfold record_divergence. proj.
  rewrite Hincr by done. cbn [Z.b2z].
  repeat split; try (done || lia).
  by apply insert_subseteq.
Qed.

End Runs.

Lemma DumpUnitIfDiff_accounting_witness :
  ∃ s', DumpUnitIfDiff Toy.E (BufferPtr [0; 255]) 2 (toy_diverged true)
        = Ret tt s'
        ∧ Duplicate s' + NumberOfDiffUnitsAdded s' = 1.
Proof.
  eexists. split; [vm_compute; reflexivity|].
  match goal with
  | |- Duplicate ?s' + _ = _ =>
      destruct (DumpUnitIfDiff_accounting Toy.E (BufferPtr [0; 255]) 2
                  (toy_diverged true) s') as [Hsum _];
        [vm_compute; reflexivity | reflexivity | reflexivity
        | vm_compute; congruence | vm_compute; congruence |]
  end.
  exact Hsum.
Defined.


Section Loop.
Context {TPC_t Corpus_t MD_t RT_t UserCallback : Type}.
Variable E : @Externals TPC_t Corpus_t MD_t RT_t UserCallback.
Let Fuzzer := (@Fuzzer TPC_t Corpus_t MD_t RT_t UserCallback).

(** ** The mutation loop *)

(** Whatever candidate leaves the mutation loop of [MutateAndTestOne] is
    within the cap, lies in the current-unit buffer, and has its digest in
    [hashMap]; the loop removes no digest and lowers no duplicate
    count. *)
Theorem Mutate_loop_recorded (fuel : nat) :
  ∀ (Size Max : Z) (PreviousUnit PreviousUnit' : list Z)
    (NewSize PreviousSize : Z) (s s' : Fuzzer),
    Mutate_loop E fuel Size Max PreviousUnit s
    = Ret (NewSize, PreviousUnit', PreviousSize) s' →
    NewSize ≤ Max
    ∧ PreviousSize = Size
    ∧ (∃ buf, CurrentUnitData s' = Some buf
              ∧ is_Some (hashMap s' !! ComputeSHA1 E (range buf NewSize)))
    ∧ hashMap s ⊆ hashMap s'
    ∧ (∀ n, NumberOfDuplicate s = n → n + Z.of_nat fuel < 2 ^ 64 → 0 ≤ n →
            n ≤ NumberOfDuplicate s').
Proof.
  induction fuel as [|fuel IH];
    intros Size Max Prev Prev' NewSize PSize s s' Hrun; [done|].
  cbn [Mutate_loop] in Hrun. unfold deref in Hrun.
  revert Hrun. go.
  destruct (CurrentUnitData s) as [buf|] eqn:Hcur; [|done]. go.
  destruct (memcpy Prev 0 buf 0 (Z.to_nat Size)) as [Prev1|] eqn:Hcopy;
    [|done].
  go.
  destruct (MD_Mutate E buf Size Max (MD s)) as [[buf' New] md'] eqn:Hmut.
  go.
  set (tmp := ComputeSHA1 E (range buf' New)).
  assert (Hwrap : ∀ n, 0 ≤ n → n + Z.of_nat (S fuel) < 2 ^ 64 →
                       n ≤ incr n ∧ incr n + Z.of_nat fuel < 2 ^ 64).
  { intros n H0 Hn. unfold incr, wrap64.
    change (2 ^ 64) with 18446744073709551616 in *.
    rewrite Z.mod_small by lia. lia. }
  destruct (decide (is_Some (hashMap s !! tmp))) as [Hseen|Hnew]; go.
  - destruct (decide (New > Max)) as [Hbig|Hfit].
    + intros Hrun. apply IH in Hrun as (Hle & HP & Hbuf & Hsub & Hdup).
      revert Hsub Hdup. proj. intros Hsub Hdup.
      repeat split; try done.
      intros n <- Hn H0. destruct (Hwrap _ H0 Hn) as [H1 H2].
      etrans; [exact H1|]. apply Hdup; [done|done|].
      etrans; [exact H0|exact H1].
    + intros [= <- <- <- <-]. proj.
      repeat split; try (done || lia); [by exists buf'|].
      intros n <- Hn H0. by destruct (Hwrap _ H0 Hn).
  - assert (Hsub1 : hashMap s ⊆ <[tmp := true]> (hashMap s)).
    { apply insert_subseteq. by apply eq_None_not_Some. }
    destruct (decide (New > Max)) as [Hbig|Hfit].
    + intros Hrun. apply IH in Hrun as (Hle & HP & Hbuf & Hsub & Hdup).
      revert Hsub Hdup. proj. intros Hsub Hdup.
      repeat split; try done.
      * by etrans.
      * intros n <- Hn H0. apply Hdup; [done| |done].
        change (2 ^ 64) with 18446744073709551616 in *. lia.
    + intros [= <- <- <- <-]. proj.
      repeat split; try (done || lia).
      exists buf'. split; [done|]. by rewrite lookup_insert_eq.
Qed.

End Loop.

Lemma Mutate_loop_recorded_witness :
  ∃ buf, CurrentUnitData
           (set_NumberOfDuplicate incr
              (set_MD (fun _ => [])
                 (set_CurrentUnitData
                    (fun _ => Some [0; 255; 0; 0; 0; 0; 0; 0])
                    toy_second_round))) = Some buf
         ∧ is_Some (hashMap toy_second_round !! range buf 2).
Proof.
  destruct (Mutate_loop_recorded Toy.E 1 2 8 (replicate 8 0)
              [0; 255; 0; 0; 0; 0; 0; 0] 2 2 toy_second_round
              (set_NumberOfDuplicate incr
                 (set_MD (fun _ => [])
                    (set_CurrentUnitData
                       (fun _ => Some [0; 255; 0; 0; 0; 0; 0; 0])
                       toy_second_round))))
    as (_ & _ & Hbuf & _); [vm_compute; reflexivity|].
  exact Hbuf.
Defined.


Section Reports.
Context {TPC_t Corpus_t MD_t RT_t UserCallback : Type}.
Variable E : @Externals TPC_t Corpus_t MD_t RT_t UserCallback.
Let Fuzzer := (@Fuzzer TPC_t Corpus_t MD_t RT_t UserCallback).

(** ** [CheckExitOnSrcPosOrItem] *)

Lemma CheckExitOnSrcPos_loop_code (n : nat) :
  ∀ (i : Z) (s s' : Fuzzer) (code : Z),
    CheckExitOnSrcPos_loop E i n s = Exit code s' → code = 0.
Proof.
  induction n as [|n IH]; intros i s s' code; [done|].
  cbn [CheckExitOnSrcPos_loop]. go.
  destruct (decide (TPC_GetPC E i (TPC s) = 0)); [apply IH|]. go.
  destruct (decide (TPC_GetPC E i (TPC s) ∈ PCsSet s)); [apply IH|]. go.
  destruct (DescribePC_finds E _ _); [|apply IH].
  go. unfold _Exit. by intros [= <- _].
Qed.

Lemma CheckExitOnSrcPos_loop_total (n : nat) :
  ∀ (i : Z) (s : Fuzzer),
    ∃ s', CheckExitOnSrcPos_loop E i n s = Ret tt s'
          ∨ CheckExitOnSrcPos_loop E i n s = Exit 0 s'.
Proof.
  induction n as [|n IH]; intros i s; [by exists s; left|].
  cbn [CheckExitOnSrcPos_loop]. go.
  destruct (decide (TPC_GetPC E i (TPC s) = 0)); [apply IH|]. go.
  destruct (decide (TPC_GetPC E i (TPC s) ∈ PCsSet s)); [apply IH|]. go.
  destruct (DescribePC_finds E _ _); [|apply IH].
  go. unfold _Exit. eexists. by right.
Qed.

(** [CheckExitOnSrcPosOrItem] always returns or exits, and 0 is the only
    code it exits with; with neither [ExitOnSrcPos] nor [ExitOnItem] set
    it returns and changes nothing. *)
Theorem CheckExitOnSrcPosOrItem_code (s : Fuzzer) :
  (∃ s', CheckExitOnSrcPosOrItem E s = Ret tt s'
         ∨ CheckExitOnSrcPosOrItem E s = Exit 0 s')
  ∧ (FuzzingOptions.ExitOnSrcPos (Options s) = "" →
     FuzzingOptions.ExitOnItem (Options s) = "" →
     CheckExitOnSrcPosOrItem E s = Ret tt s).
Proof.
  split.
  - unfold CheckExitOnSrcPosOrItem. go.
    assert (Hitem : ∀ s1 : Fuzzer,
              ∃ s', (if decide (FuzzingOptions.ExitOnItem (Options s) = "")
                     then mret tt
                     else
                       c ← gets Corpus;
                       if Corpus_HasUnit E
                            (FuzzingOptions.ExitOnItem (Options s)) c
                       then
                         Printf
                           "INFO: found item with checksum '%s', exiting.\n";;
                         _Exit 0
                       else mret tt) s1 = Ret tt s'
                    ∨ (if decide (FuzzingOptions.ExitOnItem (Options s) = "")
                       then mret tt
                       else
                         c ← gets Corpus;
                         if Corpus_HasUnit E
                              (FuzzingOptions.ExitOnItem (Options s)) c
                         then
                           Printf
                             "INFO: found item with checksum '%s', exiting.\n";;
                           _Exit 0
                         else mret tt) s1 = Exit 0 s').
    { intros s1. destruct (decide _); [by exists s1; left|]. go.
      destruct (Corpus_HasUnit E _ _); [|by exists s1; left].
      go. unfold _Exit. eexists. by right. }
    destruct (decide (FuzzingOptions.ExitOnSrcPos (Options s) = "")).
    + go. apply Hitem.
    + go.
      destruct (CheckExitOnSrcPos_loop_total (NumPCs s - 1) 1 s)
        as [s1 [Hret|Hexit]].
      * rewrite (bind_Ret _ _ _ _ _ Hret). apply Hitem.
      * exists s1. right. unfold mbind, M_bind. by rewrite Hexit.
  - intros Hpos Hitem. unfold CheckExitOnSrcPosOrItem. go.
    rewrite Hpos, Hitem. by rewrite !decide_True by done.
Qed.

(** ** Reporting a slow unit *)

(** For times below 2^48 seconds, where the floating-point test of the
    source and its exact reading agree, [PrintPulseAndReportSlowInput]
    never lowers [TimeOfLongestUnitInSeconds]: it raises it to the time of
    the unit when that is more than 1.1 times the longest so far and at
    least [ReportSlowUnits], and only then does it write a slow-unit-
    file. *)
Theorem PrintPulseAndReportSlowInput_longest (Data : DataPtr) (Size : Z)
    (s s' : Fuzzer) :
  let TimeOfUnit :=
    Z.quot (UnitStopTime s - UnitStartTime s) (ticks_per_second E) in
  let slow :=
    bool_decide (10 * TimeOfUnit > 11 * TimeOfLongestUnitInSeconds s)
    && bool_decide (TimeOfUnit
                    >= FuzzingOptions.ReportSlowUnits (Options s)) in
  0 ≤ TimeOfLongestUnitInSeconds s < 2 ^ 48 → TimeOfUnit < 2 ^ 48 →
  PrintPulseAndReportSlowInput E Data Size s = Ret tt s' →
  TimeOfLongestUnitInSeconds s ≤ TimeOfLongestUnitInSeconds s'
  ∧ TimeOfLongestUnitInSeconds s'
    = (if slow then TimeOfUnit else TimeOfLongestUnitInSeconds s)
  ∧ (∀ U P, EvWriteToFile U P ∈ drop (length (Out s)) (Out s') →
            slow = true
            ∧ FuzzingOptions.SaveArtifacts (Options s) = true
            ∧ P = artifact_path E (Options s) U "slow-unit-").
Proof.
  intros TimeOfUnit slow H0 Hbound. unfold PrintPulseAndReportSlowInput.
  go. fold TimeOfUnit.
  set (pulse := bool_decide _ && bool_decide _).
  assert (Hpulse : ∃ out,
            (∀ U P, EvWriteToFile U P ∉ out)
            ∧ ∀ B (k : unit → M B),
                (when pulse (PrintStats "pulse ") ≫= k) s
                = k tt (set_Out (fun o => o ++ out) s)).
  { destruct pulse.
    - unfold PrintStats.
      destruct (decide (FuzzingOptions.Verbosity (Options s) = 0)) as [Hv|Hv].
      + exists []. split; [intros U P; apply not_elem_of_nil|].
        intros B k. rewrite bind_when_true. go.
        rewrite decide_True by done. go. by rewrite set_Out_nil.
      + exists [EvPrintStats "pulse "]. split.
        * intros U P. rewrite elem_of_cons, elem_of_nil. naive_solver.
        * intros B k. rewrite bind_when_true. go.
          rewrite decide_False by done. by go.
    - exists []. split; [intros U P; apply not_elem_of_nil|].
      intros B k. rewrite bind_when_false. by rewrite set_Out_nil. }
  destruct Hpulse as (out & Hnowrite & Hpulse).
  rewrite Hpulse. go. fold slow.
  destruct slow eqn:Hslow.
  - assert (0 ≤ TimeOfUnit).
    { apply andb_true_iff in Hslow as [H1 _].
      apply bool_decide_eq_true in H1. lia. }
    assert (Hw : wrap64 TimeOfUnit = TimeOfUnit)
      by (apply Z.mod_small; lia).
    unfold when. go. intros Hrun.
    apply bind_inv_Ret in Hrun as (data & s1 & Hderef & Hrun).
    pose proof (deref_inv _ _ _ _ Hderef) as ->.
    rewrite WriteUnitToFileWithPrefix_run in Hrun.
    injection Hrun as <-. proj. rewrite Hw.
    split; [|split; [done|]].
    + apply andb_true_iff in Hslow as [H1 _].
      apply bool_decide_eq_true in H1. lia.
    + intros U P. rewrite <- !app_assoc, drop_app_length.
      rewrite !elem_of_app, elem_of_artifact_events.
      rewrite elem_of_cons, elem_of_nil.
      intros [Hin|[[Hin|[]]|(Hsave & -> & ->)]];
        [by apply Hnowrite in Hin|done|done].
  - unfold when. intros [= <-]. proj.
    split; [lia|]. split; [done|].
    intros U P. rewrite drop_app_length. intros Hin.
    by apply Hnowrite in Hin.
Qed.

End Reports.


Section Output.
Context {TPC_t Corpus_t MD_t RT_t UserCallback : Type}.
Variable E : @Externals TPC_t Corpus_t MD_t RT_t UserCallback.
Let Fuzzer := (@Fuzzer TPC_t Corpus_t MD_t RT_t UserCallback).

(** ** Writing to the output corpus *)

Lemma WriteToOutputCorpus_run (U : list Z) (s : Fuzzer) :
  let o := Options s in
  let dir := FuzzingOptions.OutputCorpus o in
  if FuzzingOptions.OnlyASCII o && negb (IsASCII E U)
  then WriteToOutputCorpus E U s = Fault AssertionFailed
  else if decide (dir = "")
  then WriteToOutputCorpus E U s = Ret tt s
  else
    WriteToOutputCorpus E U s
    = Ret tt
        (set_Out
           (fun out =>
              out ++ [EvWriteToFile U (DirPlusFile E dir (Hash E U))]
              ++ (if bool_decide (FuzzingOptions.Verbosity o >= 2)
                  then [EvPrintf "Written to %s\n"] else [])) s).
Proof.
  intros o dir. unfold WriteToOutputCorpus. go. fold o. fold dir.
  assert (Hwrite :
    (if decide (dir = "") then mret tt
     else
       emit (EvWriteToFile U (DirPlusFile E dir (Hash E U)));;
       when (bool_decide (FuzzingOptions.Verbosity o >= 2))
            (Printf "Written to %s\n")) s
    = if decide (dir = "") then Ret tt s
      else Ret tt
             (set_Out
                (fun out =>
                   out ++ [EvWriteToFile U (DirPlusFile E dir (Hash E U))]
                   ++ (if bool_decide (FuzzingOptions.Verbosity o >= 2)
                       then [EvPrintf "Written to %s\n"] else [])) s)).
  { destruct (decide (dir = "")); [done|]. go.
    destruct (bool_decide _);
      unfold when, Printf, emit, modify, mret, M_ret; cbv beta.
    - by rewrite set_Out_app.
    - by rewrite app_nil_r. }
  destruct (FuzzingOptions.OnlyASCII o), (IsASCII E U); cbn [andb negb].
  - rewrite bind_when_true. go. rewrite Hwrite. by destruct (decide _).
  - by rewrite bind_when_true.
  - rewrite bind_when_false. rewrite Hwrite. by destruct (decide _).
  - rewrite bind_when_false. rewrite Hwrite. by destruct (decide _).
Qed.

(** [WriteToOutputCorpus] fails its assertion on a unit that is not ASCII
    when [OnlyASCII] is set, even with no output corpus; otherwise it
    writes the unit to [OutputCorpus/Hash(U)] when an output corpus is
    given, and does nothing when none is. *)
Theorem WriteToOutputCorpus_cases (U : list Z) (s : Fuzzer) :
  let o := Options s in
  let dir := FuzzingOptions.OutputCorpus o in
  if FuzzingOptions.OnlyASCII o && negb (IsASCII E U)
  then WriteToOutputCorpus E U s = Fault AssertionFailed
  else if decide (dir = "")
  then WriteToOutputCorpus E U s = Ret tt s
  else
    WriteToOutputCorpus E U s
    = Ret tt
        (set_Out
           (fun out =>
              out ++ [EvWriteToFile U (DirPlusFile E dir (Hash E U))]
              ++ (if bool_decide (FuzzingOptions.Verbosity o >= 2)
                  then [EvPrintf "Written to %s\n"] else [])) s).
Proof. apply WriteToOutputCorpus_run. Qed.

Lemma PrintStatusForNewUnit_run (U : list Z) (s : Fuzzer) :
  ∃ out, PrintStatusForNewUnit U s = Ret tt (set_Out (fun o => o ++ out) s)
         ∧ ∀ U' P, EvWriteToFile U' P ∉ out.
Proof.
  unfold PrintStatusForNewUnit. go.
  destruct (FuzzingOptions.PrintNEW (Options s)); cbn [negb].
  2: { exists []. rewrite set_Out_nil. split; [done|].
       intros U' P. apply not_elem_of_nil. }
  unfold PrintStats. go.
  destruct (decide (FuzzingOptions.Verbosity (Options s) = 0)) as [Hv|Hv].
  - go. rewrite Hv. unfold when. cbn [bool_decide decide_rel].
    exists []. rewrite set_Out_nil. split; [done|].
    intros U' P. apply not_elem_of_nil.
  - go. rewrite bool_decide_eq_true_2 by done. unfold when. go.
    unfold Printf, emit, modify. cbv beta. rewrite !set_Out_app.
    eexists. split; [reflexivity|].
    intros U' P. rewrite !elem_of_app, !elem_of_cons, elem_of_nil.
    naive_solver.
Qed.

(** [ReportNewCoverage], when it returns, has counted one new unit and one
    successful mutation of the unit it came from, has recorded the
    mutation sequence, and has written the unit to the output corpus when
    there is one; it writes no other file. *)
Theorem ReportNewCoverage_counts (II : nat) (U : list Z) (s s' : Fuzzer) :
  ReportNewCoverage E II U s = Ret tt s' →
  NumberOfNewUnitsAdded s' = incr (NumberOfNewUnitsAdded s)
  ∧ Corpus s' = II_NumSuccessfullMutations_incr E II (Corpus s)
  ∧ MD s' = MD_RecordSuccessfulMutationSequence E (MD s)
  ∧ (∀ U' P, EvWriteToFile U' P ∈ drop (length (Out s)) (Out s')
             ↔ FuzzingOptions.OutputCorpus (Options s) ≠ ""
               ∧ U' = U
               ∧ P = DirPlusFile E (FuzzingOptions.OutputCorpus (Options s))
                       (Hash E U)).
Proof.
  unfold ReportNewCoverage. go.
  match goal with
  | |- (_ ≫= _) ?st = _ → _ =>
      destruct (PrintStatusForNewUnit_run U st) as (out & Hprint & Hout)
  end.
  rewrite (bind_Ret _ _ _ _ _ Hprint).
  match goal with
  | |- (_ ≫= _) ?st = _ → _ => pose proof (WriteToOutputCorpus_run U st) as Hw
  end.
  revert Hw. proj. cbv zeta.
  destruct (FuzzingOptions.OnlyASCII (Options s) && negb (IsASCII E U)).
  { intros Hw. unfold mbind, M_bind. by rewrite Hw. }
  destruct (decide (FuzzingOptions.OutputCorpus (Options s) = "")) as [Hd|Hd];
    intros Hw; rewrite (bind_Ret _ _ _ _ _ Hw); go;
    unfold emit, modify; intros [= <-]; proj;
    (split; [done|]); (split; [done|]); (split; [done|]);
    intros U' P; rewrite <- ?app_assoc, drop_app_length;
    rewrite ?elem_of_app, ?elem_of_cons, ?elem_of_nil;
    pose proof (Hout U' P).
  - naive_solver.
  - destruct (bool_decide _); rewrite ?elem_of_cons, ?elem_of_nil;
      naive_solver.
Qed.

(** ** The threshold of [HandleMalloc] *)

(** With a limit of [L] Mb, [0 < L < 2^64], [HandleMalloc] returns exactly
    on the sizes below [L * 2^20] bytes, and exits with [ErrorExitCode] on
    every other size, the size [L * 2^20] included. *)
Theorem HandleMalloc_threshold (Size : Z) (s : Fuzzer) :
  let L := FuzzingOptions.RssLimitMb (Options s) in
  0 < L < 2 ^ 64 → 0 ≤ Size →
  if decide (Size < L * 2 ^ 20)
  then HandleMalloc E Size s = Ret tt s
  else HandleMalloc E Size s
       = Exit (FuzzingOptions.ErrorExitCode (Options s))
           (set_Out (fun o => o ++ oom_events E s) s).
Proof.
  intros L HL HS.
  assert (Hw : wrap64 L = L) by (apply Z.mod_small; lia).
  assert (Hshift : Z.shiftr Size 20 < L ↔ Size < L * 2 ^ 20).
  { rewrite Z.shiftr_div_pow2 by lia. change (2 ^ 20) with 1048576. split.
    - intros H. pose proof (Z.mul_succ_div_gt Size 1048576 ltac:(lia)). lia.
    - intros H. apply Z.div_lt_upper_bound; lia. }
  destruct (decide (Size < L * 2 ^ 20)) as [Hlt|Hge].
  - unfold HandleMalloc. go. fold L. rewrite Hw.
    rewrite decide_True; [done|]. right. by apply Hshift.
  - apply HandleMalloc_exit; fold L; [lia|]. rewrite Hw. by rewrite Hshift.
Qed.

(** ** Skipping the leak check *)

(** [TryDetectingAMemoryLeak] runs the target again only when the last
    run had more mallocs than frees, leak detection is on and lsan is
    there; otherwise it returns and changes nothing. *)
Theorem TryDetectingAMemoryLeak_skips (Data : DataPtr) (Size : Z)
    (DuringInitialCorpusExecution : bool) (s : Fuzzer) :
  HasMoreMallocsThanFrees s && FuzzingOptions.DetectLeaks (Options s)
    && EF_lsan E = false →
  TryDetectingAMemoryLeak E Data Size DuringInitialCorpusExecution s
  = Ret tt s.
Proof.
  intros Hskip. unfold TryDetectingAMemoryLeak. go.
  destruct (HasMoreMallocsThanFrees s); [|done].
  destruct (FuzzingOptions.DetectLeaks (Options s)); [|done].
  destruct (EF_lsan E); done.
Qed.

End Output.

Lemma HandleMalloc_threshold_witness :
  HandleMalloc Toy.E (64 * 2 ^ 20) (toy_idle false)
  = Exit 77 (set_Out (fun o => o ++ oom_events Toy.E (toy_idle false))
               (toy_idle false)).
Proof.
  apply (HandleMalloc_threshold Toy.E (64 * 2 ^ 20) (toy_idle false));
    [vm_compute; split; reflexivity | vm_compute; congruence].
Defined.

Lemma ReportNewCoverage_counts_witness :
  ∃ s', ReportNewCoverage Toy.E 0 [65] (toy_idle true) = Ret tt s'
        ∧ NumberOfNewUnitsAdded s' = 1.
Proof.
  eexists. split; [vm_compute; reflexivity|].
  match goal with
  | |- NumberOfNewUnitsAdded ?s' = _ =>
      destruct (ReportNewCoverage_counts Toy.E 0 [65] (toy_idle true) s')
        as [Hnew _]; [vm_compute; reflexivity|]
  end.
  exact Hnew.
Defined.

Lemma TryDetectingAMemoryLeak_skips_witness :
  TryDetectingAMemoryLeak Toy.E (BufferPtr [65]) 1 false (toy_idle true)
  = Ret tt (toy_idle true).
Proof.
  apply (TryDetectingAMemoryLeak_skips Toy.E (BufferPtr [65]) 1 false
           (toy_idle true)).
  reflexivity.
Defined.


Section Between.
Context {TPC_t Corpus_t MD_t RT_t UserCallback : Type}.
Variable E : @Externals TPC_t Corpus_t MD_t RT_t UserCallback.
Let Fuzzer := (@Fuzzer TPC_t Corpus_t MD_t RT_t UserCallback).

(** ** The current unit between two runs *)

(** A run that completes leaves [CurrentUnitSize] at 0: an artifact that
    [DumpCurrentUnit] writes after it, under whatever prefix, is the empty
    unit. *)
Theorem DumpCurrentUnit_after_run (s : Fuzzer) (Data : DataPtr) (Size : Z)
    (data : list Z) (r : CBRun) :
  0 ≤ Size →
  Size ≤ Z.of_nat (length data) →
  deref Data s = Ret data s →
  (∀ buf, CurrentUnitData s = Some buf → Size ≤ Z.of_nat (length buf)) →
  RunCallback E (CB s) (range data Size) Size (TPC_ResetMaps E (TPC s))
    (system_clock_now E (RT s)).2 = Some r →
  (FuzzingOptions.DifferentialMode (Options s) = false → cb_Res r = 0) →
  LooseMemeq (cb_DataCopy r) data Size = Some true →
  ∃ s', ExecuteCallback E Data Size s = Ret (cb_Res r) s'
        ∧ ∀ Prefix U P,
            EvWriteToFile U P ∈ dump_events E s' Prefix → U = [].
Proof.
  intros H0 Hdata Hderef Hfit Hrun Hres Hsame.
  destruct (ExecuteCallback_run E s Data Size data r true H0 Hdata Hderef
              Hfit Hrun Hres Hsame) as (s' & Hexec & _ & Hsize & _).
  exists s'. split; [exact Hexec|].
  intros Prefix U P Hin.
  apply elem_of_dump_events in Hin as (_ & buf & _ & -> & _).
  by rewrite Hsize.
Qed.

(** ** The assertions of [MutateAndTestOne] *)

(** [MutateAndTestOne] fails an assertion when there is no current-unit
    buffer, and when the unit chosen from the corpus is longer than
    [MaxInputLen]. *)
Theorem MutateAndTestOne_asserts (fuel : nat) (s : Fuzzer) :
  let chosen := Corpus_ChooseUnitToMutate E (Corpus s)
                  (MD_StartMutationSequence E (MD s)) in
  let U := II_U E chosen.1.1 chosen.1.2 in
  CurrentUnitData s = None ∨ MaxInputLen s < Z.of_nat (length U) →
  MutateAndTestOne E fuel s = Fault AssertionFailed.
Proof.
  intros chosen U Hbad. unfold MutateAndTestOne. go.
  fold chosen. destruct chosen as [[II c'] md'] eqn:Hch. go.
  cbn [fst snd] in U.
  destruct (CurrentUnitData s) as [buf|] eqn:Hcur; [|done].
  destruct Hbad as [?|Hlong]; [done|].
  cbn [is_Some]. rewrite bool_decide_eq_true_2 by eauto. go.
  fold U. by rewrite bool_decide_eq_false_2 by lia.
Qed.

End Between.

Lemma DumpCurrentUnit_after_run_witness :
  ∃ s', ExecuteCallback Toy.E (BufferPtr [1; 2; 3]) 3 (toy_idle true)
        = Ret 0 s'
        ∧ ∀ Prefix U P,
            EvWriteToFile U P ∈ dump_events Toy.E s' Prefix → U = [].
Proof.
  apply (DumpCurrentUnit_after_run Toy.E (toy_idle true)
           (BufferPtr [1; 2; 3]) 3 [1; 2; 3]
           (mkCBRun 0 [1; 2; 3]
              (mkTracePC [0; 0] [0; 4096; 2; 0; 0]
                 (Toy.mkMaps [1] 1 [] []))
              1 0 0)).
  - lia.
  - simpl. lia.
  - reflexivity.
  - intros buf [= <-]. simpl. lia.
  - vm_compute. reflexivity.
  - reflexivity.
  - vm_compute. reflexivity.
Defined.

Lemma MutateAndTestOne_asserts_witness :
  MutateAndTestOne Toy.E 1 toy_no_buffer = Fault AssertionFailed.
Proof.
  apply (MutateAndTestOne_asserts Toy.E 1 toy_no_buffer).
  left. reflexivity.
Defined.

Lemma PrintPulseAndReportSlowInput_longest_witness :
  ∃ s', PrintPulseAndReportSlowInput Toy.E (BufferPtr [65]) 1 toy_slow
        = Ret tt s'
        ∧ TimeOfLongestUnitInSeconds s' = 20.
Proof.
  eexists. split; [vm_compute; reflexivity|].
  match goal with
  | |- TimeOfLongestUnitInSeconds ?s' = _ =>
      destruct (PrintPulseAndReportSlowInput_longest Toy.E (BufferPtr [65])
                  1 toy_slow s') as (_ & Hlong & _);
        [vm_compute; split; [congruence | reflexivity]
        | vm_compute; reflexivity | vm_compute; reflexivity |]
  end.
  exact Hlong.
Defined.

